(** * The Machine of Worlds: progression and economy engine

    A shallow embedding of the JavaScript sources under [js/]
    (GameState.js, WorldSystem.js, UpgradeSystem.js, ResourceSystem.js,
    EventSystem.js, AchievementSystem.js, Game.js) together with the
    properties stated about them.

    Conventions.
    - A JavaScript number is an exact rational ([Q]).  The game's
      constants are small integers and short decimals, so the values
      met in the scenarios below are the same in IEEE doubles.
      Counters that the code only ever increments or decrements by one
      (durations, world ids) are integers ([Z]); an upgrade level is a
      rational like any other number, since a save may hold a fraction
      there.
    - A JavaScript object used as a dictionary is a [gmap string _]:
      [m !! k] is [m[k]] ([None] for [undefined]), [<[k:=v]> m] is the
      assignment [m[k] = v].
    - In-place mutation of the shared state object becomes explicit
      state passing: every operation takes the state and returns the
      new one, next to the value the method returns. *)

From stdpp Require Import gmap strings list fin_maps pretty relations sorting.
From Stdlib Require Import ZArith QArith Qround Qabs Qpower Lqa.

Set Warnings "-register-all".

#[local] Open Scope string_scope.
#[local] Open Scope list_scope.

(** ** JavaScript numbers *)

Module Num.

Definition leb (a b : Q) : bool := Qle_bool a b.
Definition ltb (a b : Q) : bool := negb (Qle_bool b a).
Definition geb (a b : Q) : bool := Qle_bool b a.
Definition gtb (a b : Q) : bool := negb (Qle_bool a b).

(** [Math.floor] *)
Definition floor (q : Q) : Q := inject_Z (Qfloor q).

(** Truthiness of a number: every number but [0] (and [NaN]). *)
Definition truthy (q : Q) : bool := negb (Qeq_bool q 0).

(** Truthiness of a possibly missing numeric property. *)
Definition truthy_opt (o : option Q) : bool :=
  match o with Some q => truthy q | None => false end.

(** [x || d] on a possibly missing number. *)
Definition or_else (o : option Q) (d : Q) : Q :=
  match o with Some q => if truthy q then q else d | None => d end.

(** [a >= b] where [b] may be [undefined] (the comparison is then false). *)
Definition geb_opt (a : Q) (b : option Q) : bool :=
  match b with Some q => geb a q | None => false end.

(** *** [Math.floor(c * Math.pow(b, e))]

    For a whole exponent the power of a rational is a rational.  For a
    fractional exponent [n/d] it is irrational in general; the floor of
    [c * b^(n/d)] is still a definite integer, found here from the exact
    value by extracting an integer root. *)

(** The integer [d]-th root of [m >= 0], one binary digit per round:
    the largest [r] with [r^d <= m]. *)
Fixpoint iroot_aux (fuel : nat) (d : positive) (m : Z) : Z :=
  match fuel with
  | O => 0
  | S fuel' =>
      if (m <=? 0)%Z then 0%Z
      else
        let r := (2 * iroot_aux fuel' d (m / 2 ^ Z.pos d))%Z in
        if ((r + 1) ^ Z.pos d <=? m)%Z then (r + 1)%Z else r
  end.

Definition iroot (d : positive) (m : Z) : Z :=
  iroot_aux (S (Z.to_nat (Z.log2 m))) d m.

(** Floor and ceiling of the [d]-th root of a rational [y >= 0]. *)
Definition floor_root (d : positive) (y : Q) : Z :=
  (iroot d (Qnum y * Z.pos (Qden y) ^ (Z.pos d - 1)) / Z.pos (Qden y))%Z.

Definition ceil_root (d : positive) (y : Q) : Z :=
  let m := (Qnum y * Z.pos (Qden y) ^ (Z.pos d - 1))%Z in
  let r := iroot d m in
  let r := if (r ^ Z.pos d =? m)%Z then r else (r + 1)%Z in
  ((r + Z.pos (Qden y) - 1) / Z.pos (Qden y))%Z.

(** [Math.floor(c * Math.pow(b, e))] for a base [b > 0]. *)
Definition floor_scaled_pow (c b e : Q) : Q :=
  let e := Qred e in
  match Qden e with
  | 1%positive => floor (c * Qpower b (Qnum e))
  | d =>
      let y := Qred (Qpower (Qabs c) (Z.pos d) * Qpower b (Qnum e)) in
      if Qle_bool 0 c then inject_Z (floor_root d y) else inject_Z (- ceil_root d y)
  end.

End Num.

(** ** Data model (GameState.js, constructor) *)

(** An entry of [state.upgrades].  Levels are numbers like any other: the
    game itself only ever stores whole levels, but a save may hold a
    fractional one. *)
Record Upgrade := mkUpgrade {
  level : Q;
  maxLevel : Q;
  baseCost : Q;
  unlocked : option bool;            (* only on cross-resource upgrades *)
  gates : list (string * Q)          (* requiresHeat, requiresPressure, ... *)
}.

Record PermanentBonuses := mkBonuses {
  resourceEfficiency : Q;
  upgradeCostReduction : Q
}.

(** [world.specialEffects.effects] of the tiered worlds. *)
Inductive AllEffect := AllRandom | AllFactor (q : Q).

Record Effects := mkEffects {
  eff_heat : option Q;
  eff_fuel : option Q;
  eff_pressure : option Q;
  eff_energy : option Q;
  eff_stability : option Q;
  eff_all : option AllEffect;
  eff_special : option string
}.

(** An entry of [WorldSystem.worldDefinitions]. *)
Record WorldDef := mkWorldDef {
  wd_id : Z;
  wd_name : string;
  wd_type : string;
  wd_description : string;
  wd_unlockRequirements : list (string * Q);   (* in [Object.entries] order *)
  wd_introducesResources : list string;
  wd_resourceGeneration : list (string * (Q * Q));   (* base, multiplier *)
  wd_temperature : Q;
  wd_atmosphere : Q;
  wd_gravity : Q;
  wd_timeSpeed : Q;
  wd_unlocked : bool
}.

(** [state.currentWorld]: the catalogue entry it was spread from (if any)
    and the flattened environmental properties the generation code reads. *)
Record World := mkWorld {
  w_id : Z;
  w_name : string;
  w_type : string;
  w_description : string;
  w_def : option WorldDef;
  gravity : Q;
  timeSpeed : Q;
  temperature : Q;
  atmosphere : Q;
  weather : option string;
  weatherDuration : option Z;
  specialEffects : option Effects
}.

Record ActiveEvent := mkActiveEvent {
  ev_name : string;
  ev_effect : string;
  ev_duration : Z;
  ev_originalDuration : Z;
  ev_value : option Q
}.

Record HistoryEntry := mkHistoryEntry {
  he_name : string;
  he_choice : string;
  he_timestamp : Q
}.

(** Achievement requirements: one constructor per [requirement.type] that
    [checkRequirement] knows, carrying the properties that case reads.
    A property the definitions table leaves out in some entries is an
    [option]. *)
Record Goal := mkGoal { goal_type : string; goal_amount : Q }.

Inductive Requirement :=
| ReqResource (resource : option string) (amount : option Q)
| ReqWorlds (amount : option Q)
| ReqUpgrade (count : option Q) (maxed : option (list string))
| ReqAchievements (amount : option Q)
| ReqPlaytime (amount : option Q)
| ReqClicks (amount : option Q)
| ReqResets (amount : option Q)
| ReqSynergy (all : bool) (count : option Q)
| ReqBalance (resources : option (list string)) (amount : option Q)
| ReqTotal (all : bool) (amount : option Q)
| ReqCompletion (achievements : option Q) (percentage : option Q)
| ReqSpeed (achievement : option Z) (time : option Q)
           (category : option string) (count : option Q)
| ReqConversion (from to : option string) (amount : option Q)
| ReqRatio (resources : option (list string)) (ratio : option (list Q))
| ReqMaintain (resources : option (list string)) (ratio : option (list Q))
              (duration : option Q)
| ReqStreak (category : option string) (count : option Q)
| ReqDiscovery (category : option string) (count : option Q)
| ReqChallenge (method : option string) (resource : option string)
               (amount : option Q)
| ReqSimultaneous (category : option string) (count : option Q)
| ReqCaps (category : option string) (count : option Q)
| ReqUsage (category : option string) (duration : option Q)
| ReqNavigation (category : option string) (count : option Q)
| ReqConstraint (category : option string) (max : option Q)
                (goal : option Goal)
| ReqTier (tier : option Z) (worldsCreated : option Q)
| ReqTierVariety (tiers : option (list Z)) (minEach : option Q)
| ReqOther (type : string) (code : option string).

Record Achievement := mkAchievement {
  a_name : string;
  a_description : string;
  a_reward : string;
  a_requirement : Requirement;
  a_hidden : bool
}.

(** The counters created by [initializeAchievementTracking]. *)
Record Tracking := mkTracking {
  playtime : Q;
  totalClicks : Z;
  totalResets : Z;
  synergyActivations : Z;
  gameStartTime : Q;
  conversions : gmap string Q;
  streaks : gmap string Q;
  recentActions : gmap string (list Q);
  maintenance : gmap string Q;          (* key |-> maintained duration *)
  discoveries : gmap string (list string);
  manualGeneration : gmap string Q;
  capHits : Q;
  featureUsage : gmap string Q;
  pageVisits : gmap string Q;
  tierWorldCounts : gmap string Q;
  secretCodes : option (list string)
}.

(** [GameState.state], restricted to the fields the embedded methods read
    or write ([machineParts], [machineComplexity], [worldHistory] and
    [settings] are only touched by rendering, history display and the
    save code, which is embedded separately in [Save]). *)
Record State := mkState {
  worldsCreated : Z;
  resources : gmap string Q;
  upgrades : gmap string Upgrade;
  currentWorld : option World;
  unlockedWorlds : list Z;
  worldProgress : Z;
  activeEvents : list ActiveEvent;
  eventHistory : list HistoryEntry;
  permanentBonuses : PermanentBonuses;
  ach_unlocked : list Z;                       (* achievements.unlocked *)
  ach_definitions : list (Z * Achievement);    (* achievements.definitions *)
  tracking : Tracking
}.

Definition with_worldsCreated (n : Z) (st : State) : State :=
  mkState n (resources st) (upgrades st) (currentWorld st) (unlockedWorlds st)
    (worldProgress st) (activeEvents st) (eventHistory st) (permanentBonuses st)
    (ach_unlocked st) (ach_definitions st) (tracking st).

Definition with_resources (r : gmap string Q) (st : State) : State :=
  mkState (worldsCreated st) r (upgrades st) (currentWorld st) (unlockedWorlds st)
    (worldProgress st) (activeEvents st) (eventHistory st) (permanentBonuses st)
    (ach_unlocked st) (ach_definitions st) (tracking st).

Definition with_upgrades (u : gmap string Upgrade) (st : State) : State :=
  mkState (worldsCreated st) (resources st) u (currentWorld st) (unlockedWorlds st)
    (worldProgress st) (activeEvents st) (eventHistory st) (permanentBonuses st)
    (ach_unlocked st) (ach_definitions st) (tracking st).

Definition with_currentWorld (w : option World) (st : State) : State :=
  mkState (worldsCreated st) (resources st) (upgrades st) w (unlockedWorlds st)
    (worldProgress st) (activeEvents st) (eventHistory st) (permanentBonuses st)
    (ach_unlocked st) (ach_definitions st) (tracking st).

Definition with_unlockedWorlds (l : list Z) (st : State) : State :=
  mkState (worldsCreated st) (resources st) (upgrades st) (currentWorld st) l
    (worldProgress st) (activeEvents st) (eventHistory st) (permanentBonuses st)
    (ach_unlocked st) (ach_definitions st) (tracking st).

Definition with_worldProgress (p : Z) (st : State) : State :=
  mkState (worldsCreated st) (resources st) (upgrades st) (currentWorld st)
    (unlockedWorlds st) p (activeEvents st) (eventHistory st) (permanentBonuses st)
    (ach_unlocked st) (ach_definitions st) (tracking st).

Definition with_activeEvents (l : list ActiveEvent) (st : State) : State :=
  mkState (worldsCreated st) (resources st) (upgrades st) (currentWorld st)
    (unlockedWorlds st) (worldProgress st) l (eventHistory st) (permanentBonuses st)
    (ach_unlocked st) (ach_definitions st) (tracking st).

Definition with_eventHistory (l : list HistoryEntry) (st : State) : State :=
  mkState (worldsCreated st) (resources st) (upgrades st) (currentWorld st)
    (unlockedWorlds st) (worldProgress st) (activeEvents st) l (permanentBonuses st)
    (ach_unlocked st) (ach_definitions st) (tracking st).

Definition with_permanentBonuses (b : PermanentBonuses) (st : State) : State :=
  mkState (worldsCreated st) (resources st) (upgrades st) (currentWorld st)
    (unlockedWorlds st) (worldProgress st) (activeEvents st) (eventHistory st) b
    (ach_unlocked st) (ach_definitions st) (tracking st).

Definition with_ach_unlocked (l : list Z) (st : State) : State :=
  mkState (worldsCreated st) (resources st) (upgrades st) (currentWorld st)
    (unlockedWorlds st) (worldProgress st) (activeEvents st) (eventHistory st)
    (permanentBonuses st) l (ach_definitions st) (tracking st).

Definition with_tracking (t : Tracking) (st : State) : State :=
  mkState (worldsCreated st) (resources st) (upgrades st) (currentWorld st)
    (unlockedWorlds st) (worldProgress st) (activeEvents st) (eventHistory st)
    (permanentBonuses st) (ach_unlocked st) (ach_definitions st) t.

(** ** The state built by the constructor *)

Section InitialState.
#[local] Open Scope Q_scope.

Definition defaultUpgrades : gmap string Upgrade :=
  list_to_map
    [ ("heatGenerator", mkUpgrade 0 10 10 None []);
      ("fuelEfficiency", mkUpgrade 0 10 15 None []);
      ("thermalAccelerator",
         mkUpgrade 0 5 25 (Some false) [("requiresHeat", 3); ("requiresPressure", 30)]);
      ("fuelSynchronizer",
         mkUpgrade 0 5 30 (Some false) [("requiresFuel", 5); ("requiresEnergy", 20)]);
      ("pressureValve",
         mkUpgrade 0 5 35 (Some false) [("requiresStability", 15); ("requiresPressure", 50)]);
      ("energyMatrix",
         mkUpgrade 0 5 40 (Some false) [("requiresHeat", 7); ("requiresFuel", 8)]) ].

Definition initialResources : gmap string Q :=
  list_to_map
    [ ("heat", 0); ("fuel", 0); ("pressure", 0); ("energy", 0); ("stability", 0);
      ("water", 0); ("oxygen", 0); ("stone", 0); ("magma", 0); ("ice", 0);
      ("crystal", 0); ("voidEnergy", 0) ].

(** [achievements.definitions], in [Object.entries] order (ascending ids).
    Entry 28 repeats the key [type] in its requirement literal; the later
    value, ["pressure_to_heat"], is the one the object holds. *)
Definition achievementDefinitions : list (Z * Achievement) := [
  (1%Z, mkAchievement "First Steps" "Generate your first Heat"
     "+5% Heat generation"
     (ReqResource (Some "heat") (Some 1)) false);
  (2%Z, mkAchievement "Fuel Finder" "Generate your first Fuel"
     "+5% Fuel generation"
     (ReqResource (Some "fuel") (Some 1)) false);
  (3%Z, mkAchievement "First Upgrade" "Purchase your first upgrade"
     "+2% upgrade efficiency"
     (ReqUpgrade (Some 1) None) false);
  (4%Z, mkAchievement "Heat Wave" "Reach 100 Heat"
     "+10% Heat generation"
     (ReqResource (Some "heat") (Some 100)) false);
  (5%Z, mkAchievement "Fuel Tank" "Reach 100 Fuel"
     "+8% Fuel generation"
     (ReqResource (Some "fuel") (Some 100)) false);
  (6%Z, mkAchievement "World Builder" "Create your first world"
     "Unlock world bonuses"
     (ReqWorlds (Some 1)) false);
  (7%Z, mkAchievement "Pressure Rising" "Reach 50 Pressure"
     "+15% Pressure generation"
     (ReqResource (Some "pressure") (Some 50)) false);
  (8%Z, mkAchievement "Energy Seeker" "Reach 25 Energy"
     "+12% Energy generation"
     (ReqResource (Some "energy") (Some 25)) false);
  (9%Z, mkAchievement "Stability Master" "Reach 20 Stability"
     "+10% Stability generation"
     (ReqResource (Some "stability") (Some 20)) false);
  (10%Z, mkAchievement "Heat Master" "Reach 1000 Heat"
     "+20% Heat generation"
     (ReqResource (Some "heat") (Some 1000)) false);
  (11%Z, mkAchievement "Fuel Depot" "Reach 500 Fuel"
     "+15% Fuel generation"
     (ReqResource (Some "fuel") (Some 500)) false);
  (12%Z, mkAchievement "Upgrader" "Purchase 5 upgrades"
     "+5% upgrade efficiency"
     (ReqUpgrade (Some 5) None) false);
  (13%Z, mkAchievement "World Collector" "Create 5 worlds"
     "Unlock Tier 2 worlds"
     (ReqWorlds (Some 5)) false);
  (14%Z, mkAchievement "Pressure Cooker" "Reach maximum Pressure (100)"
     "+25% Pressure conversion"
     (ReqResource (Some "pressure") (Some 100)) false);
  (15%Z, mkAchievement "Energy Core" "Reach 100 Energy"
     "+20% Energy generation"
     (ReqResource (Some "energy") (Some 100)) false);
  (16%Z, mkAchievement "Synergy User" "Activate Heat+Pressure synergy"
     "+10% synergy bonus"
     (ReqSynergy false (Some 1)) false);
  (17%Z, mkAchievement "Dimension Hopper" "Create 25 worlds"
     "Unlock World Generator"
     (ReqWorlds (Some 25)) false);
  (18%Z, mkAchievement "Mega Heat" "Reach 10,000 Heat"
     "+30% Heat generation"
     (ReqResource (Some "heat") (Some 10000)) false);
  (19%Z, mkAchievement "Fuel Empire" "Reach 5,000 Fuel"
     "+25% Fuel generation"
     (ReqResource (Some "fuel") (Some 5000)) false);
  (20%Z, mkAchievement "Upgrade Master" "Purchase 10 upgrades"
     "+10% upgrade efficiency"
     (ReqUpgrade (Some 10) None) false);
  (21%Z, mkAchievement "World Factory" "Create 25 worlds"
     "Unlock Tier 3 worlds"
     (ReqWorlds (Some 25)) false);
  (22%Z, mkAchievement "Stability Fortress" "Reach 100 Stability"
     "+30% Stability generation"
     (ReqResource (Some "stability") (Some 100)) false);
  (23%Z, mkAchievement "Synergy Master" "Activate synergies 100 times"
     "+25% synergy effectiveness"
     (ReqSynergy false (Some 100)) false);
  (24%Z, mkAchievement "Heat Titan" "Reach 100,000 Heat"
     "+50% Heat generation"
     (ReqResource (Some "heat") (Some 100000)) false);
  (25%Z, mkAchievement "Fuel Ocean" "Reach 50,000 Fuel"
     "+40% Fuel generation"
     (ReqResource (Some "fuel") (Some 50000)) false);
  (26%Z, mkAchievement "Upgrade Legend" "Max out all basic upgrades"
     "Unlock legendary upgrades"
     (ReqUpgrade None (Some ["heatGenerator"; "fuelEfficiency"])) false);
  (27%Z, mkAchievement "Universe Builder" "Create 75 worlds"
     "Unlock universe mode"
     (ReqWorlds (Some 75)) false);
  (28%Z, mkAchievement "Pressure God" "Convert 1000 Pressure to Heat"
     "+50% Pressure conversion"
     (ReqOther "pressure_to_heat" None) false);
  (29%Z, mkAchievement "Energy Nexus" "Reach 1000 Energy"
     "+40% Energy generation"
     (ReqResource (Some "energy") (Some 1000)) false);
  (30%Z, mkAchievement "Perfect Balance" "Have all resources above 1000"
     "+25% all generation"
     (ReqBalance (Some ["heat"; "fuel"; "pressure"; "energy"; "stability"]) (Some 1000)) false);
  (31%Z, mkAchievement "Speed Runner" "Unlock World Generator in under 1 hour"
     "+100% early game speed"
     (ReqSpeed (Some 17%Z) (Some 3600) None None) false);
  (32%Z, mkAchievement "Efficiency Expert" "Reach 500% upgrade efficiency"
     "+50% efficiency cap"
     (ReqOther "stat" None) false);
  (33%Z, mkAchievement "World Architect" "Create worlds with all biome types"
     "Unlock custom worlds"
     (ReqOther "variety" None) false);
  (34%Z, mkAchievement "Resource Hoarder" "Have 1M total resources"
     "+20% resource storage"
     (ReqTotal true (Some 1000000)) false);
  (35%Z, mkAchievement "Upgrade Collector" "Own all possible upgrades"
     "+30% upgrade effectiveness"
     (ReqOther "collection" None) false);
  (36%Z, mkAchievement "Hidden Power" "???"
     "???"
     (ReqOther "secret" (Some "MACHINE_POWER")) true);
  (37%Z, mkAchievement "Time Master" "Play for 24 hours total"
     "+50% offline progress"
     (ReqPlaytime (Some 86400)) false);
  (38%Z, mkAchievement "Click Master" "Generate resources 1000 times"
     "+25% manual generation"
     (ReqClicks (Some 1000)) false);
  (39%Z, mkAchievement "Reset Veteran" "Reset your game 3 times"
     "+100% reset bonuses"
     (ReqResets (Some 3)) false);
  (40%Z, mkAchievement "Achievement Hunter" "Unlock 25 achievements"
     "+50% achievement bonuses"
     (ReqAchievements (Some 25)) false);
  (41%Z, mkAchievement "Mega Worlds" "Create 150 worlds"
     "Unlock mega worlds"
     (ReqWorlds (Some 150)) false);
  (42%Z, mkAchievement "Heat Infinity" "Reach 1M Heat"
     "+100% Heat generation"
     (ReqResource (Some "heat") (Some 1000000)) false);
  (43%Z, mkAchievement "Fuel Cosmos" "Reach 1M Fuel"
     "+100% Fuel generation"
     (ReqResource (Some "fuel") (Some 1000000)) false);
  (44%Z, mkAchievement "Ultimate Builder" "Create 250 worlds"
     "Unlock ultimate mode"
     (ReqWorlds (Some 250)) false);
  (45%Z, mkAchievement "Perfect Synergy" "Have all synergies active"
     "+100% synergy power"
     (ReqSynergy true None) false);
  (46%Z, mkAchievement "Resource God" "Have all resources above 100K"
     "+75% all generation"
     (ReqBalance (Some ["heat"; "fuel"; "pressure"; "energy"; "stability"]) (Some 100000)) false);
  (47%Z, mkAchievement "Legendary Status" "Reach maximum level in everything"
     "Unlock prestige mode"
     (ReqCompletion None (Some 100)) false);
  (48%Z, mkAchievement "Secret Keeper" "???"
     "???"
     (ReqOther "secret" (Some "WORLD_MACHINE")) true);
  (49%Z, mkAchievement "Time Lord" "Play for 7 days total"
     "+200% time bonuses"
     (ReqPlaytime (Some 604800)) false);
  (50%Z, mkAchievement "Master of Worlds" "Complete all other achievements"
     "Master title + 1000% all bonuses"
     (ReqCompletion (Some 69) None) false);
  (51%Z, mkAchievement "Conversion Expert" "Convert 500 Pressure to Heat"
     "Unlock auto-conversion"
     (ReqConversion (Some "pressure") (Some "heat") (Some 500)) false);
  (52%Z, mkAchievement "Energy Converter" "Convert 200 Energy to Fuel"
     "+50% conversion efficiency"
     (ReqConversion (Some "energy") (Some "fuel") (Some 200)) false);
  (53%Z, mkAchievement "Efficiency Master" "Reach 3:1 Heat to Fuel ratio"
     "Unlock ratio bonuses"
     (ReqRatio (Some ["heat"; "fuel"]) (Some [3; 1])) false);
  (54%Z, mkAchievement "Resource Optimizer" "Maintain 2:1:1 Heat:Fuel:Pressure for 5 minutes"
     "+25% balanced generation"
     (ReqMaintain (Some ["heat"; "fuel"; "pressure"]) (Some [2; 1; 1]) (Some 300)) false);
  (55%Z, mkAchievement "Daily Dedication" "Play for 7 consecutive days"
     "Unlock daily bonuses"
     (ReqStreak (Some "daily") (Some 7)) false);
  (56%Z, mkAchievement "Resource Streak" "Generate resources for 100 consecutive game updates"
     "+30% continuous generation"
     (ReqStreak (Some "generation") (Some 100)) false);
  (57%Z, mkAchievement "Upgrade Spree" "Purchase 5 upgrades within 60 seconds"
     "Unlock bulk purchasing"
     (ReqSpeed None (Some 60) (Some "upgrades") (Some 5)) false);
  (58%Z, mkAchievement "Explorer" "Discover all resource generation methods"
     "Resource generation overview"
     (ReqDiscovery (Some "generation") (Some 5)) false);
  (59%Z, mkAchievement "Strategist" "Reach 1000 Heat using only manual generation"
     "Manual generation x2"
     (ReqChallenge (Some "manual") (Some "heat") (Some 1000)) false);
  (60%Z, mkAchievement "Multi-tasker" "Have 5+ resources generating simultaneously"
     "+20% parallel efficiency"
     (ReqSimultaneous (Some "generation") (Some 5)) false);
  (61%Z, mkAchievement "Storage Expert" "Reach resource caps 10 times"
     "+50% all resource caps"
     (ReqCaps (Some "reached") (Some 10)) false);
  (62%Z, mkAchievement "Automation Lover" "Use auto-features for 1 hour total"
     "Unlock advanced automation"
     (ReqUsage (Some "automation") (Some 3600)) false);
  (63%Z, mkAchievement "Interface Master" "Visit all game pages 20+ times each"
     "Unlock quick navigation"
     (ReqNavigation (Some "all_pages") (Some 20)) false);
  (64%Z, mkAchievement "Minimalist" "Create 10 worlds with only 2 upgrade types"
     "Upgrade efficiency +100%"
     (ReqConstraint (Some "upgrades") (Some 2) (Some (mkGoal "worlds" 10))) false);
  (65%Z, mkAchievement "Speed Builder" "Create 5 worlds in under 10 minutes"
     "World creation speed +200%"
     (ReqSpeed None (Some 600) (Some "worlds") (Some 5)) false);
  (66%Z, mkAchievement "Enhanced Explorer" "Create your first Enhanced World (Tier 2)"
     "+15% Tier 2 world bonuses"
     (ReqTier (Some 2%Z) (Some 1)) false);
  (67%Z, mkAchievement "Enhanced Master" "Create 10 Enhanced Worlds"
     "+25% Tier 2 world generation"
     (ReqTier (Some 2%Z) (Some 10)) false);
  (68%Z, mkAchievement "Exotic Pioneer" "Create your first Exotic World (Tier 3)"
     "+20% Tier 3 world bonuses"
     (ReqTier (Some 3%Z) (Some 1)) false);
  (69%Z, mkAchievement "Reality Bender" "Create 5 Exotic Worlds"
     "Unlock reality manipulation"
     (ReqTier (Some 3%Z) (Some 5)) false);
  (70%Z, mkAchievement "Tier Master" "Create worlds from all tiers"
     "+50% cross-tier synergy"
     (ReqTierVariety (Some [1%Z; 2%Z; 3%Z]) (Some 3)) false)
].

(** [initializeAchievementTracking] on a state that has none of the
    counters yet; [t0] is the reading of [Date.now()]. *)
Definition initialTracking (t0 : Q) : Tracking :=
  {| playtime := 0; totalClicks := 0; totalResets := 0; synergyActivations := 0;
     gameStartTime := t0; conversions := ∅; streaks := ∅; recentActions := ∅;
     maintenance := ∅; discoveries := {[ "generation" := [] ]};
     manualGeneration := ∅; capHits := 0; featureUsage := ∅; pageVisits := ∅;
     tierWorldCounts := list_to_map [("tier1", 0); ("tier2", 0); ("tier3", 0)];
     secretCodes := None |}.

(** [new GameState().state] followed by [initializeAchievementTracking]. *)
Definition initialState (t0 : Q) : State :=
  {| worldsCreated := 0;
     resources := initialResources;
     upgrades := defaultUpgrades;
     currentWorld := None;
     unlockedWorlds := [0%Z];
     worldProgress := 0;
     activeEvents := [];
     eventHistory := [];
     permanentBonuses := mkBonuses 1 1;
     ach_unlocked := [];
     ach_definitions := achievementDefinitions;
     tracking := initialTracking t0 |}.

End InitialState.

(** [Array.prototype.includes] on a list of ids. *)
Definition includes (x : Z) (l : list Z) : bool := existsb (Z.eqb x) l.

(** ** WorldSystem.js *)

Module WorldSystem.
#[local] Open Scope Q_scope.

Definition worldDefinitions : list WorldDef :=
  [ mkWorldDef 0 "Desert Planet" "Desert"
      "A harsh, arid world with extreme heat. The starting point of your journey."
      [] ["heat"; "fuel"]
      [("heat", (12, 1.5)); ("fuel", (8, 1.0))]
      45 20 1.0 1.0 true;
    mkWorldDef 1 "Ocean Planet" "Ocean"
      "A water world with vast seas and humidity. Introduces water extraction."
      [("heat", 50); ("fuel", 25)] ["water"]
      [("water", (10, 1.8)); ("fuel", (12, 1.2)); ("heat", (6, 0.8))]
      15 80 0.9 1.1 false;
    mkWorldDef 2 "Forest Planet" "Forest"
      "A lush world covered in vegetation. Rich in oxygen and life energy."
      [("heat", 25); ("fuel", 25); ("water", 30)] ["oxygen"]
      [("oxygen", (8, 2.0)); ("heat", (10, 1.3)); ("water", (8, 1.4)); ("fuel", (6, 0.9))]
      22 95 1.1 0.9 false;
    mkWorldDef 3 "Mountain Planet" "Mountain"
      "A rocky world with towering peaks. Rich in mineral deposits and stone."
      [("heat", 25); ("fuel", 25); ("water", 25); ("oxygen", 20)] ["stone"]
      [("stone", (6, 2.2)); ("heat", (8, 1.4)); ("fuel", (5, 1.1)); ("oxygen", (4, 0.7))]
      5 45 1.3 0.8 false;
    mkWorldDef 4 "Volcanic Planet" "Volcanic"
      "A world of fire and molten rock. Extreme heat and magma flows."
      [("heat", 50); ("fuel", 25); ("water", 25); ("oxygen", 20); ("stone", 30)] ["magma"]
      [("magma", (5, 2.5)); ("heat", (18, 2.0)); ("stone", (8, 1.3)); ("water", (2, 0.3))]
      85 25 1.2 1.3 false;
    mkWorldDef 5 "Ice Planet" "Ice"
      "A frozen world of eternal winter. Ice formations and crystalline structures."
      [("heat", 25); ("fuel", 25); ("water", 40); ("oxygen", 20); ("stone", 25);
       ("magma", 20)] ["ice"]
      [("ice", (7, 2.3)); ("water", (12, 1.8)); ("oxygen", (6, 1.2)); ("heat", (3, 0.4));
       ("magma", (1, 0.2))]
      (-35) 55 0.8 0.7 false;
    mkWorldDef 6 "Crystal Planet" "Crystal"
      "A world of living crystal formations. Resonant energy and geometric perfection."
      [("heat", 30); ("fuel", 30); ("water", 30); ("oxygen", 25); ("stone", 30);
       ("magma", 20); ("ice", 25)] ["crystal"]
      [("crystal", (4, 3.0)); ("stone", (10, 1.6)); ("ice", (8, 1.4)); ("oxygen", (6, 1.1))]
      18 40 1.4 1.1 false;
    mkWorldDef 7 "Void Planet" "Void"
      "A mysterious world at the edge of reality. Source of pure void energy."
      [("heat", 40); ("fuel", 40); ("water", 35); ("oxygen", 30); ("stone", 35);
       ("magma", 25); ("ice", 30); ("crystal", 20)] ["voidEnergy"]
      [("voidEnergy", (2, 4.0)); ("crystal", (6, 1.3)); ("heat", (4, 1.2));
       ("fuel", (4, 1.2)); ("water", (4, 1.2)); ("oxygen", (4, 1.2)); ("stone", (4, 1.2));
       ("magma", (4, 1.2)); ("ice", (4, 1.2))]
      0 0 0.5 2.0 false ].

(** [this.worldDefinitions[worldId]]; [getWorldById] turns [undefined]
    into [null], both are [None] here. *)
Definition getWorldById (worldId : Z) : option WorldDef :=
  if (worldId <? 0)%Z then None else worldDefinitions !! Z.to_nat worldId.

(** One iteration of the requirement loop.  Reading a resource the state
    does not hold gives [undefined], and [undefined < required] is false,
    so such a requirement does not block the unlock. *)
Definition requirement_met (res : gmap string Q) (r : string * Q) : bool :=
  match res !! r.1 with
  | Some have => negb (Num.ltb have r.2)
  | None => true
  end.

Definition canUnlockWorld (st : State) (worldId : Z) : bool :=
  match getWorldById worldId with
  | None => false
  | Some world => forallb (requirement_met (resources st)) (wd_unlockRequirements world)
  end.

(** The scan of [checkWorldUnlocks] over the remaining catalogue entries:
    the first locked world whose requirements are met is pushed onto
    [unlockedWorlds] and its id returned. *)
Fixpoint checkWorldUnlocks_from (defs : list WorldDef) (st : State) : option Z * State :=
  match defs with
  | [] => (None, st)
  | world :: rest =>
      if includes (wd_id world) (unlockedWorlds st) then checkWorldUnlocks_from rest st
      else if canUnlockWorld st (wd_id world) then
        (Some (wd_id world),
         with_unlockedWorlds (unlockedWorlds st ++ [wd_id world]) st)
      else checkWorldUnlocks_from rest st
  end.

Definition checkWorldUnlocks (st : State) : option Z * State :=
  checkWorldUnlocks_from worldDefinitions st.

(** [state.resources[resource] -= amount].  On a resource the state does
    not hold JavaScript stores [NaN], which has no counterpart among the
    rationals: the model stops there ([None]). *)
Definition deduct (res : gmap string Q) (c : string * Q) : option (gmap string Q) :=
  match res !! c.1 with
  | Some have => Some (<[c.1 := have - c.2]> res)
  | None => None
  end.

Definition deduct_all (cost : list (string * Q)) (res : gmap string Q)
  : option (gmap string Q) :=
  foldl (λ acc c, acc ≫= λ r, deduct r c) (Some res) cost.

(** The object literal assigned to [state.currentWorld]: the catalogue
    entry, its id, and [world.properties] flattened to the top level. *)
Definition asCurrentWorld (world : WorldDef) (worldId : Z) : World :=
  {| w_id := worldId; w_name := wd_name world; w_type := wd_type world;
     w_description := wd_description world; w_def := Some world;
     gravity := wd_gravity world; timeSpeed := wd_timeSpeed world;
     temperature := wd_temperature world; atmosphere := wd_atmosphere world;
     weather := None; weatherDuration := None; specialEffects := None |}.

Definition selectWorld (worldId : Z) (st : State) : option (bool * State) :=
  match getWorldById worldId with
  | None => Some (false, st)
  | Some world =>
      if negb (includes worldId (unlockedWorlds st)) then Some (false, st)
      else
        st1 ← (if (worldProgress st <? worldId)%Z then
                 res ← deduct_all (wd_unlockRequirements world) (resources st);
                 Some (with_worldsCreated (worldsCreated st + 1)
                         (with_worldProgress worldId (with_resources res st)))
               else Some st);
        Some (true, with_currentWorld (Some (asCurrentWorld world worldId)) st1)
  end.

(** [getAvailableWorlds()] *)
Definition getAvailableWorlds (st : State) : list WorldDef :=
  filter (λ world, includes (wd_id world) (unlockedWorlds st) = true) worldDefinitions.

(** An entry of the object returned by [getUnlockProgress]. *)
Record Progress := mkProgress {
  pr_current : Q;
  pr_required : Q;
  pr_percentage : Q
}.

(** [getUnlockProgress(worldId)], in [Object.entries] order.  Every
    requirement of the catalogue is positive, so the division is by a
    non-zero number. *)
Definition getUnlockProgress (st : State) (worldId : Z) : list (string * Progress) :=
  match getWorldById worldId with
  | None => []
  | Some world =>
      map (λ r : string * Q,
             let current := Num.or_else (resources st !! r.1) 0 in
             let done := Num.floor (current / r.2 * 100) in
             (r.1, mkProgress current r.2 (if Num.ltb done 100 then done else 100)))
        (wd_unlockRequirements world)
  end.

(** The object returned by [getNextUnlockableWorld]. *)
Record NextWorld := mkNextWorld {
  nw_world : WorldDef;
  nw_canUnlock : bool;
  nw_requirements : list (string * Q);
  nw_progress : list (string * Progress)
}.

(** [getNextUnlockableWorld()]: the first catalogue entry that is not
    unlocked, whether or not its requirements are met. *)
Definition getNextUnlockableWorld (st : State) : option NextWorld :=
  match List.find (λ world, negb (includes (wd_id world) (unlockedWorlds st)))
          worldDefinitions with
  | Some world =>
      Some (mkNextWorld world (canUnlockWorld st (wd_id world))
              (wd_unlockRequirements world) (getUnlockProgress st (wd_id world)))
  | None => None
  end.

End WorldSystem.

(** [Game.initializeStartingWorld] on a state without a current world. *)
Definition startingWorld : World :=
  {| w_id := 0; w_name := "Desert Planet"; w_type := "Desert";
     w_description :=
       "A harsh, arid world with extreme heat. The starting point of your journey.";
     w_def := WorldSystem.getWorldById 0;
     gravity := 1.0; timeSpeed := 1.0; temperature := 45; atmosphere := 20;
     weather := Some "Calm"; weatherDuration := Some 10%Z; specialEffects := None |}.

(** The state a session starts from: constructor, no save to load,
    [initializeStartingWorld], [initializeAchievementTracking]. *)
Definition readyState (t0 : Q) : State :=
  with_currentWorld (Some startingWorld) (initialState t0).

(** ** Outcomes of methods that can stop early *)

(** Why a call did not run to its end.  [TypeError] is the JavaScript
    exception raised by reading a property of [undefined] or calling a
    non-function.  [NotANumber] marks the places where the code would store
    [NaN] (arithmetic on a missing resource); [NaN] is not a rational, so the
    model stops there instead. *)
Inductive Abort :=
| TypeError (what : string)
| NotANumber (what : string).

Inductive Outcome (A : Type) :=
| Returns (a : A) (st : State)
| Aborts (why : Abort) (st : State).
Arguments Returns {A} a st.
Arguments Aborts {A} why st.

Definition outcome_state {A} (o : Outcome A) : State :=
  match o with Returns _ st => st | Aborts _ st => st end.

(** ** GameState.js: the resource ledger *)

Module GameState.
#[local] Open Scope Q_scope.

Definition noResourceLimits (st : State) : bool :=
  match currentWorld st with
  | Some world =>
      match specialEffects world with
      | Some effects => bool_decide (eff_special effects = Some "noResourceLimits")
      | None => false
      end
  | None => false
  end.

(** The [caps] object, in [Object.entries] order; [None] is [Infinity]. *)
Definition caps (st : State) : list (string * option Q) :=
  let doubled := noResourceLimits st in
  [ ("heat", None); ("fuel", None);
    ("pressure", Some (if doubled then 200 else 100));
    ("energy", Some (if doubled then 400 else 200));
    ("stability", Some (if doubled then 100 else 50)) ].

(** One iteration of the loop over [caps]; the flag is [capsApplied]. *)
Definition enforce_cap (acc : gmap string Q * bool) (c : string * option Q)
  : gmap string Q * bool :=
  let res := acc.1 in
  let acc1 :=
    match c.2, res !! c.1 with
    | Some cap, Some have =>
        if Num.gtb have cap then (<[c.1 := cap]> res, true) else acc
    | _, _ => acc
    end in
  match acc1.1 !! c.1 with
  | Some have => if Num.ltb have 0 then (<[c.1 := 0]> acc1.1, true) else acc1
  | None => acc1
  end.

Definition enforceResourceCaps (st : State) : bool * State :=
  let r := foldl enforce_cap (resources st, false) (caps st) in
  (r.2, with_resources r.1 st).

(** One iteration of the loop over [Object.entries(resourceDeltas)].  The
    test is [this.state.resources.hasOwnProperty(resource)]: once the state
    holds a resource named [hasOwnProperty], that entry (a number) shadows
    the method of [Object.prototype] and the call throws a TypeError
    ([None]).  The assignment to a missing key [__proto__] reaches the
    setter of [Object.prototype], which ignores a number: no entry is
    created. *)
Definition add_delta (res : gmap string Q) (d : string * Q) : option (gmap string Q) :=
  match res !! "hasOwnProperty" with
  | Some _ => None
  | None =>
      match res !! d.1 with
      | Some have => Some (<[d.1 := have + d.2]> res)
      | None =>
          if String.eqb d.1 "__proto__" then Some res else Some (<[d.1 := d.2]> res)
      end
  end.

(** The loop: the resources as it leaves them, and whether it ran to its
    end. *)
Fixpoint add_deltas (res : gmap string Q) (deltas : list (string * Q))
  : gmap string Q * bool :=
  match deltas with
  | [] => (res, true)
  | d :: rest =>
      match add_delta res d with
      | Some res' => add_deltas res' rest
      | None => (res, false)
      end
  end.

(** [addResources(resourceDeltas, shouldSave)] with [window.game] in place.
    The optional [saveGame()] at the end only serialises the state into
    [localStorage]; it does not change the state and is left out here.  A
    TypeError in the loop leaves the amounts credited so far, unclamped. *)
Definition addResources (deltas : list (string * Q)) (st : State) : Outcome unit :=
  let r := add_deltas (resources st) deltas in
  let st1 := with_resources r.1 st in
  if r.2 then
    let st2 := (enforceResourceCaps st1).2 in
    Returns tt (WorldSystem.checkWorldUnlocks st2).2
  else
    Aborts (TypeError "this.state.resources.hasOwnProperty is not a function") st1.

End GameState.

(** ** UpgradeSystem.js *)

Module UpgradeSystem.
#[local] Open Scope Q_scope.

Definition set_level (l : Q) (u : Upgrade) : Upgrade :=
  mkUpgrade l (maxLevel u) (baseCost u) (unlocked u) (gates u).

Definition isCheapUpgrade (ev : ActiveEvent) : bool :=
  String.eqb (ev_effect ev) "cheapUpgrade" || String.eqb (ev_effect ev) "cheapUpgrades".

Definition getUpgradeCost (st : State) (upgradeType : string) : Q :=
  match upgrades st !! upgradeType with
  | None => 0
  | Some upgrade =>
      let cost := Num.floor_scaled_pow (baseCost upgrade) 1.5 (level upgrade) in
      let cost := cost * upgradeCostReduction (permanentBonuses st) in
      let cost :=
        foldl (λ c ev, if isCheapUpgrade ev then c * 0.5 else c) cost (activeEvents st) in
      Num.floor cost
  end.

Definition upgradeResource (upgradeType resourceType : string) (st : State)
  : bool * State :=
  match upgrades st !! upgradeType with
  | None => (false, st)
  | Some upgrade =>
      let cost := getUpgradeCost st upgradeType in
      match resources st !! resourceType with
      | Some have =>
          if Num.geb have cost && Num.ltb (level upgrade) (maxLevel upgrade) then
            (true,
             with_upgrades
               (<[upgradeType := set_level (level upgrade + 1) upgrade]> (upgrades st))
               (with_resources (<[resourceType := have - cost]> (resources st)) st))
          else (false, st)
      | None => (false, st)      (* undefined >= cost is false *)
      end
  end.

(** [upgrade.requiresHeat] and the like: a gate of a cross-resource
    upgrade, [undefined] when the entry has no such property. *)
Definition requires (u : Upgrade) (gate : string) : option Q :=
  snd <$> List.find (λ g : string * Q, String.eqb g.1 gate) (gates u).

(** [!upgrade.unlocked]: a missing flag counts as not unlocked. *)
Definition isLocked (u : Upgrade) : bool := negb (default false (unlocked u)).

Definition set_unlocked (u : Upgrade) : Upgrade :=
  mkUpgrade (level u) (maxLevel u) (baseCost u) (Some true) (gates u).

(** [upgrades.<name> && upgrades.<name>.level >= need] *)
Definition levelReaches (ups : gmap string Upgrade) (name : string) (need : option Q)
  : bool :=
  match ups !! name with
  | Some u => Num.geb_opt (level u) need
  | None => false
  end.

(** [state.resources.<name> >= need] *)
Definition amountReaches (res : gmap string Q) (name : string) (need : option Q) : bool :=
  match res !! name with
  | Some have => Num.geb_opt have need
  | None => false
  end.

(** One [if] block of [checkUpgradeUnlocksFixed]: the upgrade [name], when
    present and not unlocked yet, is unlocked if its condition holds. *)
Definition unlockIf (name : string) (cond : Upgrade → gmap string Upgrade → bool)
    (ups : gmap string Upgrade) : gmap string Upgrade :=
  match ups !! name with
  | Some u => if isLocked u && cond u ups then <[name := set_unlocked u]> ups else ups
  | None => ups
  end.

(** [checkUpgradeUnlocksFixed()] (and [checkUpgradeUnlocks], which calls it). *)
Definition checkUpgradeUnlocksFixed (st : State) : State :=
  let res := resources st in
  let ups := upgrades st in
  let ups :=
    unlockIf "thermalAccelerator"
      (λ u ups, levelReaches ups "heatGenerator" (requires u "requiresHeat")
                && amountReaches res "pressure" (requires u "requiresPressure")) ups in
  let ups :=
    unlockIf "fuelSynchronizer"
      (λ u ups, levelReaches ups "fuelEfficiency" (requires u "requiresFuel")
                && amountReaches res "energy" (requires u "requiresEnergy")) ups in
  let ups :=
    unlockIf "pressureValve"
      (λ u ups, amountReaches res "stability" (requires u "requiresStability")
                && amountReaches res "pressure" (requires u "requiresPressure")) ups in
  let ups :=
    unlockIf "energyMatrix"
      (λ u ups, levelReaches ups "heatGenerator" (requires u "requiresHeat")
                && levelReaches ups "fuelEfficiency" (requires u "requiresFuel")) ups in
  with_upgrades ups st.

Definition checkUpgradeUnlocks (st : State) : State := checkUpgradeUnlocksFixed st.

End UpgradeSystem.

(** ** ResourceSystem.js *)

Module ResourceSystem.
#[local] Open Scope Q_scope.

(** [getWorldBonuses]: the pair (heatMultiplier, fuelMultiplier). *)
Definition getWorldBonuses (st : State) : Q * Q :=
  if (worldsCreated st =? 0)%Z then (1, 1)
  else
    let worldBonus := 1 + inject_Z (worldsCreated st) * 0.15 in
    let heatMultiplier :=
      match upgrades st !! "heatGenerator" with
      | Some u => worldBonus + level u * 0.08
      | None => worldBonus
      end in
    let fuelMultiplier :=
      match upgrades st !! "fuelEfficiency" with
      | Some u => worldBonus + level u * 0.08
      | None => worldBonus
      end in
    (heatMultiplier, fuelMultiplier).

(** [applyEventMultipliers(resourceType, baseAmount)] *)
Definition eventMultiplier (resourceType : string) (m : Q) (ev : ActiveEvent) : Q :=
  if String.eqb (ev_effect ev) "heatBoost" then
    (if String.eqb resourceType "heat" then m * 1.25 else m)
  else if String.eqb (ev_effect ev) "fuelBoost" then
    (if String.eqb resourceType "fuel" then m * 1.25 else m)
  else if String.eqb (ev_effect ev) "allResourceBoost" then m * 1.15
  else if String.eqb (ev_effect ev) "overclock" then m * 2.0
  else m.

Definition applyEventMultipliers (resourceType : string) (baseAmount : Q) (st : State) : Q :=
  baseAmount * foldl (eventMultiplier resourceType) 1 (activeEvents st).

Definition weather_is (world : World) (w : string) : bool :=
  match weather world with Some w' => String.eqb w' w | None => false end.

(** The [switch (type)] of [generateResource]; [None] when the upgrade
    entry the case reads is missing (a TypeError in JavaScript). *)
Definition manualGain (type : string) (world : World) (st : State) : option Q :=
  let baseGain := 8 in
  if String.eqb type "heat" then
    u ← upgrades st !! "heatGenerator";
    let gain := baseGain * gravity world in
    let gain := gain * (1 + level u * 0.2) in
    let gain := if Num.gtb (temperature world) 75 then gain * 1.25 else gain in
    let gain := if weather_is world "Stormy" then gain * 1.5 else gain in
    Some gain
  else if String.eqb type "fuel" then
    u ← upgrades st !! "fuelEfficiency";
    let gain := baseGain * timeSpeed world in
    let gain := gain * (1 + level u * 0.2) in
    let gain := if Num.ltb (temperature world) 0 then gain * 1.2 else gain in
    let gain :=
      if weather_is world "Stormy" then gain * 1.5
      else if weather_is world "Serene" then gain * 1.3 else gain in
    Some gain
  else Some 0.

(** [trackManualGeneration], [trackDiscovery] and [incrementClick]. *)
Definition trackManual (type : string) (amount : Q) (t : Tracking) : Tracking :=
  let method := "manual_" +:+ type in
  let found := default [] (discoveries t !! "generation") in
  {| playtime := playtime t; totalClicks := totalClicks t + 1;
     totalResets := totalResets t; synergyActivations := synergyActivations t;
     gameStartTime := gameStartTime t; conversions := conversions t;
     streaks := streaks t; recentActions := recentActions t;
     maintenance := maintenance t;
     discoveries :=
       <["generation" :=
           if existsb (String.eqb method) found then found
           else (found ++ [method])%list]>
         (discoveries t);
     manualGeneration :=
       <[type := Num.or_else (manualGeneration t !! type) 0 + amount]>
         (manualGeneration t);
     capHits := capHits t; featureUsage := featureUsage t;
     pageVisits := pageVisits t; tierWorldCounts := tierWorldCounts t;
     secretCodes := secretCodes t |}.

(** [generateResource(type)]: one manual click.  Returns the amount gained
    and the new state; [None] when the call ends in a TypeError, which
    either place raises before anything has been written (a missing upgrade
    entry in the switch, or the ledger's [hasOwnProperty] test on the one
    delta). *)
Definition generateResource (type : string) (st : State) : option (Q * State) :=
  match currentWorld st with
  | None => Some (0, st)
  | Some world =>
      gain ← manualGain type world st;
      let gain := applyEventMultipliers type gain st in
      let gainAmount := Num.floor gain in
      match GameState.addResources [(type, gainAmount)] st with
      | Returns _ st1 =>
          Some (gainAmount, with_tracking (trackManual type gainAmount (tracking st1)) st1)
      | Aborts _ _ => None
      end
  end.

(** *** The gain computation of [generateResources(world)]

    [Math.random()] is a stream [rnd] of numbers in [0, 1) read through a
    counter, so that every call consumes the next draw. *)
Section Random.
Variable rnd : nat → Q.

Definition Rand (A : Type) : Type := nat → A * nat.
Definition ret {A} (a : A) : Rand A := λ i, (a, i).
Definition bind {A B} (m : Rand A) (k : A → Rand B) : Rand B :=
  λ i, let r := m i in k r.1 r.2.
Definition random : Rand Q := λ i, (rnd i, S i).

(** Gravity and time-speed extremes. *)
Definition baseGains (world : World) : Q * Q :=
  let baseGain := 5 in
  let heatGain := baseGain * gravity world in
  let fuelGain := baseGain * timeSpeed world in
  let '(heatGain, fuelGain) :=
    if Num.gtb (gravity world) 2.0 then (heatGain * 1.15, fuelGain * 0.9)
    else if Num.ltb (gravity world) 0.7 then (heatGain, fuelGain * 1.1)
    else (heatGain, fuelGain) in
  if Num.gtb (timeSpeed world) 1.8 then (heatGain, fuelGain * 1.15)
  else if Num.ltb (timeSpeed world) 0.5 then (heatGain * 1.1, fuelGain)
  else (heatGain, fuelGain).

(** World tier special effects. *)
Definition applySpecialEffects (world : World) (g : Q * Q) : Rand (Q * Q) :=
  match specialEffects world with
  | None => ret g
  | Some effects =>
      let heatGain :=
        if Num.truthy_opt (eff_heat effects)
        then g.1 * default 0 (eff_heat effects) else g.1 in
      let fuelGain :=
        if Num.truthy_opt (eff_fuel effects)
        then g.2 * default 0 (eff_fuel effects) else g.2 in
      match eff_all effects with
      | Some AllRandom =>
          bind random (λ r,
            let randomBonus := 0.5 + r * 1.5 in
            ret (heatGain * randomBonus, fuelGain * randomBonus))
      | Some (AllFactor q) => ret (heatGain * q, fuelGain * q)
      | None => ret (heatGain, fuelGain)
      end
  end.

(** Temperature and atmosphere bands. *)
Definition applyClimate (world : World) (g : Q * Q) : Q * Q :=
  let '(heatGain, fuelGain) :=
    if Num.gtb (temperature world) 75 then (g.1 * 1.25, g.2)
    else if Num.ltb (temperature world) 0 then (g.1, g.2 * 1.2)
    else g in
  if Num.gtb (atmosphere world) 70 then (heatGain * 1.15, fuelGain)
  else if Num.ltb (atmosphere world) 30 then (heatGain, fuelGain * 1.3)
  else (heatGain, fuelGain).

(** The [switch (world.weather)]. *)
Definition applyWeather (world : World) (g : Q * Q) : Rand (Q * Q) :=
  if weather_is world "Stormy" then ret (g.1 * 1.25, g.2 * 1.5)
  else if weather_is world "Calm" then ret (g.1 * 1.15, g.2 * 1.15)
  else if weather_is world "Chaotic" then
    bind random (λ r1,
    bind random (λ r2,
      let variance := 0.25 + r1 * 0.5 in
      let direction := if Num.ltb r2 0.5 then -1 else 1 in
      ret (g.1 * (1 + variance * direction), g.2 * (1 + variance * direction))))
  else if weather_is world "Serene" then ret (g.1, g.2 * 1.3)
  else if weather_is world "Turbulent" then ret (g.1 * 0.8, g.2)
  else ret g.

(** [heatGain] and [fuelGain] as they stand just before the credit
    [addResources({heat: floor(heatGain), fuel: floor(fuelGain)})];
    [None] when a basic upgrade entry is missing (a TypeError). *)
Definition generateResources_gains (world : World) (st : State)
  : Rand (option (Q * Q)) :=
  bind (applySpecialEffects world (baseGains world)) (λ g,
    match upgrades st !! "heatGenerator", upgrades st !! "fuelEfficiency" with
    | Some hg, Some fe =>
        let heatUpgradeBonus := 1 + level hg * 0.1 in
        let fuelUpgradeBonus := 1 + level fe * 0.1 in
        let g := (g.1 * heatUpgradeBonus, g.2 * fuelUpgradeBonus) in
        let worldBonuses := getWorldBonuses st in
        let g := (g.1 * worldBonuses.1, g.2 * worldBonuses.2) in
        let g := applyClimate world g in
        bind (applyWeather world g) (λ g,
          let synergy :=
            match resources st !! "pressure" with
            | Some pressure => Num.gtb pressure 40
            | None => false
            end in
          let heatGain := if synergy then g.1 * 1.3 else g.1 in
          let eff := resourceEfficiency (permanentBonuses st) in
          ret (Some (heatGain * eff, g.2 * eff)))
    | _, _ => ret None
    end).

(** The amounts credited (and returned) by [generateResources]. *)
Definition generateResources_credit (world : World) (st : State)
  : Rand (option (Q * Q)) :=
  bind (generateResources_gains world st) (λ g,
    ret (match g with
         | Some g => Some (Num.floor g.1, Num.floor g.2)
         | None => None
         end)).

End Random.

End ResourceSystem.

(** ** What a system is constructed with *)

(** What a system holds in [this.gameState].  [Game.js] constructs every
    system with the [GameState] instance (and re-assigns the instance on
    reset and import): the game data is then reached through [getState()],
    and the instance itself has no own property but [state].  An earlier
    revision of [Game.js] handed the systems the bare state object instead;
    on that object the data fields are own properties and [getState] is
    missing. *)
Inductive Receiver := GameStateInstance | BareState.

(** ** EventSystem.js *)

Module EventSystem.
#[local] Open Scope Q_scope.

Record Choice := mkChoice {
  ch_text : string;
  ch_effect : string;
  ch_cost : option (list (string * Q));
  ch_value : option Q
}.

Record EventDef := mkEventDef {
  ed_name : string;
  ed_rarity : string;
  ed_description : string;
  ed_effect : string;
  ed_duration : Z;
  ed_choices : list Choice
}.

Definition choice (text effect : string) : Choice := mkChoice text effect None None.

Definition resourceSurge : EventDef :=
  mkEventDef "Resource Surge" "common"
    "A sudden surge of energy flows through your machine!"
    "Choose one resource to gain +25% generation for 3 actions" 3
    [choice "Boost Heat" "heatBoost"; choice "Boost Fuel" "fuelBoost";
     choice "Boost Pressure" "pressureBoost"].
Definition machineTune : EventDef :=
  mkEventDef "Machine Tune-Up" "common"
    "Your machine runs smoother than usual today."
    "All resources +15% generation for 2 actions" 2
    [choice "Accept Bonus" "allResourceBoost"; choice "Decline" "none"].
Definition solarFlare : EventDef :=
  mkEventDef "Solar Flare" "uncommon"
    "Intense solar radiation affects your machine systems!"
    "Heat generation +50% for 4 actions, but Stability -1 per action" 4
    [choice "Harness Energy" "solarHarvest"; choice "Shield Systems" "stabilityProtect"].
Definition quantumFluctuation : EventDef :=
  mkEventDef "Quantum Fluctuation" "uncommon"
    "Reality shifts around your machine, offering new possibilities."
    "Next 2 worlds can be rerolled once each" 2
    [choice "Embrace Chaos" "worldReroll"; choice "Stay Grounded" "stabilityGain"].
Definition dimensionalRift : EventDef :=
  mkEventDef "Dimensional Rift" "rare"
    "A rift in space-time opens, revealing advanced technology!"
    "Gain access to Tier 2 world for 1 generation (temporary unlock)" 1
    [choice "Enter Rift" "tierUnlock"; choice "Seal Rift" "energyGain"].
Definition ancientTechnology : EventDef :=
  mkEventDef "Ancient Technology" "rare"
    "You discover remnants of an advanced civilization!"
    "Next upgrade costs 40% less OR gain 50 of any resource" 1
    [choice "Study Technology" "cheapUpgrade"; choice "Harvest Materials" "resourceChoice"].
Definition luckyCalibration : EventDef :=
  mkEventDef "Lucky Calibration" "ultraRare"
    "Perfect harmonic resonance achieved across all systems!"
    "All upgrades cost 50% less for next 10 purchases" 10
    [choice "Accept Calibration" "cheapUpgrades"; choice "Decline" "none"].
Definition crystalResonance : EventDef :=
  mkEventDef "Crystal Resonance" "ultraRare"
    "Ancient crystals in your machine achieve perfect harmony!"
    "Machine gains permanent +5% efficiency to all resources" (-1)
    [choice "Embrace Resonance" "permanentEfficiency"; choice "Ignore" "none"].
Definition systemGlitch : EventDef :=
  mkEventDef "System Glitch" "negative"
    "Critical error detected in machine subsystems!"
    "Lose 20% of highest resource OR spend 30 Energy to prevent" 0
    [mkChoice "Fix with Energy" "energyCost" (Some [("energy", 30)]) None;
     mkChoice "Accept Loss" "resourceLoss" None (Some 20)].
Definition pressureLeak : EventDef :=
  mkEventDef "Pressure Leak" "negative"
    "A critical leak detected in the pressure systems!"
    "Lose 50% current Pressure OR spend 40 Heat to repair" 0
    [mkChoice "Emergency Repair" "heatCost" (Some [("heat", 40)]) None;
     mkChoice "Accept Leak" "pressureLoss" None (Some 50)].

Definition eventDefinitions : list (string * EventDef) :=
  [ ("resourceSurge", resourceSurge); ("machineTune", machineTune);
    ("solarFlare", solarFlare); ("quantumFluctuation", quantumFluctuation);
    ("dimensionalRift", dimensionalRift); ("ancientTechnology", ancientTechnology);
    ("luckyCalibration", luckyCalibration); ("crystalResonance", crystalResonance);
    ("systemGlitch", systemGlitch); ("pressureLeak", pressureLeak) ].

(** Methods run on the state and either return or stop early. *)
Definition M (A : Type) : Type := State → Outcome A.

#[local] Instance M_bind : MBind M := λ A B (k : A → M B) (m : M A) st,
  match m st with
  | Returns a st1 => k a st1
  | Aborts why st1 => Aborts why st1
  end.

Section Methods.
(** The object the event system was given as [gameState]. *)
Variable receiver : Receiver.

Definition ret {A} (a : A) : M A := λ st, Returns a st.
Definition abort {A} (why : Abort) : M A := λ st, Aborts why st.
Definition modify (f : State → State) : M unit := λ st, Returns tt (f st).

(** [this.gameState.getState()] *)
Definition getState : M State :=
  match receiver with
  | GameStateInstance => λ st, Returns st st
  | BareState => abort (TypeError "this.gameState.getState is not a function")
  end.

(** Reading a property of [this.gameState.<name>], where [<name>] is one
    of the data fields of the state. *)
Definition field {A} (name : string) (proj : State → A) : M A :=
  match receiver with
  | BareState => λ st, Returns (proj st) st
  | GameStateInstance =>
      abort (TypeError ("this.gameState." +:+ name +:+ " is undefined"))
  end.

(** [this.gameState.resources[k] = this.gameState.resources[k] + d] *)
Definition addTo (k : string) (d : Q) : M unit :=
  res ← field "resources" resources;
  match res !! k with
  | Some have => modify (with_resources (<[k := have + d]> res))
  | None => abort (NotANumber k)
  end.

Definition addTemporaryEffect (effectType : string) (value : Q) : M unit :=
  evs ← field "activeEvents" activeEvents;
  modify (with_activeEvents
            (map (λ ev, if String.eqb (ev_effect ev) effectType
                        then mkActiveEvent (ev_name ev) (ev_effect ev)
                               (ev_duration ev) (ev_originalDuration ev) (Some value)
                        else ev) evs)).

(** The scan of [loseHighestResource] over fuel, pressure and energy. *)
Definition higher (res : gmap string Q) (highest : string * Q) (type : string)
  : string * Q :=
  match res !! type with
  | Some have => if Num.gtb have highest.2 then (type, have) else highest
  | None => highest
  end.

Definition loseHighestResource (percentage : Q) : M unit :=
  res ← field "resources" resources;
  match res !! "heat" with
  | None => abort (NotANumber "heat")
  | Some heat =>
      let highest := foldl (higher res) ("heat", heat) ["fuel"; "pressure"; "energy"] in
      let lossAmount := Num.floor (highest.2 * (percentage / 100)) in
      let left := highest.2 - lossAmount in
      modify (with_resources
                (<[highest.1 := if Num.ltb left 0 then 0 else left]> res))
  end.

(** case 'resourceLoss' *)
Definition resourceLoss (value : option Q) : M unit :=
  if Num.truthy_opt value then loseHighestResource (default 0 value) else ret tt.

(** case 'pressureLoss' *)
Definition pressureLoss (value : option Q) : M unit :=
  if Num.truthy_opt value then
    res ← field "resources" resources;
    match res !! "pressure" with
    | None => abort (NotANumber "pressure")
    | Some pressure =>
        let lossAmount := Num.floor (pressure * (default 0 value / 100)) in
        let left := pressure - lossAmount in
        modify (with_resources
                  (<["pressure" := if Num.ltb left 0 then 0 else left]> res))
    end
  else ret tt.

(** [Object.keys(cost).every(r => resources[r] >= cost[r])]; the resources
    are only read when the cost names at least one resource. *)
Definition canAfford (cost : list (string * Q)) : M bool :=
  match cost with
  | [] => ret true
  | _ =>
      res ← field "resources" resources;
      ret (forallb (λ c : string * Q,
                      match res !! c.1 with
                      | Some have => Num.geb have c.2
                      | None => false
                      end) cost)
  end.

Fixpoint payAll (cost : list (string * Q)) : M unit :=
  match cost with
  | [] => ret tt
  | c :: rest => addTo c.1 (- c.2);; payAll rest
  end.

(** [applyEventEffect(effectType, event, choice)].  The two recursive
    calls of the source (the fallbacks of 'energyCost' and 'heatCost')
    are the bodies [resourceLoss] and [pressureLoss] above. *)
Definition applyEventEffect (effectType : string) (choice : Choice) : M unit :=
  if String.eqb effectType "heatBoost" then addTemporaryEffect "heat" 1.25
  else if String.eqb effectType "fuelBoost" then addTemporaryEffect "fuel" 1.25
  else if String.eqb effectType "pressureBoost" then addTemporaryEffect "pressure" 1.25
  else if String.eqb effectType "allResourceBoost" then addTemporaryEffect "all" 1.15
  else if String.eqb effectType "solarHarvest" then
    (addTemporaryEffect "heat" 1.5;; addTemporaryEffect "stability" (-1))
  else if String.eqb effectType "stabilityProtect" then addTemporaryEffect "stability" 2
  else if String.eqb effectType "worldReroll" then ret tt
  else if String.eqb effectType "stabilityGain" then addTo "stability" 10
  else if String.eqb effectType "tierUnlock" then ret tt
  else if String.eqb effectType "energyGain" then addTo "energy" 25
  else if String.eqb effectType "cheapUpgrade" then addTemporaryEffect "upgradeCost" 0.6
  else if String.eqb effectType "resourceChoice" then ret tt
  else if String.eqb effectType "cheapUpgrades" then addTemporaryEffect "upgradeCost" 0.5
  else if String.eqb effectType "permanentEfficiency" then
    (bonuses ← field "permanentBonuses" permanentBonuses;
     modify (with_permanentBonuses
               (mkBonuses (resourceEfficiency bonuses + 0.05)
                          (upgradeCostReduction bonuses))))
  else if String.eqb effectType "energyCost" then
    match ch_cost choice with
    | Some cost =>
        canAfford cost ≫= λ affordable : bool,
          if affordable then payAll cost else resourceLoss (Some 20)
    | None => ret tt
    end
  else if String.eqb effectType "heatCost" then
    match ch_cost choice with
    | Some cost =>
        res ← field "resources" resources;
        match res !! "heat", (list_to_map cost : gmap string Q) !! "heat" with
        | Some have, Some price =>
            if Num.geb have price then addTo "heat" (- price)
            else pressureLoss (Some 50)
        | _, _ => pressureLoss (Some 50)
        end
    | None => pressureLoss (Some 50)
    end
  else if String.eqb effectType "resourceLoss" then resourceLoss (ch_value choice)
  else if String.eqb effectType "pressureLoss" then pressureLoss (ch_value choice)
  else if String.eqb effectType "overclock" then
    (addTemporaryEffect "all" 2.0;; addTemporaryEffect "upgradeCost" 1.5)
  else ret tt.

(** [updateActiveEvents()]: every active event loses one turn, and the
    events with no turn left are filtered out. *)
Definition tick (ev : ActiveEvent) : ActiveEvent :=
  mkActiveEvent (ev_name ev) (ev_effect ev) (ev_duration ev - 1)
    (ev_originalDuration ev) (ev_value ev).

Definition updateActiveEvents : M unit :=
  state ← getState;
  modify (with_activeEvents
            (filter (λ ev, (0 < ev_duration ev)%Z) (map tick (activeEvents state)))).

(** [selectEventChoice(event, choice)]; [now] is [Date.now()]. *)
Definition selectEventChoice (now : Q) (event : EventDef) (choice : Choice) : M unit :=
  applyEventEffect (ch_effect choice) choice;;
  history ← field "eventHistory" eventHistory;
  modify (with_eventHistory
            (history ++ [mkHistoryEntry (ed_name event) (ch_text choice) now])%list);;
  if (0 <? ed_duration event)%Z then
    evs ← field "activeEvents" activeEvents;
    modify (with_activeEvents
              (evs ++ [mkActiveEvent (ed_name event) (ch_effect choice)
                         (ed_duration event) (ed_duration event) None])%list)
  else ret tt.

End Methods.

(** *** Random events

    [checkForRandomEvent] reaches the state through [getState()], which the
    GameState instance provides; [Math.random()] is the stream of
    [ResourceSystem]. *)
Section RandomEvents.
Variable rnd : nat → Q.

(** [triggerEvent(rarity)]: one of the events of that rarity, chosen by
    [Math.floor(Math.random() * eventsOfRarity.length)]; an index outside
    the array reads [undefined]. *)
Definition triggerEvent (rarity : string) : ResourceSystem.Rand (option EventDef) :=
  let eventsOfRarity :=
    filter (λ event, ed_rarity event = rarity) (eventDefinitions.*2) in
  match eventsOfRarity with
  | [] => ResourceSystem.ret None
  | _ =>
      ResourceSystem.bind (ResourceSystem.random rnd) (λ r,
        let index := Qfloor (r * inject_Z (Z.of_nat (length eventsOfRarity))) in
        ResourceSystem.ret
          (if (index <? 0)%Z then None else eventsOfRarity !! Z.to_nat index))
  end.

(** [checkForRandomEvent()].  Without a stability amount the chance is
    [NaN] and the first comparison fails, after its draw. *)
Definition checkForRandomEvent (st : State) : ResourceSystem.Rand (option EventDef) :=
  let eventChance := 0.3 in
  ResourceSystem.bind (ResourceSystem.random rnd) (λ draw,
    match resources st !! "stability" with
    | None => ResourceSystem.ret None
    | Some stability =>
        let stabilityModifier := (stability - 25) / 100 in
        if Num.ltb draw (eventChance + stabilityModifier) then
          ResourceSystem.bind (ResourceSystem.random rnd) (λ rand,
            let reduced := 0.15 - stability / 500 in
            let negativeChance := if Num.ltb reduced 0.05 then 0.05 else reduced in
            if Num.ltb rand negativeChance then triggerEvent "negative"
            else if Num.ltb rand 0.60 then triggerEvent "common"
            else if Num.ltb rand 0.85 then triggerEvent "uncommon"
            else if Num.ltb rand 0.95 then triggerEvent "rare"
            else triggerEvent "ultraRare")
        else ResourceSystem.ret None
    end).

End RandomEvents.

End EventSystem.

(** ** UpgradeSystem.js, continued: cross-resource purchases

    [applyCrossUpgradeEffects] reads [this.gameState.resources], so these two
    methods depend on what the system was constructed with, like the
    methods of the event system. *)

Module CrossUpgrades.
Import UpgradeSystem EventSystem.
#[local] Open Scope Q_scope.
#[local] Existing Instance M_bind.

Section Methods.
Variable receiver : Receiver.

(** [applyCrossUpgradeEffects(upgradeType)]: the level is read through
    [getState()], the resources through [this.gameState.resources]. *)
Definition applyCrossUpgradeEffects (upgradeType : string) : M unit :=
  state ← getState receiver;
  match upgrades state !! upgradeType with
  | None => abort (TypeError "state.upgrades[upgradeType] is undefined")
  | Some upgrade =>
      let level := level upgrade in
      if String.eqb upgradeType "thermalAccelerator" then ret tt
      else if String.eqb upgradeType "fuelSynchronizer" then
        addTo receiver "energy" (Num.floor (level * 2))
      else if String.eqb upgradeType "pressureValve" then
        res ← field receiver "resources" resources;
        match res !! "pressure" with
        | Some pressure =>
            if Num.gtb pressure 80 then addTo receiver "heat" (Num.floor (level * 3))
            else ret tt
        | None => ret tt
        end
      else if String.eqb upgradeType "energyMatrix" then
        addTo receiver "stability" (Num.floor (level * 1.5));;
        res ← field receiver "resources" resources;
        match res !! "stability" with
        | Some stability =>
            modify (with_resources
                      (<["stability" := if Num.ltb 50 stability then 50 else stability]> res))
        | None => abort (NotANumber "stability")
        end
      else ret tt
  end.

(** [upgradeCrossResource(upgradeType, primaryResourceType)] *)
Definition upgradeCrossResource (upgradeType primaryResourceType : string) : M bool :=
  state ← getState receiver;
  match upgrades state !! upgradeType with
  | None => ret false
  | Some upgrade =>
      let cost := getUpgradeCost state upgradeType in
      match resources state !! primaryResourceType with
      | Some have =>
          if Num.geb have cost && Num.ltb (level upgrade) (maxLevel upgrade) then
            modify (λ st,
              with_upgrades
                (<[upgradeType := set_level (level upgrade + 1) upgrade]> (upgrades st))
                (with_resources (<[primaryResourceType := have - cost]> (resources st))
                   st));;
            applyCrossUpgradeEffects upgradeType;;
            ret true
          else ret false
      | None => ret false
      end
  end.

End Methods.

End CrossUpgrades.

(** ** AchievementSystem.js

    The achievement system reaches the state through [getState()] only, so
    its methods are plain functions of the state. *)

Module AchievementSystem.
#[local] Open Scope Q_scope.

(** [obj[key] || 0] on a dictionary of numbers. *)
Definition or0 (m : gmap string Q) (key : string) : Q := Num.or_else (m !! key) 0.

(** A property used as a key: [undefined] becomes the key ["undefined"]. *)
Definition key_of (o : option string) : string := default "undefined" o.

(** Truthiness of a possibly missing string. *)
Definition truthy_str (o : option string) : bool :=
  match o with Some s => negb (String.eqb s "") | None => false end.

Definition str_is (o : option string) (s : string) : bool :=
  match o with Some s' => String.eqb s' s | None => false end.

(** Number of upgrades with a level above 0. *)
Definition upgradeCount (st : State) : Q :=
  inject_Z (Z.of_nat (length (filter (λ p : string * Upgrade, Num.gtb (level p.2) 0 = true)
                                (map_to_list (upgrades st))))).

(** [names.every(n => upgrades[n] && upgrades[n].level >= upgrades[n].maxLevel)] *)
Definition allMaxed (st : State) (names : list string) : bool :=
  forallb (λ name, match upgrades st !! name with
                   | Some u => Num.geb (level u) (maxLevel u)
                   | None => false
                   end) names.

Definition unlockedCount (st : State) : Q :=
  inject_Z (Z.of_nat (length (ach_unlocked st))).

(** The loop of the 'ratio' case over the indices 1, 2, ...  [r0] is
    [ratio[0]], [base] is [values[0]] (not 0 here), [rs] and [vs] are the
    remaining ratios and values.  A missing ratio entry, or 0/0, gives
    [NaN] and the test [Math.abs(..) > 0.1] is false; a non-zero ratio over
    0 gives an infinity and the test is true. *)
Fixpoint ratiosMatch (r0 : option Q) (base : Q) (rs : list Q) (vs : list Q) : bool :=
  match vs with
  | [] => true
  | v :: vs' =>
      let off :=
        match r0, rs with
        | Some r0, ri :: _ =>
            if Qeq_bool r0 0 then negb (Qeq_bool ri 0)
            else Num.gtb (Qabs (v / base - ri / r0)) 0.1
        | _, _ => false
        end in
      if off then false else ratiosMatch r0 base (tl rs) vs'
  end.

(** [checkRequirement(requirement, state)]; [now] is [Date.now()]. *)
Definition checkRequirement (now : Q) (requirement : Requirement) (st : State) : bool :=
  let t := tracking st in
  match requirement with
  | ReqResource resource amount =>
      Num.geb_opt (or0 (resources st) (key_of resource)) amount
  | ReqWorlds amount =>
      Num.geb_opt (inject_Z (worldsCreated st)) amount
  | ReqUpgrade count maxed =>
      if Num.truthy_opt count then Num.geb_opt (upgradeCount st) count
      else match maxed with
           | Some names => allMaxed st names
           | None => false
           end
  | ReqAchievements amount => Num.geb_opt (unlockedCount st) amount
  | ReqPlaytime amount => Num.geb_opt (playtime t) amount
  | ReqClicks amount => Num.geb_opt (inject_Z (totalClicks t)) amount
  | ReqResets amount => Num.geb_opt (inject_Z (totalResets t)) amount
  | ReqSynergy all count =>
      if all then Num.gtb (or0 (resources st) "pressure") 40
      else if Num.truthy_opt count then
        Num.geb_opt (inject_Z (synergyActivations t)) count
      else false
  | ReqBalance (Some names) amount =>
      if Num.truthy_opt amount then
        forallb (λ r, Num.geb_opt (or0 (resources st) r) amount) names
      else false
  | ReqBalance None _ => false
  | ReqTotal all amount =>
      if all then
        Num.geb_opt (map_fold (λ _ val sum, sum + val) 0 (resources st)) amount
      else false
  | ReqCompletion achievements percentage =>
      if Num.truthy_opt achievements then Num.geb_opt (unlockedCount st) achievements
      else match percentage with
           | Some p =>
               if Qeq_bool p 100 then allMaxed st ["heatGenerator"; "fuelEfficiency"]
               else false
           | None => false
           end
  | ReqSpeed achievement time category count =>
      let byAchievement :=
        match achievement with
        | Some id =>
            negb (id =? 0)%Z && Num.truthy_opt time && includes id (ach_unlocked st)
        | None => false
        end in
      if byAchievement then
        let startTime := if Num.truthy (gameStartTime t) then gameStartTime t else now in
        let elapsed := (now - startTime) / 1000 in
        Num.leb elapsed (default 0 time)
      else if truthy_str category && Num.truthy_opt count && Num.truthy_opt time then
        let actions := default [] (recentActions t !! key_of category) in
        let recent :=
          filter (λ timestamp, Num.leb (now - timestamp) (default 0 time * 1000) = true)
            actions in
        Num.geb_opt (inject_Z (Z.of_nat (length recent))) count
      else false
  | ReqConversion from to amount =>
      if truthy_str from && truthy_str to && Num.truthy_opt amount then
        Num.geb_opt (or0 (conversions t) (key_of from +:+ "_to_" +:+ key_of to)) amount
      else false
  | ReqRatio (Some names) (Some ratio) =>
      let values := map (or0 (resources st)) names in
      if existsb (λ v, Qeq_bool v 0) values then false
      else match values with
           | [] => true
           | base :: rest => ratiosMatch (head ratio) base (tl ratio) rest
           end
  | ReqRatio _ _ => false
  | ReqMaintain (Some names) (Some _) duration =>
      if Num.truthy_opt duration then
        match maintenance t !! (String.concat "_" names +:+ "_ratio") with
        | Some maintained => Num.geb_opt maintained duration
        | None => false
        end
      else false
  | ReqMaintain _ _ _ => false
  | ReqStreak category count =>
      if truthy_str category && Num.truthy_opt count then
        Num.geb_opt (or0 (streaks t) (key_of category)) count
      else false
  | ReqDiscovery category count =>
      if truthy_str category && Num.truthy_opt count then
        Num.geb_opt
          (inject_Z (Z.of_nat (length (default [] (discoveries t !! key_of category)))))
          count
      else false
  | ReqChallenge method resource amount =>
      if str_is method "manual" && truthy_str resource && Num.truthy_opt amount then
        Num.geb_opt (or0 (manualGeneration t) (key_of resource)) amount
      else false
  | ReqSimultaneous category count =>
      if str_is category "generation" && Num.truthy_opt count then
        Num.geb_opt
          (inject_Z (Z.of_nat (length (filter (λ p : string * Q, Num.gtb p.2 0 = true)
                                         (map_to_list (resources st))))))
          count
      else false
  | ReqCaps category count =>
      if str_is category "reached" && Num.truthy_opt count then
        Num.geb_opt (capHits t) count
      else false
  | ReqUsage category duration =>
      if truthy_str category && Num.truthy_opt duration then
        Num.geb_opt (or0 (featureUsage t) (key_of category)) duration
      else false
  | ReqNavigation category count =>
      if str_is category "all_pages" && Num.truthy_opt count then
        forallb (λ page, Num.geb_opt (or0 (pageVisits t) page) count)
          ["main"; "upgrades"; "worlds"; "achievements"; "settings"]
      else false
  | ReqConstraint category max (Some goal) =>
      if str_is category "upgrades" && Num.truthy_opt max then
        if Num.gtb (upgradeCount st) (default 0 max) then false
        else if String.eqb (goal_type goal) "worlds" then
          Num.geb (inject_Z (worldsCreated st)) (goal_amount goal)
        else false
      else false
  | ReqConstraint _ _ None => false
  | ReqTier (Some tier) worldsCreated =>
      if negb (tier =? 0)%Z && Num.truthy_opt worldsCreated then
        Num.geb_opt (or0 (tierWorldCounts t) ("tier" +:+ pretty tier)) worldsCreated
      else false
  | ReqTier None _ => false
  | ReqTierVariety (Some tiers) minEach =>
      if Num.truthy_opt minEach then
        forallb (λ tier, Num.geb_opt (or0 (tierWorldCounts t) ("tier" +:+ pretty tier))
                           minEach) tiers
      else false
  | ReqTierVariety None _ => false
  | ReqOther _ _ => false
  end.

(** [checkHiddenRequirement(requirement, state)] *)
Definition checkHiddenRequirement (requirement : Requirement) (st : State) : bool :=
  match requirement with
  | ReqOther type (Some code) =>
      if String.eqb type "secret" && negb (String.eqb code "") then
        match secretCodes (tracking st) with
        | Some codes => existsb (String.eqb code) codes
        | None => false
        end
      else false
  | _ => false
  end.

(** One iteration of the loop of [checkAchievements]: the accumulator is
    the list [newAchievements] and the state, whose unlocked list the
    loop extends in place. *)
Definition checkOne (now : Q) (acc : list (Z * Achievement) * State)
    (entry : Z * Achievement) : list (Z * Achievement) * State :=
  let '(newAchievements, st) := acc in
  let '(achievementId, achievement) := entry in
  if includes achievementId (ach_unlocked st) then acc
  else if a_hidden achievement
          && negb (checkHiddenRequirement (a_requirement achievement) st) then acc
  else if checkRequirement now (a_requirement achievement) st then
    ((newAchievements ++ [entry])%list,
     with_ach_unlocked (ach_unlocked st ++ [achievementId])%list st)
  else acc.

(** [checkAchievements()]: the newly unlocked achievements and the state. *)
Definition checkAchievements (now : Q) (st : State) : list (Z * Achievement) * State :=
  foldl (checkOne now) ([], st) (ach_definitions st).

Definition with_totalClicks (n : Z) (t : Tracking) : Tracking :=
  {| playtime := playtime t; totalClicks := n;
     totalResets := totalResets t; synergyActivations := synergyActivations t;
     gameStartTime := gameStartTime t; conversions := conversions t;
     streaks := streaks t; recentActions := recentActions t;
     maintenance := maintenance t; discoveries := discoveries t;
     manualGeneration := manualGeneration t; capHits := capHits t;
     featureUsage := featureUsage t; pageVisits := pageVisits t;
     tierWorldCounts := tierWorldCounts t; secretCodes := secretCodes t |}.

(** [incrementClick()] *)
Definition incrementClick (st : State) : State :=
  with_tracking (with_totalClicks (totalClicks (tracking st) + 1) (tracking st)) st.

Definition with_recentActions (r : gmap string (list Q)) (t : Tracking) : Tracking :=
  {| playtime := playtime t; totalClicks := totalClicks t;
     totalResets := totalResets t; synergyActivations := synergyActivations t;
     gameStartTime := gameStartTime t; conversions := conversions t;
     streaks := streaks t; recentActions := r;
     maintenance := maintenance t; discoveries := discoveries t;
     manualGeneration := manualGeneration t; capHits := capHits t;
     featureUsage := featureUsage t; pageVisits := pageVisits t;
     tierWorldCounts := tierWorldCounts t; secretCodes := secretCodes t |}.

Definition with_discoveries (d : gmap string (list string)) (t : Tracking) : Tracking :=
  {| playtime := playtime t; totalClicks := totalClicks t;
     totalResets := totalResets t; synergyActivations := synergyActivations t;
     gameStartTime := gameStartTime t; conversions := conversions t;
     streaks := streaks t; recentActions := recentActions t;
     maintenance := maintenance t; discoveries := d;
     manualGeneration := manualGeneration t; capHits := capHits t;
     featureUsage := featureUsage t; pageVisits := pageVisits t;
     tierWorldCounts := tierWorldCounts t; secretCodes := secretCodes t |}.

(** [slice(-n)]: the last [n] elements. *)
Definition lastN {A} (n : nat) (l : list A) : list A := drop (length l - n) l.

(** [trackRecentAction(category)] on a state that
    [initializeAchievementTracking] has prepared; [now] is [Date.now()]. *)
Definition trackRecentAction (now : Q) (category : string) (st : State) : State :=
  let t := tracking st in
  let actions := (default [] (recentActions t !! category) ++ [now])%list in
  let actions := if (100 <? length actions)%nat then lastN 50 actions else actions in
  with_tracking (with_recentActions (<[category := actions]> (recentActions t)) t) st.

(** [trackDiscovery(category, method)], on such a state. *)
Definition trackDiscovery (category method : string) (st : State) : State :=
  let t := tracking st in
  let found := default [] (discoveries t !! category) in
  let found :=
    if existsb (String.eqb method) found then found else (found ++ [method])%list in
  with_tracking (with_discoveries (<[category := found]> (discoveries t)) t) st.

End AchievementSystem.

(** ** Game.js *)

Module Game.
#[local] Open Scope Q_scope.

(** [checkAndNotifyAchievements()].  When there are new achievements it
    also recomputes [state.achievementBonuses] (and [state.unlockedFeatures])
    and saves the game; these writes lie outside the fields of [State]. *)
Definition checkAndNotifyAchievements (now : Q) (st : State) : State :=
  (AchievementSystem.checkAchievements now st).2.

(** [updateUI()]: the unlock check it runs before the display is
    refreshed. *)
Definition updateUI (st : State) : State := UpgradeSystem.checkUpgradeUnlocks st.

(** [generateEnergy()]: 10 heat and 15 fuel buy 40 energy, capped at 200.
    [None] when the state holds no energy entry to add to ([NaN] in
    JavaScript). *)
Definition generateEnergy (now : Q) (st : State) : option State :=
  let heatCost := 10 in
  let fuelCost := 15 in
  match resources st !! "heat", resources st !! "fuel" with
  | Some heat, Some fuel =>
      if Num.geb heat heatCost && Num.geb fuel fuelCost then
        let res := <["heat" := heat - heatCost]> (resources st) in
        let res := <["fuel" := fuel - fuelCost]> res in
        energy ← res !! "energy";
        let energy := energy + 40 in
        let res := <["energy" := if Num.ltb 200 energy then 200 else energy]> res in
        let st1 := AchievementSystem.incrementClick (with_resources res st) in
        Some (updateUI (checkAndNotifyAchievements now st1))
      else Some st
  | _, _ => Some st
  end.

(** [generateResource(type)]: the manual click as the button runs it.
    [None] where [ResourceSystem.generateResource] stops. *)
Definition generateResource (now : Q) (type : string) (st : State) : option State :=
  r ← ResourceSystem.generateResource type st;
  let st1 := outcome_state (EventSystem.updateActiveEvents GameStateInstance r.2) in
  let st2 := AchievementSystem.incrementClick st1 in
  Some (updateUI (checkAndNotifyAchievements now st2)).

End Game.

(** ** Sessions: the operations a running game applies to its state *)

Module Session.

Inductive Action :=
| GenerateResource (type : string)                 (* a manual click *)
| AddResources (deltas : list (string * Q))        (* any credit through the ledger *)
| UpgradeResource (upgradeType resourceType : string)
| SelectWorld (worldId : Z)
| CheckWorldUnlocks
| GenerateEnergy (now : Q)
| UpdateActiveEvents                               (* one action or tick *)
| SelectEventChoice (now : Q) (event : EventSystem.EventDef)
                    (choice : EventSystem.Choice)
| CheckAchievements (now : Q).

(** The state after an action; [None] where the model of the action stops
    (see [WorldSystem.deduct]).  An action that ends in an exception leaves
    the state as the exception found it. *)
Definition perform (a : Action) (st : State) : option State :=
  match a with
  | GenerateResource type => snd <$> ResourceSystem.generateResource type st
  | AddResources deltas => Some (outcome_state (GameState.addResources deltas st))
  | UpgradeResource u r => Some (UpgradeSystem.upgradeResource u r st).2
  | SelectWorld worldId => snd <$> WorldSystem.selectWorld worldId st
  | CheckWorldUnlocks => Some (WorldSystem.checkWorldUnlocks st).2
  | GenerateEnergy now => Game.generateEnergy now st
  | UpdateActiveEvents =>
      Some (outcome_state (EventSystem.updateActiveEvents GameStateInstance st))
  | SelectEventChoice now event choice =>
      Some (outcome_state
              (EventSystem.selectEventChoice GameStateInstance now event choice st))
  | CheckAchievements now => Some (AchievementSystem.checkAchievements now st).2
  end.

Fixpoint run (actions : list Action) (st : State) : option State :=
  match actions with
  | [] => Some st
  | a :: rest => perform a st ≫= run rest
  end.

Definition step (st st' : State) : Prop := ∃ a, perform a st = Some st'.

(** The states a session can be in: any number of actions after the start. *)
Definition reachable (t0 : Q) (st : State) : Prop := rtc step (readyState t0) st.

End Session.

(** ** GameState.js: saving, validating and loading

    What is stored and loaded is untyped JSON, so this part works on
    JavaScript values.  A stored string is represented by what [JSON.parse]
    makes of it; [JSON.stringify] followed by [JSON.parse] is the function
    [serialise] on values. *)

Module Save.
#[local] Open Scope Q_scope.

(** Numbers as [JSON.parse] can produce them: a literal such as [1e999]
    parses to [Infinity]. *)
Inductive number := Fin (q : Q) | PosInf | NegInf | NaN.

Inductive value :=
| VUndef
| VNull
| VBool (b : bool)
| VNum (n : number)
| VStr (s : string)
| VArr (l : list value)
| VObj (m : gmap string value).

Definition num (q : Q) : value := VNum (Fin q).
Definition str (s : string) : value := VStr s.
Definition obj (l : list (string * value)) : value := VObj (list_to_map l).

Definition typeof (v : value) : string :=
  match v with
  | VUndef => "undefined"
  | VNull | VArr _ | VObj _ => "object"
  | VBool _ => "boolean"
  | VNum _ => "number"
  | VStr _ => "string"
  end.

Definition truthy (v : value) : bool :=
  match v with
  | VUndef | VNull => false
  | VBool b => b
  | VNum (Fin q) => negb (Qeq_bool q 0)
  | VNum NaN => false
  | VNum _ => true
  | VStr s => negb (String.eqb s "")
  | VArr _ | VObj _ => true
  end.

Definition is_undef (v : value) : bool :=
  match v with VUndef => true | _ => false end.

Definition isArray (v : value) : bool :=
  match v with VArr _ => true | _ => false end.

(** The own enumerable properties of a value, as the spread [{...v}] and
    [Object.entries(v)] see them. *)
Definition fields (v : value) : gmap string value :=
  match v with
  | VObj m => m
  | VArr l => list_to_map (imap (λ i x, (pretty i, x)) l)
  | VStr s =>
      list_to_map (imap (λ i c, (pretty i, VStr (String c EmptyString)))
                     (String.list_ascii_of_string s))
  | _ => ∅
  end.

(** [v[k]] on a value that is neither [null] nor [undefined]. *)
Definition get (v : value) (k : string) : value :=
  match v with
  | VObj m => default VUndef (m !! k)
  | VArr l =>
      if String.eqb k "length" then num (inject_Z (Z.of_nat (length l)))
      else default VUndef (fields v !! k)
  | VStr s =>
      if String.eqb k "length" then num (inject_Z (Z.of_nat (String.length s)))
      else default VUndef (fields v !! k)
  | _ => VUndef
  end.

(** [k in v] on an object or array. *)
Definition has (v : value) (k : string) : bool :=
  match v with
  | VObj m => bool_decide (is_Some (m !! k))
  | VArr l => String.eqb k "length" || bool_decide (is_Some (fields v !! k))
  | _ => false
  end.

(** [{...a, ...b}] *)
Definition spread (a b : value) : value := VObj (fields b ∪ fields a).

(** [a || b] *)
Definition orElse (a b : value) : value := if truthy a then a else b.

(** [v < 0] and [v > 0] on a number. *)
Definition lessThanZero (v : value) : bool :=
  match v with
  | VNum (Fin q) => Num.ltb q 0
  | VNum NegInf => true
  | _ => false
  end.

Definition greaterThanZero (v : value) : bool :=
  match v with
  | VNum (Fin q) => Num.gtb q 0
  | VNum PosInf => true
  | _ => false
  end.

Definition isFinite (v : value) : bool :=
  match v with VNum (Fin _) => true | _ => false end.

Definition isNumber (v : value) : bool :=
  match v with VNum _ => true | _ => false end.

(** [JSON.parse(JSON.stringify(v))]: non-finite numbers become [null],
    [undefined] becomes [null] inside an array and drops the property
    inside an object. *)
Fixpoint serialise (v : value) : value :=
  match v with
  | VNum (Fin _) => v
  | VNum _ => VNull
  | VArr l =>
      VArr (map (λ x, match serialise x with VUndef => VNull | y => y end) l)
  | VObj m =>
      VObj (filter (λ kv : string * value, is_undef kv.2 = false) (serialise <$> m))
  | _ => v
  end.

(** *** validateSaveData *)

Definition isObject (v : value) : bool := truthy v && String.eqb (typeof v) "object".

Definition requiredProperties : list string := ["worldsCreated"; "resources"; "upgrades"].
Definition resourceTypes : list string :=
  ["heat"; "fuel"; "pressure"; "energy"; "stability"].

(** [typeof value !== 'number' || value < 0 || !isFinite(value)] *)
Definition badAmount (v : value) : bool :=
  negb (isNumber v) || lessThanZero v || negb (isFinite v).

Definition badResource (res : value) (resource : string) : bool :=
  let v := get res resource in
  negb (is_undef v) && badAmount v.

Definition badUpgrade (upgrade : value) : bool :=
  isObject upgrade
  && negb (is_undef (get upgrade "level"))
  && badAmount (get upgrade "level").

Definition validateSaveData (data : value) : bool :=
  if negb (isObject data) then false
  else if negb (forallb (has data) requiredProperties) then false
  else if negb (isNumber (get data "worldsCreated")) || lessThanZero (get data "worldsCreated")
  then false
  else if negb (isObject (get data "resources")) then false
  else if existsb (badResource (get data "resources")) resourceTypes then false
  else if negb (isObject (get data "upgrades")) then false
  else if existsb badUpgrade (map_to_list (fields (get data "upgrades"))).*2 then false
  else if truthy (get data "worldHistory") && negb (isArray (get data "worldHistory"))
  then false
  else true.

(** *** validateAndFixState *)

Definition defaultUpgradesV : list (string * value) :=
  [ ("heatGenerator", obj [("level", num 0); ("maxLevel", num 10); ("baseCost", num 10)]);
    ("fuelEfficiency", obj [("level", num 0); ("maxLevel", num 10); ("baseCost", num 15)]);
    ("thermalAccelerator",
       obj [("level", num 0); ("maxLevel", num 5); ("baseCost", num 25);
            ("unlocked", VBool false); ("requiresHeat", num 3);
            ("requiresPressure", num 30)]);
    ("fuelSynchronizer",
       obj [("level", num 0); ("maxLevel", num 5); ("baseCost", num 30);
            ("unlocked", VBool false); ("requiresFuel", num 5);
            ("requiresEnergy", num 20)]);
    ("pressureValve",
       obj [("level", num 0); ("maxLevel", num 5); ("baseCost", num 35);
            ("unlocked", VBool false); ("requiresStability", num 15);
            ("requiresPressure", num 50)]);
    ("energyMatrix",
       obj [("level", num 0); ("maxLevel", num 5); ("baseCost", num 40);
            ("unlocked", VBool false); ("requiresHeat", num 7);
            ("requiresFuel", num 8)]) ].

Definition defaultResourcesV : value :=
  obj [("heat", num 0); ("fuel", num 0); ("pressure", num 0); ("energy", num 0);
       ("stability", num 0)].

(** The placeholder pushed for world [i] by the migration of old saves. *)
Definition placeholderWorld (now : Z) (worldsCreated : Q) (i : nat) : value :=
  obj [("id", num (inject_Z (Z.of_nat i))); ("type", str "Desert"); ("tier", num 1);
       ("gravity", num 1.0); ("timeSpeed", num 1.0); ("temperature", num 25);
       ("atmosphere", num 50); ("weather", str "Calm"); ("weatherDuration", num 10);
       ("createdAt",
          num (inject_Z now - (worldsCreated - inject_Z (Z.of_nat i)) * 60000))].

(** The migration loop [for (i = 1; i <= worldsCreated; i++)]: [None] when
    it does not end ([worldsCreated] is [Infinity]). *)
Definition placeholderHistory (now : Z) (worldsCreated : value) : option value :=
  match worldsCreated with
  | VNum (Fin q) =>
      Some (VArr (map (placeholderWorld now q) (seq 1 (Z.to_nat (Qfloor q)))))
  | VNum PosInf => None
  | _ => Some (VArr [])
  end.

Definition isZero (v : value) : bool :=
  match v with VNum (Fin q) => Qeq_bool q 0 | _ => false end.

Definition fixUpgrade (ups : gmap string value) (d : string * value)
  : gmap string value :=
  let current := default VUndef (ups !! d.1) in
  <[d.1 := if truthy current then spread d.2 current else d.2]> ups.

(** [validateAndFixState()] on a state whose [upgrades] is an object (it
    always is: the constructor and every merge build it with an object
    literal).  [worldsCreated > 0] is only met on numbers here, the callers
    having checked the type.  [None]: the call does not return. *)
Definition validateAndFixState (now : Z) (state : value) : option value :=
  let m := fields state in
  let history := get state "worldHistory" in
  m1 ← (if (negb (truthy history) || isZero (get history "length"))
           && greaterThanZero (get state "worldsCreated")
        then h ← placeholderHistory now (get state "worldsCreated");
             Some (<["worldHistory" := h]> m)
        else Some m);
  let m2 :=
    if truthy (default VUndef (m1 !! "worldHistory")) then m1
    else <["worldHistory" := VArr []]> m1 in
  let m3 :=
    <["upgrades" :=
        VObj (foldl fixUpgrade (fields (default VUndef (m2 !! "upgrades")))
                defaultUpgradesV)]> m2 in
  let m4 :=
    if truthy (default VUndef (m3 !! "activeEvents")) then m3
    else <["activeEvents" := VArr []]> m3 in
  Some (VObj (<["resources" :=
                  spread defaultResourcesV (default VUndef (m4 !! "resources"))]> m4)).

(** *** The constructor's state *)

Definition achievementDefinitionsV : value := obj [
  ("1", obj [("name", str "First Steps"); ("description", str "Generate your first Heat");
     ("reward", str "+5% Heat generation");
     ("requirement", obj [("type", str "resource"); ("resource", str "heat"); ("amount", num 1)])]);
  ("2", obj [("name", str "Fuel Finder"); ("description", str "Generate your first Fuel");
     ("reward", str "+5% Fuel generation");
     ("requirement", obj [("type", str "resource"); ("resource", str "fuel"); ("amount", num 1)])]);
  ("3", obj [("name", str "First Upgrade"); ("description", str "Purchase your first upgrade");
     ("reward", str "+2% upgrade efficiency");
     ("requirement", obj [("type", str "upgrade"); ("count", num 1)])]);
  ("4", obj [("name", str "Heat Wave"); ("description", str "Reach 100 Heat");
     ("reward", str "+10% Heat generation");
     ("requirement", obj [("type", str "resource"); ("resource", str "heat"); ("amount", num 100)])]);
  ("5", obj [("name", str "Fuel Tank"); ("description", str "Reach 100 Fuel");
     ("reward", str "+8% Fuel generation");
     ("requirement", obj [("type", str "resource"); ("resource", str "fuel"); ("amount", num 100)])]);
  ("6", obj [("name", str "World Builder"); ("description", str "Create your first world");
     ("reward", str "Unlock world bonuses");
     ("requirement", obj [("type", str "worlds"); ("amount", num 1)])]);
  ("7", obj [("name", str "Pressure Rising"); ("description", str "Reach 50 Pressure");
     ("reward", str "+15% Pressure generation");
     ("requirement", obj [("type", str "resource"); ("resource", str "pressure"); ("amount", num 50)])]);
  ("8", obj [("name", str "Energy Seeker"); ("description", str "Reach 25 Energy");
     ("reward", str "+12% Energy generation");
     ("requirement", obj [("type", str "resource"); ("resource", str "energy"); ("amount", num 25)])]);
  ("9", obj [("name", str "Stability Master"); ("description", str "Reach 20 Stability");
     ("reward", str "+10% Stability generation");
     ("requirement", obj [("type", str "resource"); ("resource", str "stability"); ("amount", num 20)])]);
  ("10", obj [("name", str "Heat Master"); ("description", str "Reach 1000 Heat");
     ("reward", str "+20% Heat generation");
     ("requirement", obj [("type", str "resource"); ("resource", str "heat"); ("amount", num 1000)])]);
  ("11", obj [("name", str "Fuel Depot"); ("description", str "Reach 500 Fuel");
     ("reward", str "+15% Fuel generation");
     ("requirement", obj [("type", str "resource"); ("resource", str "fuel"); ("amount", num 500)])]);
  ("12", obj [("name", str "Upgrader"); ("description", str "Purchase 5 upgrades");
     ("reward", str "+5% upgrade efficiency");
     ("requirement", obj [("type", str "upgrade"); ("count", num 5)])]);
  ("13", obj [("name", str "World Collector"); ("description", str "Create 5 worlds");
     ("reward", str "Unlock Tier 2 worlds");
     ("requirement", obj [("type", str "worlds"); ("amount", num 5)])]);
  ("14", obj [("name", str "Pressure Cooker"); ("description", str "Reach maximum Pressure (100)");
     ("reward", str "+25% Pressure conversion");
     ("requirement", obj [("type", str "resource"); ("resource", str "pressure"); ("amount", num 100)])]);
  ("15", obj [("name", str "Energy Core"); ("description", str "Reach 100 Energy");
     ("reward", str "+20% Energy generation");
     ("requirement", obj [("type", str "resource"); ("resource", str "energy"); ("amount", num 100)])]);
  ("16", obj [("name", str "Synergy User"); ("description", str "Activate Heat+Pressure synergy");
     ("reward", str "+10% synergy bonus");
     ("requirement", obj [("type", str "synergy"); ("synergy", str "heat_pressure"); ("count", num 1)])]);
  ("17", obj [("name", str "Dimension Hopper"); ("description", str "Create 25 worlds");
     ("reward", str "Unlock World Generator");
     ("requirement", obj [("type", str "worlds"); ("amount", num 25)])]);
  ("18", obj [("name", str "Mega Heat"); ("description", str "Reach 10,000 Heat");
     ("reward", str "+30% Heat generation");
     ("requirement", obj [("type", str "resource"); ("resource", str "heat"); ("amount", num 10000)])]);
  ("19", obj [("name", str "Fuel Empire"); ("description", str "Reach 5,000 Fuel");
     ("reward", str "+25% Fuel generation");
     ("requirement", obj [("type", str "resource"); ("resource", str "fuel"); ("amount", num 5000)])]);
  ("20", obj [("name", str "Upgrade Master"); ("description", str "Purchase 10 upgrades");
     ("reward", str "+10% upgrade efficiency");
     ("requirement", obj [("type", str "upgrade"); ("count", num 10)])]);
  ("21", obj [("name", str "World Factory"); ("description", str "Create 25 worlds");
     ("reward", str "Unlock Tier 3 worlds");
     ("requirement", obj [("type", str "worlds"); ("amount", num 25)])]);
  ("22", obj [("name", str "Stability Fortress"); ("description", str "Reach 100 Stability");
     ("reward", str "+30% Stability generation");
     ("requirement", obj [("type", str "resource"); ("resource", str "stability"); ("amount", num 100)])]);
  ("23", obj [("name", str "Synergy Master"); ("description", str "Activate synergies 100 times");
     ("reward", str "+25% synergy effectiveness");
     ("requirement", obj [("type", str "synergy"); ("count", num 100)])]);
  ("24", obj [("name", str "Heat Titan"); ("description", str "Reach 100,000 Heat");
     ("reward", str "+50% Heat generation");
     ("requirement", obj [("type", str "resource"); ("resource", str "heat"); ("amount", num 100000)])]);
  ("25", obj [("name", str "Fuel Ocean"); ("description", str "Reach 50,000 Fuel");
     ("reward", str "+40% Fuel generation");
     ("requirement", obj [("type", str "resource"); ("resource", str "fuel"); ("amount", num 50000)])]);
  ("26", obj [("name", str "Upgrade Legend"); ("description", str "Max out all basic upgrades");
     ("reward", str "Unlock legendary upgrades");
     ("requirement", obj [("type", str "upgrade"); ("maxed", VArr [str "heatGenerator"; str "fuelEfficiency"])])]);
  ("27", obj [("name", str "Universe Builder"); ("description", str "Create 75 worlds");
     ("reward", str "Unlock universe mode");
     ("requirement", obj [("type", str "worlds"); ("amount", num 75)])]);
  ("28", obj [("name", str "Pressure God"); ("description", str "Convert 1000 Pressure to Heat");
     ("reward", str "+50% Pressure conversion");
     ("requirement", obj [("type", str "pressure_to_heat"); ("amount", num 1000)])]);
  ("29", obj [("name", str "Energy Nexus"); ("description", str "Reach 1000 Energy");
     ("reward", str "+40% Energy generation");
     ("requirement", obj [("type", str "resource"); ("resource", str "energy"); ("amount", num 1000)])]);
  ("30", obj [("name", str "Perfect Balance"); ("description", str "Have all resources above 1000");
     ("reward", str "+25% all generation");
     ("requirement", obj [("type", str "balance"); ("resources", VArr [str "heat"; str "fuel"; str "pressure"; str "energy"; str "stability"]); ("amount", num 1000)])]);
  ("31", obj [("name", str "Speed Runner"); ("description", str "Unlock World Generator in under 1 hour");
     ("reward", str "+100% early game speed");
     ("requirement", obj [("type", str "speed"); ("achievement", num 17); ("time", num 3600)])]);
  ("32", obj [("name", str "Efficiency Expert"); ("description", str "Reach 500% upgrade efficiency");
     ("reward", str "+50% efficiency cap");
     ("requirement", obj [("type", str "stat"); ("stat", str "upgradeEfficiency"); ("amount", num 5)])]);
  ("33", obj [("name", str "World Architect"); ("description", str "Create worlds with all biome types");
     ("reward", str "Unlock custom worlds");
     ("requirement", obj [("type", str "variety"); ("category", str "biomes"); ("count", num 10)])]);
  ("34", obj [("name", str "Resource Hoarder"); ("description", str "Have 1M total resources");
     ("reward", str "+20% resource storage");
     ("requirement", obj [("type", str "total"); ("resources", str "all"); ("amount", num 1000000)])]);
  ("35", obj [("name", str "Upgrade Collector"); ("description", str "Own all possible upgrades");
     ("reward", str "+30% upgrade effectiveness");
     ("requirement", obj [("type", str "collection"); ("category", str "upgrades"); ("percentage", num 100)])]);
  ("36", obj [("name", str "Hidden Power"); ("description", str "???");
     ("reward", str "???");
     ("requirement", obj [("type", str "secret"); ("code", str "MACHINE_POWER")]); ("hidden", VBool true)]);
  ("37", obj [("name", str "Time Master"); ("description", str "Play for 24 hours total");
     ("reward", str "+50% offline progress");
     ("requirement", obj [("type", str "playtime"); ("amount", num 86400)])]);
  ("38", obj [("name", str "Click Master"); ("description", str "Generate resources 1000 times");
     ("reward", str "+25% manual generation");
     ("requirement", obj [("type", str "clicks"); ("amount", num 1000)])]);
  ("39", obj [("name", str "Reset Veteran"); ("description", str "Reset your game 3 times");
     ("reward", str "+100% reset bonuses");
     ("requirement", obj [("type", str "resets"); ("amount", num 3)])]);
  ("40", obj [("name", str "Achievement Hunter"); ("description", str "Unlock 25 achievements");
     ("reward", str "+50% achievement bonuses");
     ("requirement", obj [("type", str "achievements"); ("amount", num 25)])]);
  ("41", obj [("name", str "Mega Worlds"); ("description", str "Create 150 worlds");
     ("reward", str "Unlock mega worlds");
     ("requirement", obj [("type", str "worlds"); ("amount", num 150)])]);
  ("42", obj [("name", str "Heat Infinity"); ("description", str "Reach 1M Heat");
     ("reward", str "+100% Heat generation");
     ("requirement", obj [("type", str "resource"); ("resource", str "heat"); ("amount", num 1000000)])]);
  ("43", obj [("name", str "Fuel Cosmos"); ("description", str "Reach 1M Fuel");
     ("reward", str "+100% Fuel generation");
     ("requirement", obj [("type", str "resource"); ("resource", str "fuel"); ("amount", num 1000000)])]);
  ("44", obj [("name", str "Ultimate Builder"); ("description", str "Create 250 worlds");
     ("reward", str "Unlock ultimate mode");
     ("requirement", obj [("type", str "worlds"); ("amount", num 250)])]);
  ("45", obj [("name", str "Perfect Synergy"); ("description", str "Have all synergies active");
     ("reward", str "+100% synergy power");
     ("requirement", obj [("type", str "synergy"); ("all", VBool true)])]);
  ("46", obj [("name", str "Resource God"); ("description", str "Have all resources above 100K");
     ("reward", str "+75% all generation");
     ("requirement", obj [("type", str "balance"); ("resources", VArr [str "heat"; str "fuel"; str "pressure"; str "energy"; str "stability"]); ("amount", num 100000)])]);
  ("47", obj [("name", str "Legendary Status"); ("description", str "Reach maximum level in everything");
     ("reward", str "Unlock prestige mode");
     ("requirement", obj [("type", str "completion"); ("percentage", num 100)])]);
  ("48", obj [("name", str "Secret Keeper"); ("description", str "???");
     ("reward", str "???");
     ("requirement", obj [("type", str "secret"); ("code", str "WORLD_MACHINE")]); ("hidden", VBool true)]);
  ("49", obj [("name", str "Time Lord"); ("description", str "Play for 7 days total");
     ("reward", str "+200% time bonuses");
     ("requirement", obj [("type", str "playtime"); ("amount", num 604800)])]);
  ("50", obj [("name", str "Master of Worlds"); ("description", str "Complete all other achievements");
     ("reward", str "Master title + 1000% all bonuses");
     ("requirement", obj [("type", str "completion"); ("achievements", num 69)])]);
  ("51", obj [("name", str "Conversion Expert"); ("description", str "Convert 500 Pressure to Heat");
     ("reward", str "Unlock auto-conversion");
     ("requirement", obj [("type", str "conversion"); ("from", str "pressure"); ("to", str "heat"); ("amount", num 500)])]);
  ("52", obj [("name", str "Energy Converter"); ("description", str "Convert 200 Energy to Fuel");
     ("reward", str "+50% conversion efficiency");
     ("requirement", obj [("type", str "conversion"); ("from", str "energy"); ("to", str "fuel"); ("amount", num 200)])]);
  ("53", obj [("name", str "Efficiency Master"); ("description", str "Reach 3:1 Heat to Fuel ratio");
     ("reward", str "Unlock ratio bonuses");
     ("requirement", obj [("type", str "ratio"); ("resources", VArr [str "heat"; str "fuel"]); ("ratio", VArr [num 3; num 1])])]);
  ("54", obj [("name", str "Resource Optimizer"); ("description", str "Maintain 2:1:1 Heat:Fuel:Pressure for 5 minutes");
     ("reward", str "+25% balanced generation");
     ("requirement", obj [("type", str "maintain"); ("resources", VArr [str "heat"; str "fuel"; str "pressure"]); ("ratio", VArr [num 2; num 1; num 1]); ("duration", num 300)])]);
  ("55", obj [("name", str "Daily Dedication"); ("description", str "Play for 7 consecutive days");
     ("reward", str "Unlock daily bonuses");
     ("requirement", obj [("type", str "streak"); ("category", str "daily"); ("count", num 7)])]);
  ("56", obj [("name", str "Resource Streak"); ("description", str "Generate resources for 100 consecutive game updates");
     ("reward", str "+30% continuous generation");
     ("requirement", obj [("type", str "streak"); ("category", str "generation"); ("count", num 100)])]);
  ("57", obj [("name", str "Upgrade Spree"); ("description", str "Purchase 5 upgrades within 60 seconds");
     ("reward", str "Unlock bulk purchasing");
     ("requirement", obj [("type", str "speed"); ("category", str "upgrades"); ("count", num 5); ("time", num 60)])]);
  ("58", obj [("name", str "Explorer"); ("description", str "Discover all resource generation methods");
     ("reward", str "Resource generation overview");
     ("requirement", obj [("type", str "discovery"); ("category", str "generation"); ("count", num 5)])]);
  ("59", obj [("name", str "Strategist"); ("description", str "Reach 1000 Heat using only manual generation");
     ("reward", str "Manual generation x2");
     ("requirement", obj [("type", str "challenge"); ("method", str "manual"); ("resource", str "heat"); ("amount", num 1000)])]);
  ("60", obj [("name", str "Multi-tasker"); ("description", str "Have 5+ resources generating simultaneously");
     ("reward", str "+20% parallel efficiency");
     ("requirement", obj [("type", str "simultaneous"); ("category", str "generation"); ("count", num 5)])]);
  ("61", obj [("name", str "Storage Expert"); ("description", str "Reach resource caps 10 times");
     ("reward", str "+50% all resource caps");
     ("requirement", obj [("type", str "caps"); ("category", str "reached"); ("count", num 10)])]);
  ("62", obj [("name", str "Automation Lover"); ("description", str "Use auto-features for 1 hour total");
     ("reward", str "Unlock advanced automation");
     ("requirement", obj [("type", str "usage"); ("category", str "automation"); ("duration", num 3600)])]);
  ("63", obj [("name", str "Interface Master"); ("description", str "Visit all game pages 20+ times each");
     ("reward", str "Unlock quick navigation");
     ("requirement", obj [("type", str "navigation"); ("category", str "all_pages"); ("count", num 20)])]);
  ("64", obj [("name", str "Minimalist"); ("description", str "Create 10 worlds with only 2 upgrade types");
     ("reward", str "Upgrade efficiency +100%");
     ("requirement", obj [("type", str "constraint"); ("category", str "upgrades"); ("max", num 2); ("goal", obj [("type", str "worlds"); ("amount", num 10)])])]);
  ("65", obj [("name", str "Speed Builder"); ("description", str "Create 5 worlds in under 10 minutes");
     ("reward", str "World creation speed +200%");
     ("requirement", obj [("type", str "speed"); ("category", str "worlds"); ("count", num 5); ("time", num 600)])]);
  ("66", obj [("name", str "Enhanced Explorer"); ("description", str "Create your first Enhanced World (Tier 2)");
     ("reward", str "+15% Tier 2 world bonuses");
     ("requirement", obj [("type", str "tier"); ("tier", num 2); ("worldsCreated", num 1)])]);
  ("67", obj [("name", str "Enhanced Master"); ("description", str "Create 10 Enhanced Worlds");
     ("reward", str "+25% Tier 2 world generation");
     ("requirement", obj [("type", str "tier"); ("tier", num 2); ("worldsCreated", num 10)])]);
  ("68", obj [("name", str "Exotic Pioneer"); ("description", str "Create your first Exotic World (Tier 3)");
     ("reward", str "+20% Tier 3 world bonuses");
     ("requirement", obj [("type", str "tier"); ("tier", num 3); ("worldsCreated", num 1)])]);
  ("69", obj [("name", str "Reality Bender"); ("description", str "Create 5 Exotic Worlds");
     ("reward", str "Unlock reality manipulation");
     ("requirement", obj [("type", str "tier"); ("tier", num 3); ("worldsCreated", num 5)])]);
  ("70", obj [("name", str "Tier Master"); ("description", str "Create worlds from all tiers");
     ("reward", str "+50% cross-tier synergy");
     ("requirement", obj [("type", str "tierVariety"); ("tiers", VArr [num 1; num 2; num 3]); ("minEach", num 3)])])
].

Definition constructorLiteral : value :=
  obj [ ("worldsCreated", num 0); ("machineComplexity", num 0);
        ("worldHistory", VArr []);
        ("resources",
           obj [("heat", num 0); ("fuel", num 0); ("pressure", num 0); ("energy", num 0);
                ("stability", num 0); ("water", num 0); ("oxygen", num 0);
                ("stone", num 0); ("magma", num 0); ("ice", num 0); ("crystal", num 0);
                ("voidEnergy", num 0)]);
        ("upgrades", obj defaultUpgradesV);
        ("currentWorld", VNull);
        ("unlockedWorlds", VArr [num 0]);
        ("worldProgress", num 0);
        ("machineParts", VArr []);
        ("activeEvents", VArr []);
        ("eventHistory", VArr []);
        ("permanentBonuses",
           obj [("resourceEfficiency", num 1.0); ("upgradeCostReduction", num 1.0)]);
        ("achievements",
           obj [("unlocked", VArr []); ("progress", obj []);
                ("definitions", achievementDefinitionsV)]);
        ("settings",
           obj [("theme", str "dark"); ("showResourceDescriptions", VBool true);
                ("animateProgressBars", VBool true); ("showDetailedTooltips", VBool true);
                ("autoSaveInterval", num 30); ("showEfficiencyNumbers", VBool true);
                ("confirmDangerousActions", VBool true);
                ("showTutorialMessages", VBool true); ("soundEffects", VBool false);
                ("backgroundMusic", VBool false); ("volume", num 50)]) ].

(** [new GameState().state] *)
Definition constructorState : value :=
  default VUndef (validateAndFixState 0 constructorLiteral).

(** *** localStorage *)

(** A stored non-empty string: either text that [JSON.parse] rejects or
    the value it parses to.  (An empty string reads as falsy and is treated
    like an absent key.) *)
Inductive Item := Unparsable | Json (v : value).

(** An entry of the backup list; the [date] string of the source is only
    used in log messages and left out. *)
Record BackupMeta := mkBackup { bk_key : string; bk_timestamp : Z }.

(** What is stored under [machineOfWorldsBackups]: text that does not
    parse, a JSON value that is not an array, or the list the game itself
    writes. *)
Inductive Index := IndexUnparsable | IndexNotArray | IndexList (l : list BackupMeta).

Record Storage := mkStorage {
  saveItem : option Item;                (* machineOfWorldsSave *)
  backupIndex : option Index;            (* machineOfWorldsBackups *)
  backupItems : gmap string Item         (* machineOfWorldsBackup_<timestamp> *)
}.

(** [getBackupList()]; [None] when the stored value is not an array, in
    which case the caller's next operation on it throws inside the
    caller's own try block. *)
Definition getBackupList (store : Storage) : option (list BackupMeta) :=
  match backupIndex store with
  | None | Some IndexUnparsable => Some []
  | Some IndexNotArray => None
  | Some (IndexList l) => Some l
  end.

(** [backups.sort((a, b) => b.timestamp - a.timestamp)]: newest first,
    equal timestamps keep their order. *)
Fixpoint insertNewestFirst (x : BackupMeta) (l : list BackupMeta) : list BackupMeta :=
  match l with
  | [] => [x]
  | y :: l' =>
      if (bk_timestamp y <=? bk_timestamp x)%Z then x :: l
      else y :: insertNewestFirst x l'
  end.

Definition newestFirst (l : list BackupMeta) : list BackupMeta :=
  foldr insertNewestFirst [] l.

Definition createBackup (now : Z) (store : Storage) : Storage :=
  match saveItem store with
  | None => store
  | Some currentSave =>
      let backupKey := "machineOfWorldsBackup_" +:+ pretty now in
      let items := <[backupKey := currentSave]> (backupItems store) in
      match getBackupList store with
      | Some backups =>
          mkStorage (saveItem store)
            (Some (IndexList (backups ++ [mkBackup backupKey now]))) items
      | None => mkStorage (saveItem store) (backupIndex store) items
      end
  end.

Definition cleanupOldBackups (store : Storage) : Storage :=
  let maxBackups := 3%nat in
  match getBackupList store with
  | Some backups =>
      if (maxBackups <? length backups)%nat then
        let sorted := newestFirst backups in
        mkStorage (saveItem store)
          (Some (IndexList (take maxBackups sorted)))
          (foldl (λ items b, delete (bk_key b) items) (backupItems store)
             (drop maxBackups sorted))
      else store
  | None => store
  end.

Definition restoreFromBackup (store : Storage) : bool * Storage :=
  match getBackupList store with
  | Some (b :: bs) =>
      match head (newestFirst (b :: bs)) with
      | Some latestBackup =>
          match backupItems store !! bk_key latestBackup with
          | Some (Json parsedBackup) =>
              if validateSaveData parsedBackup then
                (true, mkStorage (Some (Json parsedBackup)) (backupIndex store)
                         (backupItems store))
              else (false, store)
          | _ => (false, store)
          end
      | None => (false, store)
      end
  | _ => (false, store)
  end.

(** [saveGame()]; storage writes are taken to succeed. *)
Definition saveGame (now : Z) (state : value) (store : Storage) : Storage :=
  let store1 := createBackup now store in
  cleanupOldBackups
    (mkStorage (Some (Json (serialise state))) (backupIndex store1) (backupItems store1)).

(** The object literal of [loadGame] that merges the parsed save into the
    current state. *)
Definition mergeSave (state parsedData : value) : value :=
  let nested (k : string) := spread (get state k) (get parsedData k) in
  VObj (<["worldHistory" := orElse (get parsedData "worldHistory") (VArr [])]>
       (<["settings" := nested "settings"]>
       (<["achievements" := nested "achievements"]>
       (<["unlocks" := nested "unlocks"]>
       (<["worldTiers" := nested "worldTiers"]>
       (<["permanentBonuses" := nested "permanentBonuses"]>
       (<["currentWorld" :=
            orElse (get parsedData "currentWorld") (get state "currentWorld")]>
       (<["resources" := nested "resources"]>
       (<["upgrades" := nested "upgrades"]>
          (fields parsedData ∪ fields state)))))))))).

Inductive LoadResult :=
| Returned (ok : bool) (state : value) (store : Storage)
| NeverReturns
| MoreFuel.

(** [loadGame()]: [fuel] bounds the depth of the retry
    [return this.loadGame()]. *)
Fixpoint loadGame (fuel : nat) (now : Z) (state : value) (store : Storage) : LoadResult :=
  match fuel with
  | O => MoreFuel
  | S fuel' =>
      let recover :=
        let r := restoreFromBackup store in
        if r.1 then loadGame fuel' now state r.2 else Returned false state store in
      match saveItem store with
      | None => Returned false state store
      | Some Unparsable => recover
      | Some (Json parsedData) =>
          if negb (validateSaveData parsedData) then recover
          else
            let store1 := createBackup now store in
            match validateAndFixState now (mergeSave state parsedData) with
            | Some state' => Returned true state' store1
            | None => NeverReturns
            end
      end
  end.

(** [new Date(timestamp).toISOString()] throws a RangeError outside the
    range of ECMAScript time values. *)
Definition validDate (timestamp : Z) : bool :=
  (-8640000000000000 <=? timestamp)%Z && (timestamp <=? 8640000000000000)%Z.

(** [restoreFromSpecificBackup(timestamp)] for an integer timestamp that
    the template string writes in decimal digits (below 10^21 in absolute
    value); [now] is the [Date.now()] of the backup it takes first.  The
    date of the log line is formatted after the save slot has been written;
    if that throws, the catch block returns false. *)
Definition restoreFromSpecificBackup (now timestamp : Z) (store : Storage)
  : bool * Storage :=
  let backupKey := "machineOfWorldsBackup_" +:+ pretty timestamp in
  match backupItems store !! backupKey with
  | Some (Json parsedBackup) =>
      if validateSaveData parsedBackup then
        let store1 := createBackup now store in
        (validDate timestamp,
         mkStorage (Some (Json parsedBackup)) (backupIndex store1) (backupItems store1))
      else (false, store)
  | Some Unparsable => (false, store)
  | None => (false, store)
  end.

End Save.

(** ** Vocabulary of the properties

    States, inputs and predicates that the statements below refer to. *)

Section UpgradeVocabulary.
Import UpgradeSystem.
#[local] Open Scope Q_scope.

(** The state of scenario C: a fresh session holding 10 heat. *)
Definition scenarioC (t0 : Q) : State :=
  with_resources (<["heat" := 10]> initialResources) (readyState t0).

(** Every upgrade level lies between 0 and its maximum. *)
Definition levels_in_range (st : State) : Prop :=
  ∀ u up, upgrades st !! u = Some up → 0 <= level up ∧ level up <= maxLevel up.

(** A whole number. *)
Definition whole (q : Q) : Prop := ∃ z : Z, q == inject_Z z.

(** Every upgrade level and every maximum is a whole number, as in every
    state that starts from a new game. *)
Definition levels_whole (st : State) : Prop :=
  ∀ u up, upgrades st !! u = Some up → whole (level up) ∧ whole (maxLevel up).

(** A state as a save can produce it: heatGenerator stands at level 9.5 of
    10, and there are 500 heat to spend. *)
Definition almostMaxed : State :=
  with_upgrades (<["heatGenerator" := mkUpgrade 9.5 10 10 None []]> defaultUpgrades)
    (with_resources (<["heat" := 500]> initialResources) (readyState 0)).

End UpgradeVocabulary.

Section ChaoticVocabulary.
Import ResourceSystem.
#[local] Open Scope Q_scope.

Variable rnd : nat → Q.

Definition set_weather (w : option string) (world : World) : World :=
  mkWorld (w_id world) (w_name world) (w_type world) (w_description world)
    (w_def world) (gravity world) (timeSpeed world) (temperature world)
    (atmosphere world) w (weatherDuration world) (specialEffects world).

(** The variance and the sign drawn by the Chaotic case when the random
    counter stands at [n]. *)
Definition chaoticVariance (n : nat) : Q := 0.25 + rnd n * 0.5.
Definition chaoticDirection (n : nat) : Q := if Num.ltb (rnd (S n)) 0.5 then -1 else 1.
Definition chaoticFactor (n : nat) : Q :=
  1 + chaoticVariance n * chaoticDirection n.

(** The heat and fuel gains of a generation call as they stand when the
    weather switch is reached: the base gains after the tier effects (read
    at random counter [i]), the two upgrade bonuses, the world bonuses and
    the climate bands. *)
Definition gainsBeforeWeather (world : World) (st : State) (hg fe : Upgrade)
    (i : nat) : Q * Q :=
  let g := (applySpecialEffects rnd world (baseGains world) i).1 in
  applyClimate world
    (g.1 * (1 + level hg * 0.1) * (getWorldBonuses st).1,
     g.2 * (1 + level fe * 0.1) * (getWorldBonuses st).2).

(** What the call does to the gains after the weather switch: the heat and
    pressure synergy, then the permanent efficiency. *)
Definition gainsAfterWeather (st : State) (g : Q * Q) : Q * Q :=
  let heat :=
    match resources st !! "pressure" with
    | Some pressure => if Num.gtb pressure 40 then g.1 * 1.3 else g.1
    | None => g.1
    end in
  (heat * resourceEfficiency (permanentBonuses st),
   g.2 * resourceEfficiency (permanentBonuses st)).

(** The starting world under Chaotic weather, and a stream whose first draw
    is 0.5 and whose later draws are 0.2. *)
Definition chaoticDesert : World := set_weather (Some "Chaotic") startingWorld.
Definition halfThenFifth (j : nat) : Q := match j with O => 0.5 | S _ => 0.2 end.

End ChaoticVocabulary.

Section EventVocabulary.
Import EventSystem.
#[local] Open Scope Q_scope.

Definition embraceResonance : Choice := choice "Embrace Resonance" "permanentEfficiency".

End EventVocabulary.

Section AchievementVocabulary.
Import AchievementSystem.
#[local] Open Scope Q_scope.

(** The requirements whose test looks at the unlocked list itself. *)
Definition reads_unlocked (r : Requirement) : bool :=
  match r with
  | ReqAchievements _ | ReqCompletion _ _ | ReqSpeed _ _ _ _ => true
  | _ => false
  end.

(** What [checkAchievements] tests for an achievement that is not
    unlocked yet. *)
Definition eligible (now : Q) (a : Achievement) (st : State) : bool :=
  negb (a_hidden a && negb (checkHiddenRequirement (a_requirement a) st))
  && checkRequirement now (a_requirement a) st.

(** The state of the counterexample: 24 achievements unlocked, 150 worlds
    created, the session started long ago. *)
Definition hunterState : State :=
  with_worldsCreated 150
    (with_ach_unlocked
       [1; 2; 3; 4; 5; 6; 7; 8; 9; 10; 11; 12; 13; 14; 15; 16; 17; 18; 19; 20; 21; 22;
        23; 27]%Z
       (readyState 1)).
Definition hunterClock : Q := 10000000.

(** A state whose definitions stop before the first requirement that looks
    at the unlocked list (Speed Runner, 31). *)
Definition earlyDefinitions : State :=
  mkState 0 (<["heat" := 150]> initialResources) defaultUpgrades (Some startingWorld)
    [0%Z] 0 [] [] (mkBonuses 1 1) [] (take 30 achievementDefinitions) (initialTracking 1).

End AchievementVocabulary.

Section LedgerVocabulary.
Import GameState.
#[local] Open Scope Q_scope.

(** What one pass of the cap loop does to an amount. *)
Definition clamp (cap : option Q) (v : Q) : Q :=
  let v1 := match cap with
            | Some c => if Num.gtb v c then c else v
            | None => v
            end in
  if Num.ltb v1 0 then 0 else v1.

(** The names the cap loop runs over. *)
Definition cappedNames : list string := ["heat"; "fuel"; "pressure"; "energy"; "stability"].

(** No name in play collides with [Object.prototype]: the state holds no
    resource named hasOwnProperty, and the deltas name neither
    hasOwnProperty nor __proto__. *)
Definition ordinaryNames (res : gmap string Q) (deltas : list (string * Q)) : Prop :=
  res !! "hasOwnProperty" = None
  ∧ ("hasOwnProperty" ∉ deltas.*1)
  ∧ ("__proto__" ∉ deltas.*1).

(** The amount a credit of [a] leaves under a name. *)
Definition creditedAmount (res : gmap string Q) (k : string) (a : Q) : Q :=
  match res !! k with Some have => have + a | None => a end.

End LedgerVocabulary.

Section SessionVocabulary.
Import Session.
#[local] Open Scope Q_scope.

(** The state of scenario B: a fresh session credited with 50 heat and
    25 fuel; the credit unlocks Ocean Planet. *)
Definition scenarioB (t0 : Q) : State :=
  outcome_state (GameState.addResources [("heat", 50); ("fuel", 25)] (readyState t0)).

(** A continuation of scenario B: a purchase, a click, a return to the
    starting world. *)
Definition afterOcean : list Action :=
  [UpgradeResource "heatGenerator" "heat"; GenerateResource "heat"; SelectWorld 0].

(** The actions of the failing session: seven clicks on heat and four on
    fuel (which unlock Ocean Planet), one purchase, and the selection of
    Ocean Planet. *)
Definition overdraft : list Action :=
  replicate 7 (GenerateResource "heat") ++ replicate 4 (GenerateResource "fuel")
  ++ [UpgradeResource "heatGenerator" "heat"; SelectWorld 1].

End SessionVocabulary.

Section SaveVocabulary.
Import Save.
#[local] Open Scope Q_scope.

(** A save is unusable when it does not parse or does not validate. *)
Definition unusable (item : Item) : Prop :=
  match item with
  | Unparsable => True
  | Json v => validateSaveData v = false
  end.

(** A save that [validateSaveData] accepts although its [worldsCreated] is
    not finite: the text [{"worldsCreated":1e999,"resources":{},"upgrades":{}}]. *)
Definition infiniteWorlds : value :=
  obj [("worldsCreated", VNum PosInf); ("resources", obj []); ("upgrades", obj [])].

Definition emptyStorage : Storage := mkStorage None None ∅.

(** The starting state with 500 heat and heatGenerator at level 9.5, as a
    save. *)
Definition halfLevelSave : value :=
  VObj (<["resources" :=
            VObj (<["heat" := num 500]> (fields (get constructorState "resources")))]>
       (<["upgrades" :=
            VObj (<["heatGenerator" :=
                      obj [("level", num 9.5); ("maxLevel", num 10); ("baseCost", num 10)]]>
                    (fields (get constructorState "upgrades")))]>
          (fields constructorState))).

(** The nested objects that [loadGame] merges property by property. *)
Definition mergedObjects : list string :=
  ["upgrades"; "resources"; "permanentBonuses"; "worldTiers"; "unlocks";
   "achievements"; "settings"].

(** The first load of a session that saved its starting state. *)
Definition firstLoad : LoadResult :=
  loadGame 2 2 constructorState (saveGame 1 constructorState emptyStorage).

(** The state of a session after its first load. *)
Definition loadedOnce : value :=
  match loadGame 1 2 constructorState (saveGame 1 constructorState emptyStorage) with
  | Returned _ st _ => st
  | _ => VUndef
  end.

Definition loadedFields : gmap string value := fields loadedOnce.

(** Every property of [small] is a property of [big]. *)
Definition covers (big small : gmap string value) : Prop :=
  ∀ k, is_Some (small !! k) → is_Some (big !! k).

(** A state validateAndFixState finds nothing to do on: the world history
    is an array and no migration is due (it is not empty, or no world was
    created), each of the six upgrades is an object with every property of
    its default entry, activeEvents is set, and the five basic resources
    exist. *)
Definition needsNoRepair (m : gmap string value) : Prop :=
  (∃ l, m !! "worldHistory" = Some (VArr l)
        ∧ (l = [] → greaterThanZero (default VUndef (m !! "worldsCreated")) = false))
  ∧ (∀ k d, (k, d) ∈ defaultUpgradesV →
       ∃ u, fields (default VUndef (m !! "upgrades")) !! k = Some (VObj u)
            ∧ covers u (fields d))
  ∧ (∃ ev, m !! "activeEvents" = Some ev ∧ truthy ev = true)
  ∧ covers (fields (default VUndef (m !! "resources"))) (fields defaultResourcesV).

(** A state some way into a game: one world created and current, 46 heat
    and 32 fuel, heatGenerator bought once. *)
Definition playedFields : gmap string value :=
  <["currentWorld" :=
      obj [("id", num 1); ("type", str "Desert"); ("tier", num 1);
           ("gravity", num 1.2); ("timeSpeed", num 0.9); ("temperature", num 60);
           ("atmosphere", num 25); ("weather", str "Chaotic");
           ("weatherDuration", num 7)]]>
  (<["worldsCreated" := num 1]>
  (<["worldHistory" :=
       VArr [obj [("id", num 1); ("type", str "Desert"); ("tier", num 1)]]]>
  (<["resources" :=
       VObj (<["heat" := num 46]>
            (<["fuel" := num 32]> (fields (get loadedOnce "resources"))))]>
  (<["upgrades" :=
       VObj (<["heatGenerator" :=
                 obj [("level", num 1); ("maxLevel", num 10); ("baseCost", num 10)]]>
               (fields (get loadedOnce "upgrades")))]>
     loadedFields)))).

(** A save that differs from the starting state in one amount: 150
    pressure.  It passes validation. *)
Definition overPressure : value :=
  VObj (<["resources" :=
            VObj (<["pressure" := num 150]> (fields (get constructorState "resources")))]>
          (fields constructorState)).

Definition overPressureStorage : Storage :=
  mkStorage (Some (Json overPressure)) None ∅.

End SaveVocabulary.

Section CapVocabulary.
Import GameState.
#[local] Open Scope Q_scope.

(** An amount the loop of enforceResourceCaps would change: above its cap
    or below zero. *)
Definition outOfRange (cap : option Q) (have : option Q) : bool :=
  match have with
  | Some v =>
      match cap with Some c => Num.gtb v c | None => false end || Num.ltb v 0
  | None => false
  end.

End CapVocabulary.

Section UnlockVocabulary.
Import UpgradeSystem.

(** The four blocks of checkUpgradeUnlocksFixed, in their order: the
    upgrade each one may unlock, and its condition. *)
Definition unlockBlocks (res : gmap string Q)
  : list (string * (Upgrade → gmap string Upgrade → bool)) :=
  [ ("thermalAccelerator",
     λ u ups, levelReaches ups "heatGenerator" (requires u "requiresHeat")
              && amountReaches res "pressure" (requires u "requiresPressure"));
    ("fuelSynchronizer",
     λ u ups, levelReaches ups "fuelEfficiency" (requires u "requiresFuel")
              && amountReaches res "energy" (requires u "requiresEnergy"));
    ("pressureValve",
     λ u ups, amountReaches res "stability" (requires u "requiresStability")
              && amountReaches res "pressure" (requires u "requiresPressure"));
    ("energyMatrix",
     λ u ups, levelReaches ups "heatGenerator" (requires u "requiresHeat")
              && levelReaches ups "fuelEfficiency" (requires u "requiresFuel")) ].

(** What a block leaves of an entry: the flag raised if the entry was
    locked and the condition holds. *)
Definition unlocked_when (fires : Upgrade → bool) (u : Upgrade) : Upgrade :=
  if isLocked u && fires u then set_unlocked u else u.

(** Two upgrade tables with the same levels. *)
Definition same_levels (ups ups' : gmap string Upgrade) : Prop :=
  ∀ name, level <$> ups !! name = level <$> ups' !! name.

(** The cross-resource upgrades. *)
Definition crossUpgrades : list string :=
  ["thermalAccelerator"; "fuelSynchronizer"; "pressureValve"; "energyMatrix"].

(** The state holds the four cross-resource upgrades with the gates the
    constructor gives them. *)
Definition standardGates (st : State) : Prop :=
  ∀ name d, name ∈ crossUpgrades → defaultUpgrades !! name = Some d →
    ∃ u, upgrades st !! name = Some u ∧ gates u = gates d.

Definition isUnlocked (st : State) (name : string) : bool :=
  match upgrades st !! name with
  | Some u => default false (unlocked u)
  | None => false
  end.

Definition levelOf (st : State) (name : string) : Q :=
  match upgrades st !! name with Some u => level u | None => 0 end.

Definition amountOf (st : State) (name : string) : Q :=
  default 0%Q (resources st !! name).

(** The number of active events that make upgrades cheaper. *)
Definition cheapEvents (st : State) : nat :=
  length (filter (λ ev, isCheapUpgrade ev = true) (activeEvents st)).

(** The cross-resource upgrades whose purchase has an effect on resources. *)
Definition hasCrossEffect (upgradeType : string) : bool :=
  String.eqb upgradeType "fuelSynchronizer" || String.eqb upgradeType "pressureValve"
  || String.eqb upgradeType "energyMatrix".

(** A state in which Lucky Calibration is active. *)
Definition calibrated : State :=
  with_activeEvents [mkActiveEvent "Lucky Calibration" "cheapUpgrades" 10 10 None]
    (readyState 0).

End UnlockVocabulary.

Section SessionEventVocabulary.
Import Session.
#[local] Open Scope Q_scope.

(** The part of the state that only the event system writes. *)
Definition untouchedByEvents (st : State) : Prop :=
  activeEvents st = [] ∧ eventHistory st = [] ∧ permanentBonuses st = mkBonuses 1 1.

(** One action leaves an upgrade entry as it is or raises its level by
    one. *)
Definition entries_step (st st' : State) : Prop :=
  ∀ u up', upgrades st' !! u = Some up' →
    ∃ up, upgrades st !! u = Some up
          ∧ maxLevel up' = maxLevel up
          ∧ (level up' = level up ∨ level up' = level up + 1).

End SessionEventVocabulary.

Section EventTimeVocabulary.
Import EventSystem.
#[local] Open Scope Q_scope.

(** [n] calls of updateActiveEvents, as Game.js wires the event system. *)
Definition ticks (n : nat) (st : State) : State :=
  Nat.iter n (λ s, outcome_state (updateActiveEvents GameStateInstance s)) st.

(** An active event [n] turns later. *)
Definition later (n : nat) (ev : ActiveEvent) : ActiveEvent :=
  mkActiveEvent (ev_name ev) (ev_effect ev) (ev_duration ev - Z.of_nat n)
    (ev_originalDuration ev) (ev_value ev).

(** The effects that applyEventMultipliers knows. *)
Definition boostEffects : list string :=
  ["heatBoost"; "fuelBoost"; "allResourceBoost"; "overclock"].

(** A state in which the Boost Pressure choice of Resource Surge is active. *)
Definition pressureBoosted : State :=
  with_activeEvents [mkActiveEvent "Resource Surge" "pressureBoost" 3 3 None]
    (readyState 0).

(** The names loseHighestResource compares. *)
Definition comparedResources : list string := ["heat"; "fuel"; "pressure"; "energy"].

(** The rarities an event is drawn from. *)
Definition rarities : list string :=
  ["negative"; "common"; "uncommon"; "rare"; "ultraRare"].

End EventTimeVocabulary.

Section TrackingVocabulary.
Import AchievementSystem.

(** The clicks counted so far. *)
Definition clicks (st : State) : Z := totalClicks (tracking st).

End TrackingVocabulary.

Section BackupVocabulary.
Import Save.

(** The storage key of the backup taken at [timestamp]. *)
Definition backupKeyOf (timestamp : Z) : string :=
  "machineOfWorldsBackup_" +:+ pretty timestamp.

(** The top-level properties validateSaveData looks at. *)
Definition validatedProperties : list string :=
  ["worldsCreated"; "resources"; "upgrades"; "worldHistory"].

(** A save with a negative amount of water. *)
Definition negativeWater : value :=
  VObj (<["resources" :=
            VObj (<["water" := num (-5)]> (fields (get constructorState "resources")))]>
          (fields constructorState)).

End BackupVocabulary.

Section FixVocabulary.
Import Save.
#[local] Open Scope Q_scope.

(** What validateAndFixState leaves under the four properties it writes. *)
Definition fixedHistory (now : Z) (m : gmap string value) : option value :=
  let history := default VUndef (m !! "worldHistory") in
  let worldsCreated := default VUndef (m !! "worldsCreated") in
  if (negb (truthy history) || isZero (get history "length"))
     && greaterThanZero worldsCreated
  then placeholderHistory now worldsCreated
  else Some (if truthy history then history else VArr []).

Definition fixedUpgrades (m : gmap string value) : gmap string value :=
  foldl fixUpgrade (fields (default VUndef (m !! "upgrades"))) defaultUpgradesV.

Definition fixedEvents (m : gmap string value) : value :=
  let events := default VUndef (m !! "activeEvents") in
  if truthy events then events else VArr [].

Definition fixedResources (m : gmap string value) : value :=
  spread defaultResourcesV (default VUndef (m !! "resources")).

(** The properties validateAndFixState writes. *)
Definition fixedProperties : list string :=
  ["worldHistory"; "upgrades"; "activeEvents"; "resources"].

End FixVocabulary.

(* ================================================================== *)
(* THEOREMS                                                            *)
(* ================================================================== *)

(** ** Comparisons on numbers *)

Lemma geb_true (a b : Q) : Num.geb a b = true ↔ (b <= a)%Q.
Proof. unfold Num.geb. apply Qle_bool_iff. Qed.

Lemma ltb_true (a b : Q) : Num.ltb a b = true ↔ (a < b)%Q.
Proof.
  unfold Num.ltb. rewrite negb_true_iff. split.
  - intros H. apply Qnot_le_lt. intros Hle. apply Qle_bool_iff in Hle. congruence.
  - intros H. destruct (Qle_bool b a) eqn:E; [|reflexivity].
    apply Qle_bool_iff in E. exfalso. apply (Qlt_not_le _ _ H E).
Qed.

Lemma ltb_false (a b : Q) : Num.ltb a b = false ↔ (b <= a)%Q.
Proof.
  unfold Num.ltb. rewrite negb_false_iff. apply Qle_bool_iff.
Qed.

Lemma gtb_true (a b : Q) : Num.gtb a b = true ↔ (b < a)%Q.
Proof. apply (ltb_true b a). Qed.

Lemma gtb_false (a b : Q) : Num.gtb a b = false ↔ (a <= b)%Q.
Proof. apply (ltb_false b a). Qed.

(** ** The floor of a scaled power *)

Section Roots.
#[local] Open Scope Z_scope.

Lemma iroot_aux_spec (d : positive) (fuel : nat) (m : Z) :
  0 <= m < 2 ^ Z.of_nat fuel →
  0 <= Num.iroot_aux fuel d m
  ∧ Num.iroot_aux fuel d m ^ Z.pos d <= m < (Num.iroot_aux fuel d m + 1) ^ Z.pos d.
Proof.
  revert m. induction fuel as [|fuel IH]; intros m [H0 Hlt].
  - change (2 ^ Z.of_nat 0) with 1 in Hlt. assert (m = 0) as -> by lia.
    cbn [Num.iroot_aux]. rewrite Z.pow_0_l by lia. rewrite Z.add_0_l, Z.pow_1_l by lia. lia.
  - cbn [Num.iroot_aux]. destruct (m <=? 0) eqn:Hm.
    + apply Z.leb_le in Hm. assert (m = 0) as -> by lia.
      rewrite Z.pow_0_l by lia. rewrite Z.add_0_l, Z.pow_1_l by lia. lia.
    + apply Z.leb_gt in Hm.
      assert (2 <= 2 ^ Z.pos d) as Hbig.
      { change 2 with (2 ^ 1) at 1. apply Z.pow_le_mono_r; lia. }
      set (P := 2 ^ Z.pos d) in *.
      set (m' := m / P).
      assert (P * m' <= m) as Hlow by (apply Z.mul_div_le; lia).
      assert (m < P * Z.succ m') as Hhigh by (apply Z.mul_succ_div_gt; lia).
      assert (0 <= m') as Hm0 by (apply Z.div_pos; lia).
      assert (m' < 2 ^ Z.of_nat fuel) as Hm1.
      { rewrite Nat2Z.inj_succ, Z.pow_succ_r in Hlt by lia. nia. }
      destruct (IH m' (conj Hm0 Hm1)) as (Hr0 & Hr1 & Hr2).
      set (r' := Num.iroot_aux fuel d m') in *.
      assert ((2 * r') ^ Z.pos d = P * r' ^ Z.pos d) as E1 by apply Z.pow_mul_l.
      assert ((2 * r' + 1 + 1) ^ Z.pos d = P * (r' + 1) ^ Z.pos d) as E2.
      { replace (2 * r' + 1 + 1) with (2 * (r' + 1)) by lia. apply Z.pow_mul_l. }
      destruct ((2 * r' + 1) ^ Z.pos d <=? m) eqn:Hstep.
      * apply Z.leb_le in Hstep. split; [lia|]. split; [exact Hstep|].
        rewrite E2. nia.
      * apply Z.leb_gt in Hstep. split; [lia|]. split; [|exact Hstep].
        rewrite E1. nia.
Qed.

Lemma iroot_spec (d : positive) (m : Z) :
  0 <= m →
  0 <= Num.iroot d m ∧ Num.iroot d m ^ Z.pos d <= m < (Num.iroot d m + 1) ^ Z.pos d.
Proof.
  intros Hm. unfold Num.iroot. apply iroot_aux_spec. split; [exact Hm|].
  rewrite Nat2Z.inj_succ, Z2Nat.id by apply Z.log2_nonneg.
  destruct (Z.eq_dec m 0) as [->|Hne]; [done|].
  apply Z.log2_spec. lia.
Qed.

End Roots.

Section ScaledPower.
#[local] Open Scope Q_scope.

Lemma Qpower_inject_Z (k : Z) (d : positive) :
  Qpower (inject_Z k) (Z.pos d) = inject_Z (k ^ Z.pos d).
Proof.
  unfold inject_Z. cbn [Qpower]. rewrite Qpower_decomp_positive.
  assert ((1 ^ d)%positive = 1%positive) as ->; [|reflexivity].
  apply Pos2Z.inj. rewrite Pos2Z.inj_pow. apply Z.pow_1_l. lia.
Qed.

(** [floor_root d y] is the floor of the d-th root of y. *)
Lemma floor_root_spec (d : positive) (y : Q) :
  0 <= y →
  (0 <= Num.floor_root d y)%Z
  ∧ Qpower (inject_Z (Num.floor_root d y)) (Z.pos d) <= y
  ∧ y < Qpower (inject_Z (Num.floor_root d y + 1)) (Z.pos d).
Proof.
  destruct y as [N D]. intros Hy.
  assert (0 <= N)%Z as HN by (unfold Qle in Hy; simpl in Hy; lia).
  unfold Num.floor_root. cbn [Qnum Qden].
  set (W := (Z.pos D ^ (Z.pos d - 1))%Z).
  assert (0 < W)%Z as HW by (apply Z.pow_pos_nonneg; lia).
  assert (Z.pos D ^ Z.pos d = Z.pos D * W)%Z as HD.
  { unfold W. rewrite <- Z.pow_succ_r by lia. f_equal. lia. }
  destruct (iroot_spec d (N * W)%Z ltac:(nia)) as (Hr0 & Hr1 & Hr2).
  set (r := Num.iroot d (N * W)) in *.
  set (k := (r / Z.pos D)%Z).
  assert (Z.pos D * k <= r)%Z as Hlow by (apply Z.mul_div_le; lia).
  assert (r < Z.pos D * Z.succ k)%Z as Hhigh by (apply Z.mul_succ_div_gt; lia).
  assert (0 <= k)%Z as Hk by (apply Z.div_pos; lia).
  assert ((Z.pos D * k) ^ Z.pos d <= r ^ Z.pos d)%Z as H1
    by (apply Z.pow_le_mono_l; lia).
  assert ((r + 1) ^ Z.pos d <= (Z.pos D * (k + 1)) ^ Z.pos d)%Z as H2
    by (apply Z.pow_le_mono_l; lia).
  rewrite Z.pow_mul_l, HD in H1, H2.
  split; [exact Hk|]. rewrite !Qpower_inject_Z. unfold Qle, Qlt. cbn [Qnum Qden inject_Z].
  split; nia.
Qed.

Lemma Qred_lowest (q : Q) : Z.gcd (Qnum q) (QDen q) = 1%Z → Qred q = q.
Proof.
  destruct q as [n d]. cbn [Qnum Qden]. intros Hgcd. unfold Qred.
  pose proof (Z.ggcd_gcd n (Z.pos d)) as Hg.
  pose proof (Z.ggcd_correct_divisors n (Z.pos d)) as Hd.
  destruct (Z.ggcd n (Z.pos d)) as [g [aa bb]]. cbn [fst] in Hg.
  rewrite Hgcd in Hg. subst g. destruct Hd as [Ha Hb].
  rewrite Z.mul_1_l in Ha, Hb. subst aa bb. reflexivity.
Qed.

Lemma Qred_inject_Z (n : Z) : Qred (inject_Z n) = inject_Z n.
Proof. apply Qred_lowest. simpl. apply Z.gcd_1_r. Qed.

(** At a whole exponent the value is the floor of the rational power. *)
Lemma floor_scaled_pow_whole (c b e : Q) (n : Z) :
  e == inject_Z n → Num.floor_scaled_pow c b e = Num.floor (c * Qpower b n).
Proof.
  intros He. unfold Num.floor_scaled_pow.
  rewrite (Qred_complete _ _ He), Qred_inject_Z. reflexivity.
Qed.

(** In general it is the integer k with k <= c * b^(n/d) < k + 1, stated
    through d-th powers; n/d is the exponent in lowest terms. *)
Lemma floor_scaled_pow_spec (c b e : Q) :
  0 <= c → 0 < b →
  let n := Qnum (Qred e) in
  let d := Z.pos (Qden (Qred e)) in
  ∃ k : Z,
    Num.floor_scaled_pow c b e = inject_Z k
    ∧ (0 <= k)%Z
    ∧ Qpower (inject_Z k) d <= Qpower c d * Qpower b n
    ∧ Qpower c d * Qpower b n < Qpower (inject_Z (k + 1)) d.
Proof.
  intros Hc Hb n d. subst n d. unfold Num.floor_scaled_pow.
  set (n := Qnum (Qred e)). set (d := Qden (Qred e)).
  assert (0 <= Qpower b n) as Hpow by (apply Qpower_pos; by apply Qlt_le_weak).
  assert (∀ dd : positive,
            let y := Qred (Qpower (Qabs c) (Z.pos dd) * Qpower b n) in
            (0 <= Num.floor_root dd y)%Z
            ∧ Qpower (inject_Z (Num.floor_root dd y)) (Z.pos dd)
              <= Qpower c (Z.pos dd) * Qpower b n
            ∧ Qpower c (Z.pos dd) * Qpower b n
              < Qpower (inject_Z (Num.floor_root dd y + 1)) (Z.pos dd)) as Hroot.
  { intros dd y.
    assert (y == Qpower c (Z.pos dd) * Qpower b n) as Hy.
    { unfold y. rewrite Qred_correct. by rewrite (Qabs_pos c Hc). }
    assert (0 <= y) as Hy0.
    { rewrite Hy. apply Qmult_le_0_compat; [by apply Qpower_pos|done]. }
    destruct (floor_root_spec dd y Hy0) as (H0 & H1 & H2).
    split; [exact H0|]. by rewrite <- Hy. }
  assert (Qle_bool 0 c = true) as Hcb by (by apply Qle_bool_iff).
  destruct d as [dd|dd|] eqn:Hd.
  - rewrite Hcb. destruct (Hroot (dd~1)%positive) as (H0 & H1 & H2). by eexists.
  - rewrite Hcb. destruct (Hroot (dd~0)%positive) as (H0 & H1 & H2). by eexists.
  - exists (Qfloor (c * Qpower b n)). split; [reflexivity|].
    assert (0 <= c * Qpower b n) as Hx by (by apply Qmult_le_0_compat).
    split.
    { rewrite <- (Qfloor_Z 0). by apply Qfloor_resp_le. }
    change (Qpower c (Z.pos 1)) with c.
    change (Qpower (inject_Z (Qfloor (c * Qpower b n))) (Z.pos 1))
      with (inject_Z (Qfloor (c * Qpower b n))).
    change (Qpower (inject_Z (Qfloor (c * Qpower b n) + 1)) (Z.pos 1))
      with (inject_Z (Qfloor (c * Qpower b n) + 1)).
    split; [apply Qfloor_le|apply Qlt_floor].
Qed.

Lemma Qred_succ (e : Q) :
  Qred (e + 1) = (Qnum (Qred e) + QDen (Qred e)) # Qden (Qred e).
Proof.
  transitivity (Qred ((Qnum (Qred e) + QDen (Qred e)) # Qden (Qred e))).
  - apply Qred_complete. rewrite <- (Qred_correct e) at 1.
    destruct (Qred e) as [n d]. unfold Qeq, Qplus. cbn [Qnum Qden]. nia.
  - apply Qred_lowest. cbn [Qnum Qden].
    rewrite Z.gcd_comm, Z.gcd_add_diag_r, Z.gcd_comm. apply gcd_Qred.
Qed.

(** One level more never lowers the value, for a base of at least 1. *)
Lemma floor_scaled_pow_succ (c b e : Q) :
  0 <= c → 1 <= b →
  Num.floor_scaled_pow c b e <= Num.floor_scaled_pow c b (e + 1).
Proof.
  intros Hc Hb. assert (0 < b) as Hb0 by lra.
  destruct (floor_scaled_pow_spec c b e Hc Hb0) as (k & -> & Hk0 & Hk1 & _).
  destruct (floor_scaled_pow_spec c b (e + 1) Hc Hb0) as (k' & -> & Hk0' & _ & Hk2).
  rewrite Qred_succ in Hk2. cbn [Qnum Qden] in Hk2.
  set (n := Qnum (Qred e)) in *. set (d := Qden (Qred e)) in *.
  assert (Qpower b n <= Qpower b (n + Z.pos d)) as Hmono
    by (apply Qpower_le_compat_l; [lia|done]).
  assert (0 <= Qpower c (Z.pos d)) as Hcd by (by apply Qpower_0_le).
  assert (Qpower (inject_Z k) (Z.pos d) < Qpower (inject_Z (k' + 1)) (Z.pos d)) as Hlt.
  { eapply Qle_lt_trans; [exact Hk1|]. eapply Qle_lt_trans; [|exact Hk2].
    set (x := Qpower b n) in *. set (x' := Qpower b (n + Z.pos d)) in *.
    set (cd := Qpower c (Z.pos d)) in *. nra. }
  rewrite !Qpower_inject_Z, <- Zlt_Qlt in Hlt.
  rewrite <- Zle_Qle.
  destruct (Z_le_gt_dec k k') as [Hle|Hgt]; [exact Hle|]. exfalso.
  assert ((k' + 1) ^ Z.pos d <= k ^ Z.pos d)%Z by (apply Z.pow_le_mono_l; lia).
  lia.
Qed.

End ScaledPower.

(** ** UpgradeSystem: cost curve and purchase *)

Section Upgrades.
Import UpgradeSystem.
#[local] Open Scope Q_scope.

Lemma cheap_fold_id (evs : list ActiveEvent) (c : Q) :
  (∀ ev, ev ∈ evs → isCheapUpgrade ev = false) →
  foldl (λ c ev, if isCheapUpgrade ev then c * 0.5 else c) c evs = c.
Proof.
  revert c. induction evs as [|ev evs IH]; intros c Hall; [reflexivity|].
  simpl. rewrite (Hall ev) by (left). apply IH.
  intros e He. apply Hall. by right.
Qed.

Lemma floor_scaled_pow_integral (c b e : Q) :
  ∃ z : Z, Num.floor_scaled_pow c b e = inject_Z z.
Proof.
  unfold Num.floor_scaled_pow, Num.floor.
  destruct (Qden (Qred e)); try destruct (Qle_bool 0 c); by eexists.
Qed.

Lemma getUpgradeCost_unreduced (st : State) (u : string) (up : Upgrade) :
  upgrades st !! u = Some up →
  upgradeCostReduction (permanentBonuses st) == 1 →
  (∀ ev, ev ∈ activeEvents st → isCheapUpgrade ev = false) →
  getUpgradeCost st u = Num.floor_scaled_pow (baseCost up) 1.5 (level up).
Proof.
  intros Hu Hred Hev. unfold getUpgradeCost. rewrite Hu.
  rewrite cheap_fold_id by exact Hev.
  destruct (floor_scaled_pow_integral (baseCost up) 1.5 (level up)) as [z ->].
  unfold Num.floor. f_equal.
  transitivity (Qfloor (inject_Z z)); [|apply Qfloor_Z].
  apply Qfloor_comp. rewrite Hred. ring.
Qed.

Lemma getUpgradeCost_unreduced_whole (st : State) (u : string) (up : Upgrade) (L : Z) :
  upgrades st !! u = Some up →
  upgradeCostReduction (permanentBonuses st) == 1 →
  (∀ ev, ev ∈ activeEvents st → isCheapUpgrade ev = false) →
  level up == inject_Z L →
  getUpgradeCost st u = Num.floor (baseCost up * Qpower 1.5 L).
Proof.
  intros Hu Hred Hev HL. rewrite (getUpgradeCost_unreduced st u up) by done.
  by apply floor_scaled_pow_whole.
Qed.

(** What a purchase stores: the same entry, one level higher. *)
Lemma upgradeResource_success (st : State) (u r : string) (up : Upgrade) (have : Q) :
  upgrades st !! u = Some up →
  resources st !! r = Some have →
  (upgradeResource u r st).1 = true →
  (upgradeResource u r st).2
  = with_upgrades (<[u := set_level (level up + 1) up]> (upgrades st))
      (with_resources (<[r := have - getUpgradeCost st u]> (resources st)) st).
Proof.
  intros Hu Hr. unfold upgradeResource. rewrite Hu, Hr.
  by destruct (Num.geb have (getUpgradeCost st u) && Num.ltb (level up) (maxLevel up)).
Qed.

Lemma whole_succ (q : Q) : whole q → whole (q + 1).
Proof.
  intros [z Hz]. exists (z + 1)%Z. rewrite Hz, inject_Z_plus. reflexivity.
Qed.

(** Between whole numbers, below means at least one below. *)
Lemma whole_lt_succ_le (a b : Q) : whole a → whole b → a < b → a + 1 <= b.
Proof.
  intros [x Hx] [y Hy] Hlt. rewrite Hx, Hy in *.
  rewrite <- Zlt_Qlt in Hlt. change 1 with (inject_Z 1).
  rewrite <- inject_Z_plus, <- Zle_Qle. lia.
Qed.

End Upgrades.

Section UpgradeClaims.
Import UpgradeSystem.
#[local] Open Scope Q_scope.

(** C5. With no cost reduction in force (the permanent multiplier is 1 and
    no cheapUpgrade / cheapUpgrades event is active) the purchase cost of an
    upgrade with base cost B at a whole level L is floor(B * 1.5^L).  At a
    fractional level n/d, which only a save can bring in, it is still the
    floor of B * 1.5^(n/d): the integer k with k^d <= B^d * 1.5^n < (k+1)^d.
    In scenario C, heatGenerator (level 0, base cost 10) costs 10; buying it
    with 10 heat succeeds, leaves level 1 and 0 heat, and the next cost is
    15. *)
Theorem C5_cost_curve (st : State) (u : string) (up : Upgrade) (t0 : Q) :
  upgrades st !! u = Some up →
  upgradeCostReduction (permanentBonuses st) == 1 →
  (∀ ev, ev ∈ activeEvents st → isCheapUpgrade ev = false) →
  (∀ L : Z, level up == inject_Z L →
     getUpgradeCost st u = Num.floor (baseCost up * Qpower 1.5 L))
  ∧ (0 <= baseCost up →
     ∃ k : Z,
       getUpgradeCost st u = inject_Z k
       ∧ Qpower (inject_Z k) (QDen (Qred (level up)))
         <= Qpower (baseCost up) (QDen (Qred (level up)))
            * Qpower 1.5 (Qnum (Qred (level up)))
       ∧ Qpower (baseCost up) (QDen (Qred (level up)))
         * Qpower 1.5 (Qnum (Qred (level up)))
         < Qpower (inject_Z (k + 1)) (QDen (Qred (level up))))
  ∧ upgrades (scenarioC t0) !! "heatGenerator" = Some (mkUpgrade 0 10 10 None [])
  ∧ getUpgradeCost (scenarioC t0) "heatGenerator" = 10
  ∧ ∃ st1, upgradeResource "heatGenerator" "heat" (scenarioC t0) = (true, st1)
      ∧ level <$> upgrades st1 !! "heatGenerator" = Some 1
      ∧ resources st1 !! "heat" = Some 0
      ∧ getUpgradeCost st1 "heatGenerator" = 15.
Proof.
  intros Hu Hred Hev.
  split; [intros L HL; by apply (getUpgradeCost_unreduced_whole st u up)|].
  split.
  { intros HB. rewrite (getUpgradeCost_unreduced st u up) by done.
    destruct (floor_scaled_pow_spec (baseCost up) 1.5 (level up) HB ltac:(lra))
      as (k & Hk & _ & Hlow & Hhigh).
    exists k. split; [exact Hk|]. split; [exact Hlow|exact Hhigh]. }
  split; [reflexivity|]. split; [vm_compute; reflexivity|].
  eexists. split; [vm_compute; reflexivity|]. repeat split; vm_compute; reflexivity.
Qed.

Lemma C5_cost_curve_witness :
  getUpgradeCost (scenarioC 0) "heatGenerator" = Num.floor (10 * Qpower 1.5 0).
Proof.
  refine (proj1 (C5_cost_curve (scenarioC 0) "heatGenerator"
                   (mkUpgrade 0 10 10 None []) 0 _ _ _) 0%Z _).
  - reflexivity.
  - reflexivity.
  - intros ev Hev. vm_compute in Hev. inversion Hev.
  - reflexivity.
Defined.

(** C2, as stated, fails on levels that are not whole numbers.  Save
    validation accepts a level of 9.5; with the maximum at 10 the test
    level < maxLevel passes, the purchase goes through (it costs
    floor(10 * 1.5^9.5) = 470 heat) and the level stored is 10.5: levels
    were within 0..maxLevel before the purchase and are not after it. *)
Lemma C2_fractional_level_passes_maximum :
  Save.validateSaveData halfLevelSave = true
  ∧ levels_in_range almostMaxed
  ∧ getUpgradeCost almostMaxed "heatGenerator" = 470
  ∧ (upgradeResource "heatGenerator" "heat" almostMaxed).1 = true
  ∧ level <$> upgrades (upgradeResource "heatGenerator" "heat" almostMaxed).2
                !! "heatGenerator"
    = Some 10.5
  ∧ maxLevel <$> upgrades (upgradeResource "heatGenerator" "heat" almostMaxed).2
                   !! "heatGenerator"
    = Some 10
  ∧ ¬ levels_in_range (upgradeResource "heatGenerator" "heat" almostMaxed).2.
Proof.
  split; [vm_compute; reflexivity|].
  split.
  { intros u up Hu. unfold almostMaxed in Hu. cbn [upgrades with_upgrades] in Hu.
    unfold defaultUpgrades in Hu. simpl in Hu.
    repeat (rewrite lookup_insert in Hu; case_decide;
            [injection Hu as <-; split; by vm_compute|]).
    rewrite lookup_empty in Hu. discriminate. }
  split; [vm_compute; reflexivity|].
  split; [vm_compute; reflexivity|].
  assert (level <$> upgrades (upgradeResource "heatGenerator" "heat" almostMaxed).2
                      !! "heatGenerator" = Some 10.5) as Hlevel
    by (vm_compute; reflexivity).
  assert (maxLevel <$> upgrades (upgradeResource "heatGenerator" "heat" almostMaxed).2
                         !! "heatGenerator" = Some 10) as Hmax
    by (vm_compute; reflexivity).
  split; [exact Hlevel|]. split; [exact Hmax|].
  intros Hrange.
  destruct (upgrades (upgradeResource "heatGenerator" "heat" almostMaxed).2
              !! "heatGenerator") as [up|] eqn:Hup; [|discriminate].
  destruct (Hrange _ _ Hup) as [_ Hle].
  injection Hlevel as Hl. injection Hmax as Hm. rewrite Hl, Hm in Hle.
  unfold Qle in Hle. simpl in Hle. lia.
Qed.

(** C2 (amended). upgradeResource(u, r) on an existing upgrade u succeeds
    exactly when resources[r] >= getUpgradeCost(u) and u.level < u.maxLevel.
    On success the entry stored for u has a level higher by exactly one and
    is otherwise the same, r holds the old amount less the cost, and no
    other upgrade, resource or part of the state changes; on failure (in
    particular at level = maxLevel) the call returns false and the state is
    untouched.  When levels and maximum levels are whole numbers they stay
    whole and within 0..maxLevel. *)
Theorem C2_upgradeResource (st : State) (u r : string) (up : Upgrade) :
  upgrades st !! u = Some up →
  let cost := getUpgradeCost st u in
  let res := upgradeResource u r st in
  (res.1 = true ↔
     (∃ have, resources st !! r = Some have ∧ cost <= have)
     ∧ level up < maxLevel up)
  ∧ (res.1 = true →
       ∃ have up',
         resources st !! r = Some have
         ∧ upgrades res.2 !! u = Some up'
         ∧ level up' = level up + 1
         ∧ maxLevel up' = maxLevel up
         ∧ baseCost up' = baseCost up
         ∧ unlocked up' = unlocked up
         ∧ gates up' = gates up
         ∧ resources res.2 !! r = Some (have - cost)
         ∧ (∀ u', u' ≠ u → upgrades res.2 !! u' = upgrades st !! u')
         ∧ (∀ r', r' ≠ r → resources res.2 !! r' = resources st !! r')
         ∧ res.2 = with_upgrades (upgrades res.2) (with_resources (resources res.2) st))
  ∧ (res.1 = false → res.2 = st)
  ∧ (level up == maxLevel up → res = (false, st))
  ∧ (levels_whole st → levels_in_range st →
     levels_whole res.2 ∧ levels_in_range res.2).
Proof.
  intros Hu cost res.
  assert (res.1 = true ↔
            (∃ have, resources st !! r = Some have ∧ cost <= have)
            ∧ level up < maxLevel up) as Hiff.
  { subst res. unfold upgradeResource. rewrite Hu. fold cost.
    destruct (resources st !! r) as [have|] eqn:Hr.
    - destruct (Num.geb have cost) eqn:Hge; cbn [andb].
      + apply geb_true in Hge.
        destruct (Num.ltb (level up) (maxLevel up)) eqn:Hlt; cbn [fst].
        * apply ltb_true in Hlt. split; [intros _|done]. split; [by exists have|done].
        * apply ltb_false in Hlt. split; [done|]. intros [_ Hlt'].
          exfalso. by apply (Qlt_not_le _ _ Hlt').
      + cbn [fst]. split; [done|]. intros [[have' [[= <-] Hle]] _].
        apply geb_true in Hle. congruence.
    - cbn [fst]. split; [done|]. intros [[have' [[=] _]] _]. }
  assert (res.1 = false → res.2 = st) as Hfail.
  { subst res. unfold upgradeResource. rewrite Hu.
    destruct (resources st !! r) as [have|]; [|done].
    by destruct (_ && _). }
  assert (res.1 = true →
            ∃ have, resources st !! r = Some have ∧ level up < maxLevel up
              ∧ res.2 = with_upgrades (<[u := set_level (level up + 1) up]> (upgrades st))
                          (with_resources (<[r := have - cost]> (resources st)) st))
    as Hdone.
  { intros Hok. destruct (proj1 Hiff Hok) as [[have [Hr _]] Hlt].
    exists have. split; [exact Hr|]. split; [exact Hlt|].
    by apply upgradeResource_success. }
  split; [exact Hiff|]. split; [|split; [exact Hfail|split]].
  - intros Hok. destruct (Hdone Hok) as (have & Hr & _ & ->).
    exists have, (set_level (level up + 1) up).
    cbn [upgrades resources with_upgrades with_resources].
    split; [exact Hr|]. split; [apply lookup_insert_eq|].
    split; [reflexivity|]. split; [reflexivity|]. split; [reflexivity|].
    split; [reflexivity|]. split; [reflexivity|].
    split; [apply lookup_insert_eq|].
    split; [intros u' Hne; by apply lookup_insert_ne|].
    split; [intros r' Hne; by apply lookup_insert_ne|]. reflexivity.
  - intros Heq. destruct (res.1) eqn:Hres.
    + destruct (proj1 Hiff eq_refl) as [_ Hlt]. rewrite Heq in Hlt.
      exfalso. by apply (Qlt_irrefl (maxLevel up)).
    + apply injective_projections; [exact Hres|exact (Hfail eq_refl)].
  - intros Hwhole Hrange. destruct (res.1) eqn:Hres.
    + destruct (Hdone eq_refl) as (have & Hr & Hlt & ->).
      destruct (Hwhole _ _ Hu) as [Hwl Hwm]. destruct (Hrange _ _ Hu) as [H0 _].
      split; intros u' up'; cbn [upgrades with_upgrades];
        (destruct (decide (u = u')) as [<-|Hne];
         [rewrite lookup_insert_eq; intros [= <-]; cbn [level maxLevel set_level]
         |rewrite lookup_insert_ne by done]).
      * split; [by apply whole_succ|exact Hwm].
      * apply Hwhole.
      * split; [lra|by apply whole_lt_succ_le].
      * apply Hrange.
    + by rewrite (Hfail eq_refl).
Qed.

Lemma C2_upgradeResource_witness :
  (upgradeResource "heatGenerator" "heat" (scenarioC 0)).1 = true
  ∧ (∃ up' heat,
       upgrades (upgradeResource "heatGenerator" "heat" (scenarioC 0)).2
         !! "heatGenerator" = Some up'
       ∧ level up' == 1 ∧ maxLevel up' == 10
       ∧ resources (upgradeResource "heatGenerator" "heat" (scenarioC 0)).2
           !! "heat" = Some heat
       ∧ heat == 0)
  ∧ levels_whole (upgradeResource "heatGenerator" "heat" (scenarioC 0)).2
  ∧ levels_in_range (upgradeResource "heatGenerator" "heat" (scenarioC 0)).2.
Proof.
  pose proof (C2_upgradeResource (scenarioC 0) "heatGenerator" "heat"
                (mkUpgrade 0 10 10 None []) eq_refl) as (Hiff & Hdone & _ & _ & H).
  assert ((upgradeResource "heatGenerator" "heat" (scenarioC 0)).1 = true) as Hok.
  { apply Hiff. split; [|by vm_compute]. exists 10. split; [reflexivity|].
    by vm_compute. }
  split; [exact Hok|]. split.
  { destruct (Hdone Hok) as (have & up' & Hhave & Hup & Hlevel & Hmax & _ & _ & _ & Hheat & _).
    exists up', (have - getUpgradeCost (scenarioC 0) "heatGenerator").
    split; [exact Hup|]. rewrite Hlevel, Hmax.
    split; [reflexivity|]. split; [reflexivity|]. split; [exact Hheat|].
    injection Hhave as <-. reflexivity. }
  apply H.
  - intros u up Hu.
    change (upgrades (scenarioC 0)) with defaultUpgrades in Hu.
    unfold defaultUpgrades in Hu. simpl in Hu.
    repeat (rewrite lookup_insert in Hu; case_decide;
            [injection Hu as <-; split;
             [exists 0%Z|first [by exists 10%Z|by exists 5%Z]]; reflexivity|]).
    rewrite lookup_empty in Hu. discriminate.
  - intros u up Hu.
    change (upgrades (scenarioC 0)) with defaultUpgrades in Hu.
    unfold defaultUpgrades in Hu. simpl in Hu.
    repeat (rewrite lookup_insert in Hu; case_decide;
            [injection Hu as <-; split; by vm_compute|]).
    rewrite lookup_empty in Hu. discriminate.
Defined.

End UpgradeClaims.

(** ** ResourceSystem: Chaotic weather *)

Section Chaotic.
Import ResourceSystem.
#[local] Open Scope Q_scope.

Variable rnd : nat → Q.

Lemma applyWeather_chaotic (world : World) (g : Q * Q) (n : nat) :
  weather world = Some "Chaotic" →
  applyWeather rnd world g n
  = ((g.1 * chaoticFactor rnd n, g.2 * chaoticFactor rnd n), S (S n)).
Proof.
  intros Hw. unfold applyWeather, weather_is. rewrite Hw. reflexivity.
Qed.

Lemma applyWeather_none (world : World) (g : Q * Q) (n : nat) :
  weather world = None → applyWeather rnd world g n = (g, n).
Proof.
  intros Hw. unfold applyWeather, weather_is. rewrite Hw. reflexivity.
Qed.

Lemma chaoticVariance_range (n : nat) :
  0 <= rnd n → rnd n < 1 → 0.25 <= chaoticVariance rnd n ∧ chaoticVariance rnd n < 0.75.
Proof. unfold chaoticVariance. intros H0 H1. split; lra. Qed.

Lemma chaoticDirection_sign (n : nat) :
  chaoticDirection rnd n = 1 ∨ chaoticDirection rnd n = -1.
Proof. unfold chaoticDirection. destruct (Num.ltb _ _); auto. Qed.

(** C7. In one generation call under Chaotic weather the call reads exactly
    two draws at the weather switch: the first gives one magnitude (25% to
    75%), the second one sign.  The call returns gains, and they are the
    gains that reached the switch, heat and fuel both multiplied by the one
    factor 1 + variance * direction, then carried through the rest of the
    call; the same call without weather reads no draw there and returns the
    same gains without the factor, so heat and fuel are scaled by the same
    factor.  The amounts credited are the floors of these gains. *)
Theorem C7_chaotic_shared_factor (world : World) (st : State) (i : nat)
    (hg fe : Upgrade) :
  weather world = Some "Chaotic" →
  (∀ j, 0 <= rnd j ∧ rnd j < 1) →
  upgrades st !! "heatGenerator" = Some hg →
  upgrades st !! "fuelEfficiency" = Some fe →
  let n := (applySpecialEffects rnd world (baseGains world) i).2 in
  let k := chaoticFactor rnd n in
  let before := gainsBeforeWeather rnd world st hg fe i in
  let chaotic := gainsAfterWeather st (before.1 * k, before.2 * k) in
  let plain := gainsAfterWeather st before in
  (0.25 <= chaoticVariance rnd n ∧ chaoticVariance rnd n < 0.75)
  ∧ (chaoticDirection rnd n = 1 ∨ chaoticDirection rnd n = -1)
  ∧ (∀ g, applyWeather rnd world g n = ((g.1 * k, g.2 * k), S (S n)))
  ∧ generateResources_gains rnd world st i = (Some chaotic, S (S n))
  ∧ generateResources_gains rnd (set_weather None world) st i = (Some plain, n)
  ∧ (chaotic.1 == plain.1 * k ∧ chaotic.2 == plain.2 * k)
  ∧ generateResources_credit rnd world st i
    = (Some (Num.floor chaotic.1, Num.floor chaotic.2), S (S n)).
Proof.
  intros Hw Hrnd Hhg Hfe n k before chaotic plain.
  split; [apply chaoticVariance_range; apply Hrnd|].
  split; [apply chaoticDirection_sign|].
  split; [intros g; by apply applyWeather_chaotic|].
  assert (generateResources_gains rnd world st i = (Some chaotic, S (S n))) as Hcall.
  { unfold generateResources_gains, bind. rewrite Hhg, Hfe.
    rewrite (applyWeather_chaotic world _ _ Hw).
    subst chaotic before k n. unfold gainsAfterWeather, gainsBeforeWeather, ret.
    cbn [fst snd].
    by destruct (resources st !! "pressure") as [p|]; [destruct (Num.gtb p 40)|]. }
  split; [exact Hcall|].
  split.
  { unfold generateResources_gains, bind.
    assert (applySpecialEffects rnd (set_weather None world)
              (baseGains (set_weather None world)) i
            = applySpecialEffects rnd world (baseGains world) i) as -> by reflexivity.
    rewrite Hhg, Hfe.
    rewrite (applyWeather_none (set_weather None world)) by reflexivity.
    assert (∀ g, applyClimate (set_weather None world) g = applyClimate world g) as ->
      by reflexivity.
    subst plain before n. unfold gainsAfterWeather, gainsBeforeWeather, ret.
    cbn [fst snd].
    by destruct (resources st !! "pressure") as [p|]; [destruct (Num.gtb p 40)|]. }
  split.
  { subst chaotic plain. unfold gainsAfterWeather. cbn [fst snd].
    destruct (resources st !! "pressure") as [p|]; [destruct (Num.gtb p 40)|];
      split; ring. }
  unfold generateResources_credit, bind. rewrite Hcall. reflexivity.
Qed.

End Chaotic.

Lemma C7_chaotic_shared_factor_witness :
  ∃ heat fuel,
    ResourceSystem.generateResources_gains halfThenFifth chaoticDesert (readyState 0) 0%nat
    = (Some (heat, fuel), 2%nat)
    ∧ (heat == 2.5)%Q ∧ (fuel == 3.25)%Q
    ∧ ResourceSystem.generateResources_credit halfThenFifth chaoticDesert (readyState 0) 0%nat
      = (Some (2, 3)%Q, 2%nat).
Proof.
  destruct (C7_chaotic_shared_factor halfThenFifth chaoticDesert (readyState 0) 0%nat
              (mkUpgrade 0 10 10 None []) (mkUpgrade 0 10 15 None []))
    as (_ & _ & _ & Hcall & _ & _ & Hcredit).
  - reflexivity.
  - intros [|j]; split; by vm_compute.
  - reflexivity.
  - reflexivity.
  - eexists _, _. split; [exact Hcall|].
    split; [by vm_compute|]. split; [by vm_compute|].
    rewrite Hcredit. reflexivity.
Defined.

(** ** EventSystem: timed effects and event choices *)

Section Events.
Import EventSystem.
#[local] Open Scope Q_scope.

(** One call of updateActiveEvents, as the game wires the event system. *)
Lemma updateActiveEvents_instance (st : State) :
  updateActiveEvents GameStateInstance st
  = Returns tt (with_activeEvents
                  (filter (λ ev, (0 < ev_duration ev)%Z) (map tick (activeEvents st))) st).
Proof. reflexivity. Qed.

(** Every event that is still active afterwards is an event that was active
    before with exactly one turn less, and nothing else about it changed. *)
Lemma updateActiveEvents_decrements (st : State) (ev' : ActiveEvent) :
  ev' ∈ activeEvents (outcome_state (updateActiveEvents GameStateInstance st)) →
  ∃ ev, ev ∈ activeEvents st
        ∧ ev_duration ev' = (ev_duration ev - 1)%Z
        ∧ (0 < ev_duration ev')%Z
        ∧ ev_name ev' = ev_name ev ∧ ev_effect ev' = ev_effect ev
        ∧ ev_originalDuration ev' = ev_originalDuration ev.
Proof.
  rewrite updateActiveEvents_instance. simpl.
  intros [Hpos Hin]%list_elem_of_filter.
  apply list_elem_of_fmap in Hin as [ev [-> Hev]].
  exists ev. repeat split; done.
Qed.

(** An event is kept exactly when it has a turn left after the decrement. *)
Lemma updateActiveEvents_keeps (st : State) (ev : ActiveEvent) :
  ev ∈ activeEvents st →
  (tick ev ∈ activeEvents (outcome_state (updateActiveEvents GameStateInstance st))
   ↔ (1 < ev_duration ev)%Z).
Proof.
  intros Hev. rewrite updateActiveEvents_instance. simpl.
  rewrite list_elem_of_filter. simpl. split.
  - intros [Hpos _]. lia.
  - intros Hgt. split; [lia|]. apply list_elem_of_fmap. by exists ev.
Qed.

(** The surviving events keep their order, and their number is the number
    of events that had more than one turn left. *)
Lemma updateActiveEvents_survivors (st : State) :
  activeEvents (outcome_state (updateActiveEvents GameStateInstance st))
  = map tick (filter (λ ev, (1 < ev_duration ev)%Z) (activeEvents st)).
Proof.
  rewrite updateActiveEvents_instance. simpl.
  induction (activeEvents st) as [|ev l IH]; [reflexivity|].
  simpl. rewrite !filter_cons. simpl.
  destruct (decide (0 < ev_duration ev - 1)%Z), (decide (1 < ev_duration ev)%Z);
    try lia; simpl; by rewrite IH.
Qed.

(** On the [GameState] instance every data field of [this.gameState] is
    [undefined]: each choice runs into a TypeError, at the latest at
    [this.gameState.eventHistory.push], and the state is left as it was. *)
Lemma field_instance {A} (name : string) (proj : State → A) (st : State) :
  field GameStateInstance name proj st
  = Aborts (TypeError ("this.gameState." +:+ name +:+ " is undefined")) st.
Proof. reflexivity. Qed.

Lemma applyEventEffect_instance (effectType : string) (c : Choice) (st : State) :
  applyEventEffect GameStateInstance effectType c st = Returns tt st
  ∨ ∃ what, applyEventEffect GameStateInstance effectType c st = Aborts (TypeError what) st.
Proof.
  unfold applyEventEffect.
  repeat match goal with
         | |- context [if String.eqb effectType ?s then _ else _] =>
             destruct (String.eqb effectType s)
         end;
    try (left; reflexivity); try (right; eexists; reflexivity).
  - destruct (ch_cost c) as [[|p cost]|]; try (left; reflexivity).
    right; eexists; reflexivity.
  - destruct (ch_cost c) as [cost|]; right; eexists; reflexivity.
  - unfold resourceLoss. destruct (Num.truthy_opt (ch_value c)).
    + right; eexists; reflexivity.
    + left; reflexivity.
  - unfold pressureLoss. destruct (Num.truthy_opt (ch_value c)).
    + right; eexists; reflexivity.
    + left; reflexivity.
Qed.

Lemma selectEventChoice_instance (now : Q) (event : EventDef) (c : Choice) (st : State) :
  ∃ what, selectEventChoice GameStateInstance now event c st = Aborts (TypeError what) st.
Proof.
  unfold selectEventChoice.
  destruct (applyEventEffect_instance (ch_effect c) c st) as [H|[what H]].
  - eexists. unfold mbind, M_bind. rewrite H. reflexivity.
  - exists what. unfold mbind, M_bind. rewrite H. reflexivity.
Qed.

(** C8 (the code at the failing input).  The claim says the permanent
    reward of Crystal Resonance is applied once into permanentBonuses when
    the choice is made.  The event system built by Game.js holds the
    GameState instance: the choice stops with a TypeError at
    [this.gameState.permanentBonuses.resourceEfficiency], the efficiency
    multiplier keeps its old value and nothing reaches the active events. *)
Theorem C8_permanent_choice_aborts (now : Q) (st : State) :
  selectEventChoice GameStateInstance now crystalResonance embraceResonance st
  = Aborts (TypeError "this.gameState.permanentBonuses is undefined") st
  ∧ (let st' := outcome_state
                  (selectEventChoice GameStateInstance now crystalResonance
                     embraceResonance st) in
     resourceEfficiency (permanentBonuses st') = resourceEfficiency (permanentBonuses st)
     ∧ activeEvents st' = activeEvents st).
Proof. split; [reflexivity|]. split; reflexivity. Qed.

(** On a bare state object the body of selectEventChoice does what the
    claim describes: the efficiency grows by 0.05 once, the choice is
    logged, and the event (duration -1) is not put among the active
    events.  No code path of the current Game.js hands the event system
    such an object, and [updateActiveEvents] cannot run on it. *)
Lemma selectEventChoice_bare_permanent (now : Q) (st : State) :
  selectEventChoice BareState now crystalResonance embraceResonance st
  = Returns tt
      (with_eventHistory
         (eventHistory st ++ [mkHistoryEntry "Crystal Resonance" "Embrace Resonance" now])
         (with_permanentBonuses
            (mkBonuses (resourceEfficiency (permanentBonuses st) + 0.05)
               (upgradeCostReduction (permanentBonuses st))) st)).
Proof. reflexivity. Qed.

Lemma updateActiveEvents_bare (st : State) :
  updateActiveEvents BareState st
  = Aborts (TypeError "this.gameState.getState is not a function") st.
Proof. reflexivity. Qed.

(** Whatever the receiver, an event is put among the active events only
    when its duration is positive. *)
Lemma selectEventChoice_not_timed (r : Receiver) (now : Q) (event : EventDef)
    (c : Choice) (st st' : State) :
  (ed_duration event <= 0)%Z →
  selectEventChoice r now event c st = Returns tt st' →
  ∃ st1, applyEventEffect r (ch_effect c) c st = Returns tt st1
         ∧ activeEvents st' = activeEvents st1.
Proof.
  intros Hd. unfold selectEventChoice, mbind, M_bind.
  destruct (applyEventEffect r (ch_effect c) c st) as [[] st1|]; [|done].
  destruct (field r "eventHistory" eventHistory st1) as [h st2|] eqn:Hf; [|done].
  assert (st2 = st1) as ->.
  { destruct r; simpl in Hf; by inversion Hf. }
  simpl. destruct (0 <? ed_duration event)%Z eqn:E; [apply Z.ltb_lt in E; lia|].
  simpl. intros [= <-]. by exists st1.
Qed.

End Events.

(** ** AchievementSystem: repeated evaluation *)

Section Achievements.
Import AchievementSystem.
#[local] Open Scope Q_scope.

Lemma includes_elem_of (x : Z) (l : list Z) : includes x l = true ↔ x ∈ l.
Proof.
  unfold includes. rewrite existsb_exists. split.
  - intros [y [Hy Heq]]. apply Z.eqb_eq in Heq as ->. by apply list_elem_of_In.
  - intros Hx. exists x. split; [by apply list_elem_of_In | apply Z.eqb_refl].
Qed.

Lemma with_ach_unlocked_idem (l l' : list Z) (st : State) :
  with_ach_unlocked l (with_ach_unlocked l' st) = with_ach_unlocked l st.
Proof. reflexivity. Qed.

Lemma with_ach_unlocked_same (st : State) : with_ach_unlocked (ach_unlocked st) st = st.
Proof. by destruct st. Qed.

Lemma checkOne_eq (now : Q) (new : list (Z * Achievement)) (st : State)
    (id : Z) (a : Achievement) :
  checkOne now (new, st) (id, a)
  = if negb (includes id (ach_unlocked st)) && eligible now a st
    then (new ++ [(id, a)], with_ach_unlocked (ach_unlocked st ++ [id]) st)
    else (new, st).
Proof.
  unfold checkOne, eligible.
  destruct (includes id (ach_unlocked st)); [reflexivity|].
  destruct (a_hidden a && negb (checkHiddenRequirement (a_requirement a) st));
    [reflexivity|].
  simpl. by destruct (checkRequirement now (a_requirement a) st).
Qed.

Lemma eligible_unlocked_irrelevant (now : Q) (a : Achievement) (st : State) (l : list Z) :
  reads_unlocked (a_requirement a) = false →
  eligible now a (with_ach_unlocked l st) = eligible now a st.
Proof.
  unfold eligible. destruct (a_requirement a); simpl; intros H; try discriminate H;
    reflexivity.
Qed.

(** The loop of [checkAchievements] from an arbitrary accumulator: it only
    appends; what it appends was locked and eligible when it was met; and
    an entry whose test ignores the unlocked list and that was eligible at
    the start is unlocked at the end. *)
Lemma check_loop (now : Q) (defs : list (Z * Achievement)) :
  ∀ (new : list (Z * Achievement)) (st : State),
    ∃ added,
      foldl (checkOne now) (new, st) defs
      = (new ++ added, with_ach_unlocked (ach_unlocked st ++ map fst added) st)
      ∧ (∀ e, e ∈ added →
           e ∈ defs ∧ (e.1 ∉ ach_unlocked st)
           ∧ (∃ l, eligible now e.2 (with_ach_unlocked l st) = true))
      ∧ (∀ e, e ∈ defs → reads_unlocked (a_requirement e.2) = false →
           eligible now e.2 st = true → e.1 ∈ ach_unlocked st ++ map fst added).
Proof.
  induction defs as [|[id a] defs IH]; intros new st.
  - exists []. simpl. rewrite !app_nil_r, with_ach_unlocked_same.
    split; [done|]. split; intros e He; inversion He.
  - cbn [foldl]. rewrite checkOne_eq.
    destruct (negb (includes id (ach_unlocked st)) && eligible now a st) eqn:Hpush.
    + apply andb_true_iff in Hpush as [Hlocked Helig].
      apply negb_true_iff in Hlocked.
      assert (id ∉ ach_unlocked st) as Hnotin.
      { intros Hin. apply includes_elem_of in Hin. congruence. }
      destruct (IH (new ++ [(id, a)]) (with_ach_unlocked (ach_unlocked st ++ [id]) st))
        as (added & Heq & Hsound & Hcomplete).
      exists ((id, a) :: added). simpl in *.
      split; [|split].
      * rewrite Heq. rewrite <- !app_assoc. reflexivity.
      * intros e [->|He]%elem_of_cons.
        -- split; [left|]. split; [done|].
           exists (ach_unlocked st). by rewrite with_ach_unlocked_same.
        -- destruct (Hsound e He) as (Hd & Hn & l & Hl).
           split; [by right|]. split.
           ++ intros Hin. apply Hn. apply elem_of_app. by left.
           ++ by exists l.
      * intros e [->|He]%elem_of_cons Hr Hel.
        -- simpl. apply elem_of_app. right. left.
        -- change (id :: map fst added) with ([id] ++ map fst added).
           rewrite app_assoc.
           apply Hcomplete; [done|done|].
           by rewrite eligible_unlocked_irrelevant.
    + destruct (IH new st) as (added & Heq & Hsound & Hcomplete).
      exists added. split; [done|]. split.
      * intros e He. destruct (Hsound e He) as (Hd & Hn & Hl).
        split; [by right|done].
      * intros e [->|He]%elem_of_cons Hr Hel; [|by apply Hcomplete].
        simpl in *. rewrite Hel, andb_true_r in Hpush.
        apply negb_false_iff, includes_elem_of in Hpush.
        apply elem_of_app. by left.
Qed.

Lemma hunter_first_call :
  map fst (checkAchievements hunterClock hunterState).1 = [41; 64]%Z.
Proof. vm_compute. reflexivity. Qed.

Lemma hunter_second_call :
  map fst (checkAchievements hunterClock
             (checkAchievements hunterClock hunterState).2).1 = [40]%Z.
Proof. vm_compute. reflexivity. Qed.

(** C9, as stated, fails: with 24 achievements unlocked and 150 worlds, the
    first call unlocks Mega Worlds (41) and Minimalist (64); Achievement
    Hunter (40, "unlock 25 achievements") was tested before them and is
    only unlocked by the second call. *)
Lemma C9_second_call_not_empty :
  ¬ (∀ (now : Q) (st : State),
       (checkAchievements now (checkAchievements now st).2).1 = []
       ∧ ach_unlocked (checkAchievements now (checkAchievements now st).2).2
         = ach_unlocked (checkAchievements now st).2).
Proof.
  intros H. destruct (H hunterClock hunterState) as [Hnil _].
  apply (f_equal (map fst)) in Hnil.
  rewrite hunter_second_call in Hnil. discriminate Hnil.
Qed.

(** C9 (amended).  checkAchievements only appends to the unlocked list: ids
    already unlocked are skipped and nothing is removed.  When it is called
    twice in a row on an unchanged state with the same clock reading, the
    second call can only return achievements whose requirement looks at
    the unlocked list itself (types achievements, completion and speed);
    when the definitions hold no such requirement, the second call returns
    an empty list and leaves the unlocked list as the first call left it. *)
Theorem C9_second_call (now : Q) (st : State) :
  let r1 := checkAchievements now st in
  let r2 := checkAchievements now r1.2 in
  ach_unlocked r1.2 = ach_unlocked st ++ map fst r1.1
  ∧ ach_unlocked r2.2 = ach_unlocked r1.2 ++ map fst r2.1
  ∧ (∀ e, e ∈ r1.1 → e.1 ∉ ach_unlocked st)
  ∧ (∀ e, e ∈ r2.1 → e.1 ∉ ach_unlocked r1.2)
  ∧ (∀ e, e ∈ r2.1 → reads_unlocked (a_requirement e.2) = true)
  ∧ ((∀ e, e ∈ ach_definitions st → reads_unlocked (a_requirement e.2) = false) →
     r2.1 = [] ∧ r2.2 = r1.2).
Proof.
  intros r1 r2. subst r1 r2. unfold checkAchievements.
  destruct (check_loop now (ach_definitions st) [] st) as (n1 & E1 & S1 & C1).
  rewrite E1. simpl.
  destruct (check_loop now (ach_definitions st) []
              (with_ach_unlocked (ach_unlocked st ++ map fst n1) st))
    as (n2 & E2 & S2 & C2).
  simpl in E2. rewrite E2. simpl.
  assert (∀ e, e ∈ n2 → reads_unlocked (a_requirement e.2) = true) as Hreads.
  { intros e He. destruct (S2 e He) as (Hd & Hn & l & Hl).
    destruct (reads_unlocked (a_requirement e.2)) eqn:Hr; [done|].
    exfalso. apply Hn. simpl. apply C1; [done|done|].
    rewrite with_ach_unlocked_idem in Hl.
    by rewrite eligible_unlocked_irrelevant in Hl. }
  split; [done|]. split; [done|].
  split; [intros e He; apply (S1 e He)|].
  split; [intros e He; apply (S2 e He)|].
  split; [exact Hreads|].
  intros Hnone.
  assert (n2 = []) as ->.
  { destruct n2 as [|e n2]; [done|]. exfalso.
    assert (e ∈ e :: n2) as He by left.
    pose proof (Hreads e He) as Ht.
    destruct (S2 e He) as (Hd & _). rewrite (Hnone e Hd) in Ht. discriminate Ht. }
  split; [done|]. simpl. by rewrite app_nil_r.
Qed.

Lemma C9_second_call_witness :
  (checkAchievements 5 (checkAchievements 5 earlyDefinitions).2).1 = []
  ∧ map fst (checkAchievements 5 earlyDefinitions).1 = [1; 4]%Z.
Proof.
  split; [|vm_compute; reflexivity].
  refine (proj1 (proj2 (proj2 (proj2 (proj2 (proj2
    (C9_second_call 5 earlyDefinitions))))) _)).
  intros e He. vm_compute in He.
  repeat (apply elem_of_cons in He as [->|He]; [reflexivity|]).
  inversion He.
Defined.

End Achievements.

(** ** GameState: the resource ledger *)

Section Ledger.
Import GameState.
#[local] Open Scope Q_scope.

Lemma clamp_bounds (cap : option Q) (v : Q) :
  (∀ c, cap = Some c → 0 <= c) →
  0 <= clamp cap v ∧ (∀ c, cap = Some c → clamp cap v <= c).
Proof.
  intros Hcap. unfold clamp.
  destruct cap as [c|].
  - specialize (Hcap c eq_refl).
    destruct (Num.gtb v c) eqn:Hgt.
    + destruct (Num.ltb c 0) eqn:Hlt.
      * split; [lra|]. intros c' [= <-]. done.
      * split; [done|]. intros c' [= <-]. lra.
    + apply gtb_false in Hgt.
      destruct (Num.ltb v 0) eqn:Hlt.
      * split; [lra|]. intros c' [= <-]. done.
      * apply ltb_false in Hlt. split; [done|]. intros c' [= <-]. done.
  - destruct (Num.ltb v 0) eqn:Hlt.
    + split; [lra|]. intros c' [=].
    + apply ltb_false in Hlt. split; [done|]. intros c' [=].
Qed.

Lemma add_delta_ordinary (res : gmap string Q) (d : string * Q) :
  res !! "hasOwnProperty" = None → d.1 ≠ "hasOwnProperty" → d.1 ≠ "__proto__" →
  ∃ res',
    add_delta res d = Some res'
    ∧ res' !! "hasOwnProperty" = None
    ∧ ∀ k, res' !! k
           = if decide (d.1 = k) then Some (creditedAmount res k d.2) else res !! k.
Proof.
  intros Hown Hne Hproto. unfold add_delta, creditedAmount. rewrite Hown.
  destruct d as [k' a]. simpl in *.
  assert (String.eqb k' "__proto__" = false) as -> by (by apply String.eqb_neq).
  destruct (res !! k') as [have|] eqn:Hk'; eexists; (split; [reflexivity|]);
    (split; [by rewrite lookup_insert_ne|]); intros k;
    (destruct (decide (k' = k)) as [<-|Hk];
     [rewrite lookup_insert_eq; by rewrite Hk'|by rewrite lookup_insert_ne]).
Qed.

(** Under ordinary names the loop runs to its end, creating or
    incrementing the entry of every delta and touching no other. *)
Lemma add_deltas_ordinary (deltas : list (string * Q)) (res : gmap string Q) :
  ordinaryNames res deltas →
  (add_deltas res deltas).2 = true
  ∧ (add_deltas res deltas).1 !! "hasOwnProperty" = None
  ∧ (∀ k, k ∉ deltas.*1 → (add_deltas res deltas).1 !! k = res !! k)
  ∧ (NoDup deltas.*1 →
     ∀ k a, (k, a) ∈ deltas →
       (add_deltas res deltas).1 !! k = Some (creditedAmount res k a)).
Proof.
  revert res. induction deltas as [|d deltas IH]; intros res (Hown & Hhas & Hproto).
  - repeat split; try done. intros _ k a Hin. inversion Hin.
  - cbn [fmap list_fmap] in Hhas, Hproto.
    apply not_elem_of_cons in Hhas as [Hd1 Hhas].
    apply not_elem_of_cons in Hproto as [Hd2 Hproto].
    destruct (add_delta_ordinary res d Hown) as (res' & Hstep & Hown' & Hlook);
      [congruence|congruence|].
    cbn [add_deltas]. rewrite Hstep.
    destruct (IH res') as (Hok & Hown'' & Hother & Hkey); [done|].
    split; [exact Hok|]. split; [exact Hown''|]. split.
    + intros k Hk. cbn [fmap list_fmap] in Hk. apply not_elem_of_cons in Hk as [Hne Hk].
      rewrite (Hother k Hk), Hlook. by rewrite decide_False.
    + intros Hnd k a Hin. cbn [fmap list_fmap] in Hnd.
      apply NoDup_cons in Hnd as [Hfresh Hnd].
      apply elem_of_cons in Hin as [<-|Hin].
      * cbn [fst snd] in *. rewrite (Hother _ Hfresh), Hlook. by rewrite decide_True.
      * rewrite (Hkey Hnd k a Hin). unfold creditedAmount. rewrite Hlook.
        rewrite decide_False; [done|].
        intros Heq. apply Hfresh. rewrite Heq. apply list_elem_of_fmap. by exists (k, a).
Qed.

Lemma enforce_cap_lookup (res : gmap string Q) (b : bool) (c : string * option Q)
    (k : string) :
  (enforce_cap (res, b) c).1 !! k
  = if decide (c.1 = k) then clamp c.2 <$> res !! k else res !! k.
Proof.
  unfold enforce_cap, clamp. destruct c as [k' cap]. simpl.
  destruct (decide (k' = k)) as [->|Hne].
  - destruct (res !! k) as [v|] eqn:Hv.
    + destruct cap as [cv|]; simpl.
      * destruct (Num.gtb v cv); simpl.
        -- rewrite lookup_insert_eq.
           destruct (Num.ltb cv 0); simpl; by rewrite lookup_insert_eq.
        -- rewrite Hv. destruct (Num.ltb v 0); simpl; [by rewrite lookup_insert_eq|done].
      * rewrite Hv. destruct (Num.ltb v 0); simpl; [by rewrite lookup_insert_eq|done].
    + destruct cap; simpl; by rewrite Hv.
  - destruct cap as [cv|]; simpl.
    + destruct (res !! k') as [v'|] eqn:Hv'; simpl.
      * destruct (Num.gtb v' cv); simpl.
        -- rewrite lookup_insert_eq.
           destruct (Num.ltb cv 0); simpl; by rewrite !lookup_insert_ne.
        -- rewrite Hv'. destruct (Num.ltb v' 0); simpl; by rewrite ?lookup_insert_ne.
      * by rewrite Hv'.
    + destruct (res !! k') as [v'|] eqn:Hv'; simpl; [|done].
      destruct (Num.ltb v' 0); simpl; by rewrite ?lookup_insert_ne.
Qed.

Lemma enforce_caps_other (cs : list (string * option Q)) (acc : gmap string Q * bool)
    (k : string) :
  k ∉ map fst cs → (foldl enforce_cap acc cs).1 !! k = acc.1 !! k.
Proof.
  revert acc. induction cs as [|c cs IH]; intros [res b] Hk; [done|].
  simpl in *. apply not_elem_of_cons in Hk as [Hne Hk].
  rewrite IH by done. rewrite enforce_cap_lookup.
  destruct (decide (c.1 = k)); [congruence|done].
Qed.

Lemma enforce_caps_key (cs : list (string * option Q)) (acc : gmap string Q * bool)
    (k : string) (cap : option Q) :
  NoDup (map fst cs) → (k, cap) ∈ cs →
  (foldl enforce_cap acc cs).1 !! k = clamp cap <$> acc.1 !! k.
Proof.
  revert acc. induction cs as [|c cs IH]; intros [res b] Hnd Hin.
  - inversion Hin.
  - simpl in *. apply NoDup_cons in Hnd as [Hfresh Hnd].
    apply elem_of_cons in Hin as [<-|Hin].
    + rewrite enforce_caps_other by done. rewrite enforce_cap_lookup. simpl.
      destruct (decide (k = k)); [done|congruence].
    + rewrite IH by done. rewrite enforce_cap_lookup.
      destruct (decide (c.1 = k)) as [Heq|Hne]; [|done].
      exfalso. apply Hfresh. rewrite Heq.
      apply list_elem_of_fmap. by exists (k, cap).
Qed.

Lemma caps_names (st : State) : map fst (caps st) = cappedNames.
Proof. reflexivity. Qed.

Lemma caps_NoDup (st : State) : NoDup (map fst (caps st)).
Proof.
  rewrite caps_names. unfold cappedNames.
  repeat (apply NoDup_cons; split; [by vm_compute; intros H; repeat
    (apply elem_of_cons in H as [H|H]; [discriminate H|]); inversion H|]).
  apply NoDup_nil_2.
Qed.

Lemma caps_nonneg (st : State) (k : string) (cap : option Q) (c : Q) :
  (k, cap) ∈ caps st → cap = Some c → 0 <= c.
Proof.
  unfold caps. intros Hin ->.
  rewrite !elem_of_cons, elem_of_nil in Hin.
  destruct Hin as [H|[H|[H|[H|[H|[]]]]]]; inversion H; subst;
    destruct (noResourceLimits st); done.
Qed.

Lemma checkWorldUnlocks_from_resources (defs : list WorldDef) (st : State) :
  resources (WorldSystem.checkWorldUnlocks_from defs st).2 = resources st.
Proof.
  induction defs as [|w defs IH]; [done|]. simpl.
  destruct (includes (wd_id w) (unlockedWorlds st)); [done|].
  by destruct (WorldSystem.canUnlockWorld st (wd_id w)).
Qed.

(** Where the loop of addResources stops, nothing after it runs. *)
Lemma addResources_outcome (deltas : list (string * Q)) (st : State) :
  let r := add_deltas (resources st) deltas in
  addResources deltas st
  = if r.2
    then Returns tt
           (WorldSystem.checkWorldUnlocks
              (enforceResourceCaps (with_resources r.1 st)).2).2
    else Aborts (TypeError "this.state.resources.hasOwnProperty is not a function")
           (with_resources r.1 st).
Proof. reflexivity. Qed.

Lemma addResources_resources (deltas : list (string * Q)) (st st' : State) :
  addResources deltas st = Returns tt st' →
  resources st'
  = (foldl enforce_cap ((add_deltas (resources st) deltas).1, false) (caps st)).1.
Proof.
  rewrite addResources_outcome. cbn zeta.
  destruct (add_deltas (resources st) deltas).2; [|done].
  intros Hret. apply (f_equal outcome_state) in Hret.
  cbn [outcome_state] in Hret. rewrite <- Hret.
  unfold WorldSystem.checkWorldUnlocks.
  rewrite checkWorldUnlocks_from_resources. reflexivity.
Qed.

Lemma addResources_returns (deltas : list (string * Q)) (st : State) :
  ordinaryNames (resources st) deltas →
  ∃ st', addResources deltas st = Returns tt st'.
Proof.
  intros Hord. rewrite addResources_outcome. cbn zeta.
  destruct (add_deltas_ordinary deltas (resources st) Hord) as (-> & _).
  by eexists.
Qed.

(** After an addResources that returns, every amount the cap loop runs over
    is non-negative and not above its cap. *)
Lemma addResources_within_caps (deltas : list (string * Q)) (st st' : State)
    (k : string) (cap : option Q) (v : Q) :
  addResources deltas st = Returns tt st' →
  (k, cap) ∈ caps st →
  resources st' !! k = Some v →
  0 <= v ∧ (∀ c, cap = Some c → v <= c).
Proof.
  intros Hret Hin. rewrite (addResources_resources deltas st st' Hret).
  rewrite (enforce_caps_key _ _ k cap (caps_NoDup st) Hin). simpl.
  destruct ((add_deltas (resources st) deltas).1 !! k) as [v0|]; [|done].
  simpl. intros [= <-]. apply clamp_bounds.
  intros c Hc. exact (caps_nonneg st k cap c Hin Hc).
Qed.

End Ledger.

Section LedgerClaims.
Import GameState.
#[local] Open Scope Q_scope.

(** C10, as stated, fails on two names.  The loop asks
    this.state.resources.hasOwnProperty(resource): crediting a resource
    named hasOwnProperty creates that entry, and from then on the test calls
    a number.  The call addResources({hasOwnProperty: 5, heat: 1}) stops
    with a TypeError before heat is credited, and so does every later call
    with a delta.  A resource named __proto__ is never created. *)
Lemma C10_reserved_names_fail :
  (∃ st1,
     addResources [("hasOwnProperty", 5); ("heat", 1)] (readyState 0)
     = Aborts (TypeError "this.state.resources.hasOwnProperty is not a function") st1
     ∧ resources st1 !! "hasOwnProperty" = Some 5
     ∧ resources st1 !! "heat" = Some 0
     ∧ addResources [("heat", 1)] st1
       = Aborts (TypeError "this.state.resources.hasOwnProperty is not a function") st1)
  ∧ (∃ st2,
       addResources [("__proto__", 5)] (readyState 0) = Returns tt st2
       ∧ resources st2 !! "__proto__" = None).
Proof.
  split.
  - exists (outcome_state
              (addResources [("hasOwnProperty", 5); ("heat", 1)] (readyState 0))).
    split; [reflexivity|]. split; [reflexivity|]. split; [reflexivity|].
    vm_compute. reflexivity.
  - exists (outcome_state (addResources [("__proto__", 5)] (readyState 0))).
    split; [reflexivity|]. reflexivity.
Qed.

(** C10 (amended).  As long as no name collides with Object.prototype (the
    state holds no resource named hasOwnProperty and the deltas name neither
    hasOwnProperty nor __proto__), addResources returns normally and rejects
    no name: a key of the deltas that the state does not hold yet is created
    with its delta as value, a key the state holds is incremented by its
    delta.  The cap loop then runs over heat, fuel, pressure, energy and
    stability only (without limit for heat and fuel, with 100, 200 and 50,
    or twice that in a world without resource limits, for the others): an
    amount under any other name, created or not, is stored as credited and
    never clamped, even when negative (entries of the deltas have distinct
    keys, as the keys of an object). *)
Theorem C10_addResources_creates (st : State) (deltas : list (string * Q))
    (k : string) (a : Q) :
  ordinaryNames (resources st) deltas →
  NoDup deltas.*1 →
  (k, a) ∈ deltas →
  let credited := match resources st !! k with Some have => have + a | None => a end in
  ∃ st',
    addResources deltas st = Returns tt st'
    ∧ (add_deltas (resources st) deltas).1 !! k = Some credited
    ∧ is_Some (resources st' !! k)
    ∧ (k ∉ cappedNames → resources st' !! k = Some credited)
    ∧ (∀ cap, (k, cap) ∈ caps st →
         resources st' !! k = Some (clamp cap credited))
    ∧ (∃ p e s,
         caps st = [("heat", None); ("fuel", None); ("pressure", Some p);
                    ("energy", Some e); ("stability", Some s)]
         ∧ ((p, e, s) = (100, 200, 50) ∨ (p, e, s) = (200, 400, 100)))
    ∧ (∀ k', k' ∉ cappedNames → k' ∉ deltas.*1 →
         resources st' !! k' = resources st !! k').
Proof.
  intros Hord Hnd Hin credited.
  destruct (addResources_returns deltas st Hord) as [st' Hret].
  pose proof (addResources_resources deltas st st' Hret) as Hres.
  destruct (add_deltas_ordinary deltas (resources st) Hord)
    as (_ & _ & Hother & Hkey).
  pose proof (Hkey Hnd k a Hin) as Hloop.
  change (creditedAmount (resources st) k a) with credited in Hloop.
  assert (k ∉ cappedNames → resources st' !! k = Some credited) as Hfree.
  { intros Hk. rewrite Hres, enforce_caps_other; [done|]. by rewrite caps_names. }
  assert (∀ cap, (k, cap) ∈ caps st →
            resources st' !! k = Some (clamp cap credited)) as Hcapped.
  { intros cap Hcap. rewrite Hres.
    rewrite (enforce_caps_key _ _ k cap (caps_NoDup st) Hcap). simpl.
    by rewrite Hloop. }
  exists st'. split; [exact Hret|]. split; [exact Hloop|].
  split; [|split; [exact Hfree|split; [exact Hcapped|split]]].
  - destruct (decide (k ∈ cappedNames)) as [Hk|Hk].
    + rewrite <- (caps_names st) in Hk.
      apply list_elem_of_fmap in Hk as [[k' cap] [-> Hk]].
      rewrite (Hcapped cap Hk). by eexists.
    + rewrite (Hfree Hk). by eexists.
  - unfold caps. destruct (noResourceLimits st).
    + exists 200, 400, 100. split; [reflexivity|by right].
    + exists 100, 200, 50. split; [reflexivity|by left].
  - intros k' Hk' Hnot. rewrite Hres, enforce_caps_other.
    + simpl. by apply Hother.
    + by rewrite caps_names.
Qed.

Lemma C10_addResources_creates_witness :
  ∃ st',
    addResources [("gold", -5); ("pressure", 500); ("heat", 3)] (readyState 0)
    = Returns tt st'
    ∧ resources st' !! "gold" = Some (-5)
    ∧ resources st' !! "pressure" = Some 100
    ∧ resources st' !! "heat" = Some 3
    ∧ resources st' !! "fuel" = Some 0.
Proof.
  assert (ordinaryNames (resources (readyState 0))
            [("gold", -5); ("pressure", 500); ("heat", 3)]) as Hord.
  { split; [reflexivity|].
    split; intros H; repeat (apply elem_of_cons in H as [H|H]; [discriminate H|]);
      inversion H. }
  assert (NoDup [("gold", -5); ("pressure", 500); ("heat", 3)].*1) as Hnd.
  { repeat (apply NoDup_cons; split;
            [intros H; repeat (apply elem_of_cons in H as [H|H]; [discriminate H|]);
             inversion H|]).
    apply NoDup_nil_2. }
  destruct (C10_addResources_creates (readyState 0)
              [("gold", -5); ("pressure", 500); ("heat", 3)] "gold" (-5) Hord Hnd)
    as (st' & Hret & _ & _ & Hgold & _); [left|].
  destruct (C10_addResources_creates (readyState 0)
              [("gold", -5); ("pressure", 500); ("heat", 3)] "pressure" 500 Hord Hnd)
    as (st2 & Hret2 & _ & _ & _ & Hpressure & _); [right; left|].
  destruct (C10_addResources_creates (readyState 0)
              [("gold", -5); ("pressure", 500); ("heat", 3)] "heat" 3 Hord Hnd)
    as (st3 & Hret3 & _ & _ & _ & Hheat & _); [right; right; left|].
  rewrite Hret in Hret2, Hret3. injection Hret2 as <-. injection Hret3 as <-.
  exists st'. split; [exact Hret|]. split; [|split; [|split]].
  - apply Hgold. unfold cappedNames. intros H.
    repeat (apply elem_of_cons in H as [H|H]; [discriminate H|]). inversion H.
  - rewrite (Hpressure (Some 100)); [reflexivity|]. right; right; left.
  - rewrite (Hheat None); [reflexivity|]. left.
  - assert (st' = outcome_state
                    (addResources [("gold", -5); ("pressure", 500); ("heat", 3)]
                       (readyState 0))) as -> by (by rewrite Hret).
    vm_compute; reflexivity.
Defined.

End LedgerClaims.

(** ** Sessions: worlds stay unlocked, resources can be overdrawn *)

Section Sessions.
Import Session.
#[local] Open Scope Q_scope.

Lemma run_reachable (actions : list Action) (st st' : State) :
  run actions st = Some st' → rtc step st st'.
Proof.
  revert st. induction actions as [|a rest IH]; intros st; simpl.
  - intros [= <-]. apply rtc_refl.
  - destruct (perform a st) as [st1|] eqn:Hp; [|done]. simpl.
    intros Hrun. eapply rtc_l; [by exists a | by apply IH].
Qed.

Lemma checkAchievements_state (now : Q) (st : State) :
  ∃ l, (AchievementSystem.checkAchievements now st).2 = with_ach_unlocked l st.
Proof.
  unfold AchievementSystem.checkAchievements.
  destruct (check_loop now (ach_definitions st) [] st) as (added & E & _).
  rewrite E. by eexists.
Qed.

Lemma checkWorldUnlocks_from_grows (defs : list WorldDef) (st : State) (id : Z) :
  id ∈ unlockedWorlds st →
  id ∈ unlockedWorlds (WorldSystem.checkWorldUnlocks_from defs st).2.
Proof.
  intros Hid. induction defs as [|w defs IH]; [done|]. simpl.
  destruct (includes (wd_id w) (unlockedWorlds st)); [done|].
  destruct (WorldSystem.canUnlockWorld st (wd_id w)); [|done].
  simpl. apply elem_of_app. by left.
Qed.

Lemma addResources_unlocked_grows (deltas : list (string * Q)) (st : State) (id : Z) :
  id ∈ unlockedWorlds st →
  id ∈ unlockedWorlds (outcome_state (GameState.addResources deltas st)).
Proof.
  intros Hid. rewrite addResources_outcome. cbn zeta.
  destruct (GameState.add_deltas (resources st) deltas).2; [|done].
  unfold WorldSystem.checkWorldUnlocks. by apply checkWorldUnlocks_from_grows.
Qed.

(** No action of a session takes a world out of [unlockedWorlds]. *)
Lemma perform_keeps_unlocked (a : Action) (st st' : State) (id : Z) :
  perform a st = Some st' → id ∈ unlockedWorlds st → id ∈ unlockedWorlds st'.
Proof.
  intros Hp Hid. destruct a; simpl in Hp.
  - unfold ResourceSystem.generateResource in Hp.
    destruct (currentWorld st) as [world|]; [|by injection Hp as <-].
    destruct (ResourceSystem.manualGain type world st) as [gain|]; [|done].
    cbn [mbind option_bind] in Hp.
    match type of Hp with
    | context [GameState.addResources ?d st] =>
        pose proof (addResources_unlocked_grows d st id Hid) as Hgrow;
        destruct (GameState.addResources d st) as [[] st1|]; [|done]
    end.
    injection Hp as <-. exact Hgrow.
  - injection Hp as <-. by apply addResources_unlocked_grows.
  - injection Hp as <-. unfold UpgradeSystem.upgradeResource.
    destruct (upgrades st !! upgradeType); [|done].
    destruct (resources st !! resourceType); [|done].
    by destruct (_ && _).
  - unfold WorldSystem.selectWorld in Hp.
    destruct (WorldSystem.getWorldById worldId) as [world|]; [|by injection Hp as <-].
    destruct (negb (includes worldId (unlockedWorlds st))); [by injection Hp as <-|].
    destruct (worldProgress st <? worldId)%Z.
    + destruct (WorldSystem.deduct_all _ _) as [res|]; [|done].
      simpl in Hp. by injection Hp as <-.
    + simpl in Hp. by injection Hp as <-.
  - injection Hp as <-. by apply checkWorldUnlocks_from_grows.
  - unfold Game.generateEnergy in Hp.
    destruct (resources st !! "heat"); [|by injection Hp as <-].
    destruct (resources st !! "fuel"); [|by injection Hp as <-].
    destruct (_ && _); [|by injection Hp as <-].
    destruct (_ !! "energy"); [|done]. simpl in Hp. injection Hp as <-.
    unfold Game.updateUI, Game.checkAndNotifyAchievements.
    match goal with
    | |- context [AchievementSystem.checkAchievements ?n ?s] =>
        destruct (checkAchievements_state n s) as [l ->]
    end. done.
  - by injection Hp as <-.
  - injection Hp as <-.
    destruct (selectEventChoice_instance now event choice st) as [what ->]. done.
  - injection Hp as <-.
    destruct (checkAchievements_state now st) as [l ->]. done.
Qed.

Lemma session_keeps_unlocked (st st' : State) (id : Z) :
  rtc step st st' → id ∈ unlockedWorlds st → id ∈ unlockedWorlds st'.
Proof.
  induction 1 as [|st st1 st2 [a Ha] _ IH]; [done|].
  intros Hid. apply IH. by eapply perform_keeps_unlocked.
Qed.

(** C6.  On a fresh state canUnlockWorld(0) is true and canUnlockWorld(1)
    is false.  With 50 heat, 25 fuel and Ocean Planet unlocked, selecting
    Ocean Planet succeeds, leaves 0 heat and 0 fuel, raises worldsCreated
    to 1 and makes it the current world; selecting it again deducts
    nothing; and Ocean Planet is still unlocked after any further actions
    of the session. *)
Theorem C6_world_unlock_and_selection (t0 : Q) :
  WorldSystem.canUnlockWorld (readyState t0) 0 = true
  ∧ WorldSystem.canUnlockWorld (readyState t0) 1 = false
  ∧ resources (scenarioB t0) !! "heat" = Some 50
  ∧ resources (scenarioB t0) !! "fuel" = Some 25
  ∧ unlockedWorlds (scenarioB t0) = [0; 1]%Z
  ∧ ∃ st1, WorldSystem.selectWorld 1 (scenarioB t0) = Some (true, st1)
      ∧ resources st1 !! "heat" = Some 0
      ∧ resources st1 !! "fuel" = Some 0
      ∧ worldsCreated st1 = 1%Z
      ∧ w_name <$> currentWorld st1 = Some "Ocean Planet"
      ∧ w_id <$> currentWorld st1 = Some 1%Z
      ∧ (∃ st2, WorldSystem.selectWorld 1 st1 = Some (true, st2)
                ∧ resources st2 = resources st1 ∧ worldsCreated st2 = 1%Z)
      ∧ 1%Z ∈ unlockedWorlds st1
      ∧ (∀ later, rtc step st1 later → 1%Z ∈ unlockedWorlds later).
Proof.
  split; [vm_compute; reflexivity|].
  split; [vm_compute; reflexivity|].
  split; [vm_compute; reflexivity|].
  split; [vm_compute; reflexivity|].
  split; [vm_compute; reflexivity|].
  set (st1 := (default (false, scenarioB t0)
                 (WorldSystem.selectWorld 1 (scenarioB t0))).2).
  assert (1%Z ∈ unlockedWorlds st1) as Hin.
  { vm_compute. right. left. }
  exists st1.
  split; [vm_compute; reflexivity|].
  split; [vm_compute; reflexivity|].
  split; [vm_compute; reflexivity|].
  split; [vm_compute; reflexivity|].
  split; [vm_compute; reflexivity|].
  split; [vm_compute; reflexivity|].
  split.
  { exists (default (false, st1) (WorldSystem.selectWorld 1 st1)).2.
    split; [vm_compute; reflexivity|]. split; vm_compute; reflexivity. }
  split; [exact Hin|].
  intros later Hlater. by apply (session_keeps_unlocked st1 later).
Qed.

Lemma C6_world_unlock_and_selection_witness :
  ∃ st1 later,
    WorldSystem.selectWorld 1 (scenarioB 0) = Some (true, st1)
    ∧ run afterOcean st1 = Some later
    ∧ 1%Z ∈ unlockedWorlds later.
Proof.
  destruct (C6_world_unlock_and_selection 0)
    as (_ & _ & _ & _ & _ & st1 & Hsel & _ & _ & _ & _ & _ & _ & _ & Hkeep).
  assert (st1 = (default (false, scenarioB 0)
                   (WorldSystem.selectWorld 1 (scenarioB 0))).2) as Hst1
    by (by rewrite Hsel).
  assert (run afterOcean st1 = Some (default st1 (run afterOcean st1))) as Hrun
    by (rewrite Hst1; vm_compute; reflexivity).
  exists st1, (default st1 (run afterOcean st1)).
  split; [exact Hsel|]. split; [exact Hrun|].
  apply Hkeep. exact (run_reachable afterOcean _ _ Hrun).
Defined.

(** After 56 heat and 32 fuel have been generated (Ocean Planet unlocks)
    and 10 heat have been spent on an upgrade, selectWorld(1) subtracts the
    unlock cost of 50 heat outside the ledger: the session reaches a state
    with -4 heat. *)
Lemma session_overdraws_heat (t0 : Q) :
  ∃ st, run overdraft (readyState t0) = Some st
        ∧ reachable t0 st
        ∧ resources st !! "heat" = Some (-4)
        ∧ resources st !! "fuel" = Some 7
        ∧ ¬ (∀ k v, resources st !! k = Some v → 0 <= v).
Proof.
  set (st := default (readyState t0) (run overdraft (readyState t0))).
  assert (run overdraft (readyState t0) = Some st) as Hrun by (vm_compute; reflexivity).
  assert (resources st !! "heat" = Some (-4)) as Hheat by (vm_compute; reflexivity).
  exists st. split; [exact Hrun|].
  split; [exact (run_reachable overdraft _ _ Hrun)|].
  split; [exact Hheat|]. split; [vm_compute; reflexivity|].
  intros H. specialize (H "heat" (-4) Hheat). lra.
Qed.

End Sessions.

(** ** Save data: validation and recovery *)

Section SaveValidation.
Import Save.
#[local] Open Scope Q_scope.

(** The checks of validateSaveData, in their order. *)
Lemma validate_accepts_iff (data : value) :
  validateSaveData data = true ↔
    isObject data = true
    ∧ forallb (has data) requiredProperties = true
    ∧ isNumber (get data "worldsCreated") = true
    ∧ lessThanZero (get data "worldsCreated") = false
    ∧ isObject (get data "resources") = true
    ∧ existsb (badResource (get data "resources")) resourceTypes = false
    ∧ isObject (get data "upgrades") = true
    ∧ existsb badUpgrade (map_to_list (fields (get data "upgrades"))).*2 = false
    ∧ (truthy (get data "worldHistory") && negb (isArray (get data "worldHistory")))
      = false.
Proof.
  unfold validateSaveData.
  destruct (isObject data); cbn [negb]; [|intuition discriminate].
  destruct (forallb (has data) requiredProperties); cbn [negb]; [|intuition discriminate].
  destruct (isNumber (get data "worldsCreated")); cbn [negb orb];
    [|intuition discriminate].
  destruct (lessThanZero (get data "worldsCreated")); [intuition discriminate|].
  destruct (isObject (get data "resources")); cbn [negb]; [|intuition discriminate].
  destruct (existsb (badResource (get data "resources")) resourceTypes);
    [intuition discriminate|].
  destruct (isObject (get data "upgrades")); cbn [negb]; [|intuition discriminate].
  destruct (existsb badUpgrade (map_to_list (fields (get data "upgrades"))).*2);
    [intuition discriminate|].
  destruct (truthy (get data "worldHistory") && negb (isArray (get data "worldHistory")));
    intuition discriminate.
Qed.

Lemma validate_rejects (data : value) :
  validateSaveData data ≠ true → validateSaveData data = false.
Proof. by destruct (validateSaveData data). Qed.

Lemma validate_rejects_non_object (data : value) :
  isObject data = false → validateSaveData data = false.
Proof.
  intros H. apply validate_rejects. rewrite validate_accepts_iff.
  intros (H1 & _). congruence.
Qed.

Lemma validate_rejects_missing_property (data : value) (prop : string) :
  prop ∈ requiredProperties → has data prop = false → validateSaveData data = false.
Proof.
  intros Hin Hhas. apply validate_rejects. rewrite validate_accepts_iff.
  intros (_ & Hall & _).
  rewrite forallb_forall in Hall. apply list_elem_of_In in Hin.
  specialize (Hall prop Hin). congruence.
Qed.

Lemma validate_rejects_bad_worldsCreated (data : value) :
  isNumber (get data "worldsCreated") = false ∨ lessThanZero (get data "worldsCreated") = true →
  validateSaveData data = false.
Proof.
  intros H. apply validate_rejects. rewrite validate_accepts_iff.
  intros (_ & _ & Hn & Hs & _). destruct H; congruence.
Qed.

Lemma validate_rejects_bad_resource (data : value) (resource : string) :
  resource ∈ resourceTypes →
  badResource (get data "resources") resource = true →
  validateSaveData data = false.
Proof.
  intros Hin Hbad. apply validate_rejects. rewrite validate_accepts_iff.
  intros (_ & _ & _ & _ & _ & Hex & _).
  assert (existsb (badResource (get data "resources")) resourceTypes = true) as Ht;
    [|congruence].
  apply existsb_exists. exists resource. split; [by apply list_elem_of_In|done].
Qed.

Lemma validate_rejects_bad_level (data upgrade : value) (name : string) :
  fields (get data "upgrades") !! name = Some upgrade →
  badUpgrade upgrade = true →
  validateSaveData data = false.
Proof.
  intros Hup Hbad. apply validate_rejects. rewrite validate_accepts_iff.
  intros (_ & _ & _ & _ & _ & _ & _ & Hex & _).
  assert (existsb badUpgrade (map_to_list (fields (get data "upgrades"))).*2 = true)
    as Ht; [|congruence].
  apply existsb_exists. exists upgrade. split; [|done].
  apply list_elem_of_In, list_elem_of_fmap. exists (name, upgrade).
  split; [done|]. by apply elem_of_map_to_list.
Qed.

(** A negative or non-finite amount is a bad amount; so is anything that
    is not a number. *)
Lemma badAmount_spec (v : value) :
  badAmount v = false ↔ ∃ q, v = VNum (Fin q) ∧ 0 <= q.
Proof.
  unfold badAmount. split.
  - destruct v as [| | |[q| | |]| | |]; simpl; try discriminate.
    rewrite orb_false_r. intros H%ltb_false. by exists q.
  - intros [q [-> Hq]]. simpl. rewrite orb_false_r. by apply ltb_false.
Qed.

(** Scenario E: a save whose heat is -5 is rejected. *)
Lemma validate_rejects_negative_heat (data res : value) :
  get data "resources" = res → get res "heat" = num (-5) →
  validateSaveData data = false.
Proof.
  intros Hres Hheat. apply (validate_rejects_bad_resource data "heat").
  - left.
  - rewrite Hres. unfold badResource. rewrite Hheat. reflexivity.
Qed.

Lemma mergeSave_worldsCreated (state parsedData : value) (v : value) :
  fields parsedData !! "worldsCreated" = Some v →
  get (mergeSave state parsedData) "worldsCreated" = v.
Proof.
  intros H. unfold mergeSave, get.
  rewrite !lookup_insert_ne by done.
  by rewrite (lookup_union_Some_l _ _ _ _ H).
Qed.

Lemma mergeSave_worldHistory (state parsedData : value) :
  get (mergeSave state parsedData) "worldHistory"
  = orElse (get parsedData "worldHistory") (VArr []).
Proof. unfold mergeSave, get. by rewrite lookup_insert_eq. Qed.

(** C3 (the code at the failing input).  The claim says validateSaveData
    returns false when worldsCreated holds a non-finite value.  The check
    on worldsCreated tests the type and the sign only (the checks on
    resource amounts and upgrade levels also call isFinite): the save above
    is accepted, and loading it starts the history migration loop
    [for (i = 1; i <= Infinity; i++)], which does not end. *)
Theorem C3_infinite_worldsCreated_accepted :
  isFinite (get infiniteWorlds "worldsCreated") = false
  ∧ validateSaveData infiniteWorlds = true
  ∧ ∀ fuel now state store,
      saveItem store = Some (Json infiniteWorlds) →
      loadGame (S fuel) now state store = NeverReturns.
Proof.
  split; [reflexivity|]. split; [vm_compute; reflexivity|].
  intros fuel now state store Hsave. cbn [loadGame]. rewrite Hsave.
  assert (validateSaveData infiniteWorlds = true) as -> by (vm_compute; reflexivity).
  cbn [negb].
  assert (validateAndFixState now (mergeSave state infiniteWorlds) = None) as ->.
  { unfold validateAndFixState.
    rewrite mergeSave_worldHistory.
    rewrite (mergeSave_worldsCreated state infiniteWorlds (VNum PosInf))
      by (vm_compute; reflexivity).
    assert (get infiniteWorlds "worldHistory" = VUndef) as ->
      by (vm_compute; reflexivity).
    reflexivity. }
  reflexivity.
Qed.

End SaveValidation.

Section SaveRecovery.
Import Save.
#[local] Open Scope Q_scope.

Lemma loadGame_no_save (fuel : nat) (now : Z) (state : value) (store : Storage) :
  saveItem store = None → loadGame (S fuel) now state store = Returned false state store.
Proof. intros H. cbn [loadGame]. by rewrite H. Qed.

Lemma loadGame_valid (fuel : nat) (now : Z) (state v : value) (store : Storage) :
  saveItem store = Some (Json v) → validateSaveData v = true →
  loadGame (S fuel) now state store
  = match validateAndFixState now (mergeSave state v) with
    | Some state' => Returned true state' (createBackup now store)
    | None => NeverReturns
    end.
Proof. intros Hs Hv. cbn [loadGame]. by rewrite Hs, Hv. Qed.

Lemma loadGame_unusable (fuel : nat) (now : Z) (state : value) (store : Storage)
    (item : Item) :
  saveItem store = Some item → unusable item →
  loadGame (S fuel) now state store
  = if (restoreFromBackup store).1
    then loadGame fuel now state (restoreFromBackup store).2
    else Returned false state store.
Proof.
  intros Hs Hu. cbn [loadGame]. rewrite Hs.
  destruct item as [|v]; [done|]. simpl in Hu. by rewrite Hu.
Qed.

(** A successful restore puts a save that validates into the save slot. *)
Lemma restoreFromBackup_true (store : Storage) :
  (restoreFromBackup store).1 = true →
  ∃ v, saveItem (restoreFromBackup store).2 = Some (Json v) ∧ validateSaveData v = true.
Proof.
  unfold restoreFromBackup.
  destruct (getBackupList store) as [[|b bs]|]; try done.
  destruct (head (newestFirst (b :: bs))) as [latest|]; [|done].
  destruct (backupItems store !! bk_key latest) as [[|v]|]; try done.
  destruct (validateSaveData v) eqn:Hv; [|done].
  intros _. by exists v.
Qed.

Lemma restoreFromBackup_false (store : Storage) :
  (restoreFromBackup store).1 = false → (restoreFromBackup store).2 = store.
Proof.
  unfold restoreFromBackup.
  destruct (getBackupList store) as [[|b bs]|]; try done.
  destruct (head (newestFirst (b :: bs))) as [latest|]; [|done].
  destruct (backupItems store !! bk_key latest) as [[|v]|]; try done.
  by destruct (validateSaveData v).
Qed.

(** loadGame retries at most once: two levels of fuel are always enough,
    whatever is stored. *)
Lemma loadGame_retries_once (fuel : nat) (now : Z) (state : value) (store : Storage) :
  loadGame (S (S fuel)) now state store ≠ MoreFuel.
Proof.
  destruct (saveItem store) as [item|] eqn:Hs.
  - assert (∀ f v st, saveItem st = Some (Json v) → validateSaveData v = true →
                      loadGame (S f) now state st ≠ MoreFuel) as Hvalid.
    { intros f v st Hst Hv. rewrite (loadGame_valid _ _ _ v) by done.
      by destruct (validateAndFixState now (mergeSave state v)). }
    assert (unusable item → loadGame (S (S fuel)) now state store ≠ MoreFuel) as Hbad.
    { intros Hu. rewrite (loadGame_unusable _ _ _ _ item) by done.
      destruct (restoreFromBackup store).1 eqn:Hr; [|done].
      destruct (restoreFromBackup_true store Hr) as (v & Hv1 & Hv2).
      by apply (Hvalid fuel v). }
    destruct item as [|v]; [by apply Hbad|].
    destruct (validateSaveData v) eqn:Hv; [by apply (Hvalid (S fuel) v)|by apply Hbad].
  - by rewrite loadGame_no_save.
Qed.

(** When loadGame reports failure the in-memory state is the one it was
    called with. *)
Lemma loadGame_failure_keeps_state (fuel : nat) (now : Z) (state state' : value)
    (store store' : Storage) :
  loadGame fuel now state store = Returned false state' store' → state' = state.
Proof.
  revert store. induction fuel as [|fuel IH]; intros store; [done|].
  cbn [loadGame].
  destruct (saveItem store) as [[|v]|]; [| |by intros [= <- <-]].
  - destruct (restoreFromBackup store).1; [apply IH|by intros [= <- <-]].
  - destruct (validateSaveData v); cbn [negb].
    + by destruct (validateAndFixState now (mergeSave state v)).
    + destruct (restoreFromBackup store).1; [apply IH|by intros [= <- <-]].
Qed.

(** Scenario E: a stored save with -5 heat and no backup to fall back on.
    loadGame returns false and keeps the state it was called with. *)
Lemma loadGame_corrupted_no_backup (fuel : nat) (now : Z) (state data : value)
    (store : Storage) :
  saveItem store = Some (Json data) →
  get (get data "resources") "heat" = num (-5) →
  backupIndex store = None →
  loadGame (S fuel) now state store = Returned false state store.
Proof.
  intros Hs Hheat Hidx.
  rewrite (loadGame_unusable _ _ _ _ (Json data)); [|done|].
  - unfold restoreFromBackup, getBackupList. by rewrite Hidx.
  - simpl. by apply (validate_rejects_negative_heat data (get data "resources")).
Qed.

(** Scenario E with a backup: when the newest backup validates, the load is
    retried on it and succeeds (or, for an infinite worldsCreated, hangs). *)
Lemma loadGame_corrupted_with_backup (fuel : nat) (now : Z) (state backup : value)
    (store : Storage) (item : Item) (b : BackupMeta) (bs : list BackupMeta) :
  saveItem store = Some item → unusable item →
  backupIndex store = Some (IndexList (b :: bs)) →
  (∃ latest, head (newestFirst (b :: bs)) = Some latest
             ∧ backupItems store !! bk_key latest = Some (Json backup)) →
  validateSaveData backup = true →
  loadGame (S (S fuel)) now state store
  = match validateAndFixState now (mergeSave state backup) with
    | Some state' =>
        Returned true state'
          (createBackup now
             (mkStorage (Some (Json backup)) (backupIndex store) (backupItems store)))
    | None => NeverReturns
    end.
Proof.
  intros Hs Hu Hidx (latest & Hhead & Hitem) Hv.
  rewrite (loadGame_unusable _ _ _ _ item) by done.
  unfold restoreFromBackup, getBackupList. rewrite Hidx, Hhead, Hitem, Hv.
  cbn [fst snd]. by rewrite (loadGame_valid _ _ _ backup).
Qed.

End SaveRecovery.

(** ** Save data: what validateAndFixState writes *)

Section Repair.
Import Save.
#[local] Open Scope Q_scope.

Lemma insert_if_missing (m : gmap string value) (k : string) :
  (if truthy (default VUndef (m !! k)) then m else <[k := VArr []]> m)
  = <[k := if truthy (default VUndef (m !! k)) then default VUndef (m !! k)
           else VArr []]> m.
Proof.
  destruct (m !! k) as [v|] eqn:Hk; simpl.
  - destruct (truthy v); [|done]. symmetry. by apply insert_id.
  - reflexivity.
Qed.

Lemma placeholderHistory_array (now : Z) (w h : value) :
  placeholderHistory now w = Some h → ∃ l, h = VArr l.
Proof.
  unfold placeholderHistory.
  destruct w as [| | |[q| | |]| | |]; intros [= <-]; by eexists.
Qed.

(** validateAndFixState as four assignments. *)
Lemma validateAndFixState_assigns (now : Z) (m : gmap string value) :
  validateAndFixState now (VObj m)
  = h ← fixedHistory now m;
    Some (VObj (<["resources" := fixedResources m]>
               (<["activeEvents" := fixedEvents m]>
               (<["upgrades" := VObj (fixedUpgrades m)]>
               (<["worldHistory" := h]> m))))).
Proof.
  unfold validateAndFixState, fixedHistory, fixedResources, fixedEvents, fixedUpgrades.
  cbn [fields get].
  set (history := default VUndef (m !! "worldHistory")).
  set (wc := default VUndef (m !! "worldsCreated")).
  destruct ((negb (truthy history) || isZero (get history "length"))
            && greaterThanZero wc) eqn:Hmigrate.
  - destruct (placeholderHistory now wc) as [h|] eqn:Hh; [|reflexivity].
    cbn [mbind option_bind].
    destruct (placeholderHistory_array now wc h Hh) as [l ->].
    rewrite lookup_insert_eq. cbn [default]. unfold id. cbn [truthy].
    rewrite (lookup_insert_ne _ "worldHistory" "upgrades") by done.
    rewrite insert_if_missing.
    rewrite (lookup_insert_ne _ "upgrades" "activeEvents") by done.
    rewrite (lookup_insert_ne _ "worldHistory" "activeEvents") by done.
    rewrite (lookup_insert_ne _ "activeEvents" "resources") by done.
    rewrite (lookup_insert_ne _ "upgrades" "resources") by done.
    rewrite (lookup_insert_ne _ "worldHistory" "resources") by done.
    reflexivity.
  - cbn [mbind option_bind]. rewrite (insert_if_missing m "worldHistory").
    fold history.
    rewrite (lookup_insert_ne _ "worldHistory" "upgrades") by done.
    rewrite insert_if_missing.
    rewrite (lookup_insert_ne _ "upgrades" "activeEvents") by done.
    rewrite (lookup_insert_ne _ "worldHistory" "activeEvents") by done.
    rewrite (lookup_insert_ne _ "activeEvents" "resources") by done.
    rewrite (lookup_insert_ne _ "upgrades" "resources") by done.
    rewrite (lookup_insert_ne _ "worldHistory" "resources") by done.
    reflexivity.
Qed.

Lemma fixUpgrade_fold_lookup (ds : list (string * value)) (ups : gmap string value)
    (k : string) :
  NoDup ds.*1 →
  foldl fixUpgrade ups ds !! k
  = match (list_to_map ds : gmap string value) !! k with
    | Some d =>
        Some (if truthy (default VUndef (ups !! k))
              then spread d (default VUndef (ups !! k)) else d)
    | None => ups !! k
    end.
Proof.
  revert ups. induction ds as [|[k0 d0] ds IH]; intros ups Hnd; [done|].
  apply NoDup_cons in Hnd as [Hk0 Hnd]. cbn [foldl].
  rewrite (IH _ Hnd). unfold fixUpgrade. cbn [fst snd list_to_map foldr].
  destruct (decide (k = k0)) as [->|Hne].
  - rewrite (not_elem_of_list_to_map_1 (M := gmap string) _ k0) by done.
    by rewrite !lookup_insert_eq.
  - rewrite (lookup_insert_ne (list_to_map ds) k0 k) by done.
    by rewrite (lookup_insert_ne ups k0 k) by done.
Qed.

Lemma defaultUpgradesV_NoDup : NoDup defaultUpgradesV.*1.
Proof.
  simpl.
  repeat (apply NoDup_cons; split;
          [intros Hx; repeat (apply elem_of_cons in Hx as [Hx|Hx]; [discriminate Hx|]);
           inversion Hx|]).
  apply NoDup_nil_2.
Qed.

Lemma defaultUpgradesV_objects (k : string) (d : value) :
  (list_to_map defaultUpgradesV : gmap string value) !! k = Some d → ∃ dm, d = VObj dm.
Proof.
  intros Hd. apply elem_of_list_to_map_2 in Hd. unfold defaultUpgradesV in Hd.
  repeat (apply elem_of_cons in Hd as [Hd|Hd];
          [injection Hd as -> ->; unfold obj; by eexists|]).
  inversion Hd.
Qed.

End Repair.

(** ** Save data: loading what was saved *)

Section RoundTrip.
Import Save.
#[local] Open Scope Q_scope.

Lemma cleanupOldBackups_saveItem (store : Storage) :
  saveItem (cleanupOldBackups store) = saveItem store.
Proof.
  unfold cleanupOldBackups. destruct (getBackupList store) as [backups|]; [|done].
  by destruct (3 <? length backups)%nat.
Qed.

Lemma saveGame_saveItem (now : Z) (state : value) (store : Storage) :
  saveItem (saveGame now state store) = Some (Json (serialise state)).
Proof. unfold saveGame. by rewrite cleanupOldBackups_saveItem. Qed.

(** Spreading an object over one whose properties it all has leaves it as it is. *)
Lemma union_covers (big small : gmap string value) :
  covers big small → big ∪ small = big.
Proof.
  intros Hcov. apply map_eq. intros k. rewrite lookup_union.
  destruct (big !! k) as [x|] eqn:Hbig.
  - by destruct (small !! k).
  - destruct (small !! k) as [y|] eqn:Hsmall; [|done].
    destruct (Hcov k) as [x Hx]; [by eexists|]. by rewrite Hbig in Hx.
Qed.

(** A cover is settled by running through the properties of the smaller object. *)
Lemma covers_forallb (big small : gmap string value) :
  forallb (λ kv : string * value,
             match big !! kv.1 with Some _ => true | None => false end)
          (map_to_list small) = true →
  covers big small.
Proof.
  intros Hall k [x Hx]. rewrite forallb_forall in Hall.
  specialize (Hall (k, x)). cbn [fst] in Hall.
  destruct (big !! k); [by eexists|].
  discriminate Hall. apply list_elem_of_In. by apply elem_of_map_to_list.
Qed.

(** The merge of loadGame gives back the saved state when the saved state
    has every property of the state in memory, at the top and inside each
    merged object. *)
Lemma mergeSave_covered (c m : gmap string value) :
  covers m c →
  (∀ k, k ∈ mergedObjects →
     ∃ mk, m !! k = Some (VObj mk) ∧ covers mk (fields (get (VObj c) k))) →
  (∃ w, m !! "currentWorld" = Some w
        ∧ (truthy w = true ∨ get (VObj c) "currentWorld" = w)) →
  (∃ l, m !! "worldHistory" = Some (VArr l)) →
  mergeSave (VObj c) (VObj m) = VObj m.
Proof.
  intros Htop Hobj (w & Hw & Hcw) [l Hl]. unfold mergeSave. f_equal.
  assert (∀ k, k ∈ mergedObjects →
               m !! k = Some (spread (get (VObj c) k) (get (VObj m) k))) as Hk.
  { intros k Hin. destruct (Hobj k Hin) as (mk & Hmk & Hcov).
    rewrite Hmk. unfold spread. f_equal. f_equal.
    change (get (VObj m) k) with (default VUndef (m !! k)). rewrite Hmk.
    symmetry. exact (union_covers _ _ Hcov). }
  cbn [fields]. rewrite (union_covers _ _ Htop).
  rewrite (insert_id m "upgrades") by (apply Hk; apply list_elem_of_In; simpl; tauto).
  rewrite (insert_id m "resources") by (apply Hk; apply list_elem_of_In; simpl; tauto).
  rewrite (insert_id m "currentWorld").
  2:{ change (get (VObj m) "currentWorld") with (default VUndef (m !! "currentWorld")).
      rewrite Hw. cbn [default]. unfold orElse, id.
      destruct (truthy w) eqn:Ht; [done|]. by destruct Hcw as [?| ->]. }
  rewrite (insert_id m "permanentBonuses") by (apply Hk; apply list_elem_of_In; simpl; tauto).
  rewrite (insert_id m "worldTiers") by (apply Hk; apply list_elem_of_In; simpl; tauto).
  rewrite (insert_id m "unlocks") by (apply Hk; apply list_elem_of_In; simpl; tauto).
  rewrite (insert_id m "achievements") by (apply Hk; apply list_elem_of_In; simpl; tauto).
  rewrite (insert_id m "settings") by (apply Hk; apply list_elem_of_In; simpl; tauto).
  apply insert_id. cbn [get]. by rewrite Hl.
Qed.

(** validateAndFixState returns a state that needs no repair as it is. *)
Lemma needsNoRepair_fixed (now : Z) (m ups res : gmap string value) :
  m !! "upgrades" = Some (VObj ups) →
  m !! "resources" = Some (VObj res) →
  needsNoRepair m →
  validateAndFixState now (VObj m) = Some (VObj m).
Proof.
  intros Hups Hres ((l & Hl & Hmigrate) & Hdefaults & (ev & Hev & Htruthy) & Hbasic).
  rewrite validateAndFixState_assigns.
  assert (fixedHistory now m = Some (VArr l)) as ->.
  { unfold fixedHistory. rewrite Hl. change (default VUndef (Some ?x)) with x.
    cbn [truthy negb orb get]. rewrite String.eqb_refl.
    destruct l as [|x l]; [by rewrite (Hmigrate eq_refl), andb_false_r|].
    unfold num. cbn [isZero length].
    assert (Qeq_bool (inject_Z (Z.of_nat (S (length l)))) 0 = false) as ->; [|done].
    apply not_true_iff_false. intros Heq. apply Qeq_bool_iff in Heq.
    unfold Qeq in Heq. simpl in Heq. lia. }
  cbn [mbind option_bind].
  assert (fixedUpgrades m = ups) as ->.
  { unfold fixedUpgrades. rewrite Hups. change (default VUndef (Some ?x)) with x. cbn [fields].
    apply map_eq. intros k. rewrite (fixUpgrade_fold_lookup _ _ _ defaultUpgradesV_NoDup).
    destruct (_ !! k) as [d|] eqn:Hd; [|done].
    apply elem_of_list_to_map_2 in Hd.
    destruct (Hdefaults k d Hd) as (u & Hu & Hcov).
    rewrite Hups in Hu. change (default VUndef (Some ?x)) with x in Hu. cbn [fields] in Hu.
    rewrite Hu. change (default VUndef (Some ?x)) with x. cbn [truthy]. unfold spread. cbn [fields].
    by rewrite (union_covers _ _ Hcov). }
  assert (fixedEvents m = ev) as ->.
  { unfold fixedEvents. rewrite Hev. change (default VUndef (Some ?x)) with x. by rewrite Htruthy. }
  assert (fixedResources m = VObj res) as ->.
  { unfold fixedResources, spread. rewrite Hres in *.
    change (default VUndef (Some ?x)) with x in *. cbn [fields] in *. by rewrite (union_covers _ _ Hbasic). }
  rewrite (insert_id m "worldHistory") by done.
  rewrite (insert_id m "upgrades") by done.
  rewrite (insert_id m "activeEvents") by done.
  by rewrite (insert_id m "resources").
Qed.

(** C4, as stated, fails on the very state a session starts with: it has
    no worldTiers and no unlocks property, and loadGame adds both (as empty
    objects) to what it restores. *)
Lemma C4_load_adds_properties :
  ¬ (∀ (s : value) (store : Storage) (now1 now2 : Z),
       validateSaveData s = true →
       ∃ store', loadGame 2 now2 s (saveGame now1 s store) = Returned true s store').
Proof.
  intros H.
  destruct (H constructorState emptyStorage 1%Z 2%Z) as [store' Hload];
    [vm_compute; reflexivity|].
  fold firstLoad in Hload.
  assert (∀ ok st store1, firstLoad = Returned ok st store1 →
                          has st "worldTiers" = true) as Hnew.
  { intros ok st store1 E.
    assert (match firstLoad with
            | Returned _ st _ => has st "worldTiers"
            | _ => true
            end = true) as Hm by (vm_compute; reflexivity).
    rewrite E in Hm. exact Hm. }
  assert (has constructorState "worldTiers" = false) as Hold
    by (vm_compute; reflexivity).
  pose proof (eq_trans (eq_sym (Hnew _ _ _ Hload)) Hold) as Hc.
  discriminate Hc.
Qed.

(** The objects a state holds under the merged properties, found by
    looking at the tag and running through the other state's properties. *)
Lemma covered_object (c m : gmap string value) (k : string) :
  match m !! k with
  | Some (VObj mk) =>
      forallb (λ kv : string * value,
                 match mk !! kv.1 with Some _ => true | None => false end)
              (map_to_list (fields (get (VObj c) k)))
  | _ => false
  end = true →
  ∃ mk, m !! k = Some (VObj mk) ∧ covers mk (fields (get (VObj c) k)).
Proof.
  destruct (m !! k) as [[| | | | | |mk]|]; try discriminate.
  intros Hall. exists mk. split; [done|]. by apply covers_forallb.
Qed.

(** C4 (amended).  Whatever state c the session holds when it loads, saving
    a state s and then loading restores s field for field, provided that s
    passes validation and survives JSON serialisation unchanged, that s has
    every property c has, at the top and inside each of the objects loadGame
    merges (upgrades, resources, permanentBonuses, worldTiers, unlocks,
    achievements, settings, all of them objects in s), that the current
    world of s is set or is the one of c, and that s needs no repair (its
    world history is an array with no migration due, the six upgrades and
    the five basic resources are complete, activeEvents is set).  Only the
    backup bookkeeping in storage differs. *)
Theorem C4_save_then_load (c m : gmap string value) (store : Storage) (now1 now2 : Z) :
  validateSaveData (VObj m) = true →
  serialise (VObj m) = VObj m →
  covers m c →
  (∀ k, k ∈ mergedObjects →
     ∃ mk, m !! k = Some (VObj mk) ∧ covers mk (fields (get (VObj c) k))) →
  (∃ w, m !! "currentWorld" = Some w
        ∧ (truthy w = true ∨ get (VObj c) "currentWorld" = w)) →
  needsNoRepair m →
  ∀ fuel,
    loadGame (S fuel) now2 (VObj c) (saveGame now1 (VObj m) store)
    = Returned true (VObj m) (createBackup now2 (saveGame now1 (VObj m) store)).
Proof.
  intros Hvalid Hjson Htop Hobj Hcw Hcomplete fuel.
  destruct (Hobj "upgrades") as (ups & Hups & _);
    [apply list_elem_of_In; simpl; tauto|].
  destruct (Hobj "resources") as (res & Hres & _);
    [apply list_elem_of_In; simpl; tauto|].
  rewrite (loadGame_valid _ _ _ (VObj m)).
  - rewrite mergeSave_covered; [|done|done|done|].
    + by rewrite (needsNoRepair_fixed now2 m ups res).
    + destruct Hcomplete as ((l & Hl & _) & _). by exists l.
  - rewrite saveGame_saveItem. by rewrite Hjson.
  - done.
Qed.

Lemma C4_save_then_load_witness :
  loadGame 1 4 constructorState (saveGame 3 (VObj playedFields) emptyStorage)
  = Returned true (VObj playedFields)
      (createBackup 4 (saveGame 3 (VObj playedFields) emptyStorage)).
Proof.
  apply (C4_save_then_load (fields constructorState) playedFields emptyStorage 3 4).
  - reflexivity.
  - reflexivity.
  - apply covers_forallb. reflexivity.
  - intros k Hk. apply covered_object. unfold mergedObjects in Hk.
    repeat (apply elem_of_cons in Hk as [->|Hk]; [reflexivity|]).
    inversion Hk.
  - eexists. split; [reflexivity|]. by left.
  - split; [|split; [|split]].
    + eexists. split; [reflexivity|]. discriminate.
    + intros k d Hkd. unfold defaultUpgradesV in Hkd.
      repeat (apply elem_of_cons in Hkd as [[= -> ->]|Hkd];
              [eexists; split; [reflexivity|]; apply covers_forallb; reflexivity|]).
      inversion Hkd.
    + eexists. split; [reflexivity|]. reflexivity.
    + apply covers_forallb. reflexivity.
Defined.

End RoundTrip.

Section CapsOnLoad.
Import Save.
#[local] Open Scope Q_scope.

(** loadGame copies the stored amounts into the state without passing them
    through the cap loop: after the load the state holds 150 pressure in a
    world without special effects, whose pressure cap is 100. *)
Lemma load_exceeds_cap :
  validateSaveData overPressure = true
  ∧ ∃ st' store',
      loadGame 1 5 constructorState overPressureStorage = Returned true st' store'
      ∧ get (get st' "resources") "pressure" = num 150
      ∧ get st' "currentWorld" = VNull.
Proof.
  split; [vm_compute; reflexivity|].
  exists (match loadGame 1 5 constructorState overPressureStorage with
          | Returned _ st _ => st
          | _ => VUndef
          end),
         (createBackup 5 overPressureStorage).
  split; [reflexivity|]. split; vm_compute; reflexivity.
Qed.

(** C1 (the code at the failing inputs).  The claim says every reachable
    state keeps every amount non-negative and under its cap.  Two paths
    write amounts outside the ledger.  (1) selectWorld subtracts the unlock
    cost without a check: after 56 heat and 32 fuel have been generated
    (Ocean Planet unlocks) and 10 heat spent on an upgrade, selecting Ocean
    Planet leaves -4 heat.  (2) loadGame restores stored amounts without
    the cap loop: a valid save with 150 pressure leaves 150 pressure under
    a cap of 100. *)
Theorem C1_ledger_bypassed (t0 : Q) :
  (∃ st, Session.run overdraft (readyState t0) = Some st
         ∧ Session.reachable t0 st
         ∧ resources st !! "heat" = Some (-4)
         ∧ ¬ (∀ k v, resources st !! k = Some v → 0 <= v))
  ∧ (validateSaveData overPressure = true
     ∧ ∃ st' store',
         loadGame 1 5 constructorState overPressureStorage = Returned true st' store'
         ∧ get (get st' "resources") "pressure" = num 150
         ∧ get st' "currentWorld" = VNull
         ∧ GameState.caps (readyState t0) !! 2%nat = Some ("pressure", Some 100)).
Proof.
  split.
  - destruct (session_overdraws_heat t0) as (st & H1 & H2 & H3 & _ & H5).
    exists st. split; [exact H1|]. split; [exact H2|]. split; [exact H3|exact H5].
  - destruct load_exceeds_cap as (Hv & st' & store' & H1 & H2 & H3).
    split; [exact Hv|]. exists st', store'.
    split; [exact H1|]. split; [exact H2|]. split; [exact H3|].
    unfold GameState.caps, readyState; reflexivity.
Qed.

End CapsOnLoad.

(** ** WorldSystem: unlocking, progress display and selection *)

Section Worlds.
Import WorldSystem.
#[local] Open Scope Q_scope.

(** The catalogue numbers its worlds by their position. *)
Lemma getWorldById_id (worldId : Z) (world : WorldDef) :
  getWorldById worldId = Some world → wd_id world = worldId ∧ world ∈ worldDefinitions.
Proof.
  unfold getWorldById. destruct (worldId <? 0)%Z eqn:Hneg; [done|].
  apply Z.ltb_ge in Hneg. intros Hlook. split; [|by eapply list_elem_of_lookup_2].
  assert (Z.to_nat worldId < 8)%nat as Hlt.
  { apply lookup_lt_Some in Hlook. exact Hlook. }
  assert (worldId = Z.of_nat (Z.to_nat worldId)) as Hid by lia.
  rewrite Hid. clear Hid.
  destruct (Z.to_nat worldId) as [|[|[|[|[|[|[|[|n]]]]]]]];
    try (injection Hlook as <-; reflexivity).
  lia.
Qed.

Lemma getWorldById_catalogue (world : WorldDef) :
  world ∈ worldDefinitions → getWorldById (wd_id world) = Some world.
Proof.
  unfold worldDefinitions. intros H.
  repeat (apply elem_of_cons in H as [->|H]; [reflexivity|]).
  inversion H.
Qed.

Lemma catalogue_requirements_positive (world : WorldDef) (r : string * Q) :
  world ∈ worldDefinitions → r ∈ wd_unlockRequirements world → 0 < r.2.
Proof.
  unfold worldDefinitions. intros H Hr.
  repeat (apply elem_of_cons in H as [->|H];
          [simpl in Hr;
           repeat (apply elem_of_cons in Hr as [->|Hr]; [reflexivity|]);
           inversion Hr|]).
  inversion H.
Qed.

(** checkWorldUnlocks unlocks at most one world per call: the first
    catalogue entry that is locked and whose requirements are met.  Its id
    is appended to unlockedWorlds and nothing else changes; when no locked
    world qualifies the state is left as it is. *)
Theorem checkWorldUnlocks_first_unlockable (st : State) :
  match checkWorldUnlocks st with
  | (Some id, st') =>
      ∃ before world after,
        worldDefinitions = before ++ world :: after ∧ wd_id world = id
        ∧ (id ∉ unlockedWorlds st) ∧ canUnlockWorld st id = true
        ∧ st' = with_unlockedWorlds (unlockedWorlds st ++ [id]) st
        ∧ ∀ w, w ∈ before →
            (wd_id w ∈ unlockedWorlds st) ∨ canUnlockWorld st (wd_id w) = false
  | (None, st') =>
      st' = st
      ∧ ∀ w, w ∈ worldDefinitions →
          (wd_id w ∈ unlockedWorlds st) ∨ canUnlockWorld st (wd_id w) = false
  end.
Proof.
  unfold checkWorldUnlocks. generalize worldDefinitions as defs.
  induction defs as [|w defs IH]; simpl.
  - split; [done|]. intros w Hw. inversion Hw.
  - destruct (includes (wd_id w) (unlockedWorlds st)) eqn:Hinc.
    + apply includes_elem_of in Hinc.
      destruct (checkWorldUnlocks_from defs st) as [[id|] st'].
      * destruct IH as (before & world & after & -> & Hid & Hlocked & Hcan & Hst & Hbefore).
        exists (w :: before), world, after. repeat split; try done.
        intros w' Hw'. apply elem_of_cons in Hw' as [->|Hw']; [by left|by apply Hbefore].
      * destruct IH as [-> Hall]. split; [done|].
        intros w' Hw'. apply elem_of_cons in Hw' as [->|Hw']; [by left|by apply Hall].
    + assert (wd_id w ∉ unlockedWorlds st) as Hnot.
      { intros Hin. apply includes_elem_of in Hin. congruence. }
      destruct (canUnlockWorld st (wd_id w)) eqn:Hcan.
      * exists [], w, defs. repeat split; try done. intros w' Hw'. inversion Hw'.
      * destruct (checkWorldUnlocks_from defs st) as [[id|] st'].
        -- destruct IH as (before & world & after & -> & Hid & Hlocked & Hcan' & Hst & Hbefore).
           exists (w :: before), world, after. repeat split; try done.
           intros w' Hw'.
           apply elem_of_cons in Hw' as [->|Hw']; [by right|by apply Hbefore].
        -- destruct IH as [-> Hall]. split; [done|].
           intros w' Hw'.
           apply elem_of_cons in Hw' as [->|Hw']; [by right|by apply Hall].
Qed.

(** The world that getNextUnlockableWorld reports is by construction not
    unlocked, and selectWorld refuses a world that is not unlocked: called
    with the reported id (as Game.createWorld does) it returns false and
    leaves the state untouched, whatever the resources are. *)
Theorem selectWorld_rejects_next_world (st : State) (next : NextWorld) :
  getNextUnlockableWorld st = Some next →
  selectWorld (wd_id (nw_world next)) st = Some (false, st).
Proof.
  unfold getNextUnlockableWorld.
  destruct (List.find _ worldDefinitions) as [world|] eqn:Hfind; [|done].
  intros [= <-]. simpl.
  apply find_some in Hfind as [Hin Hlocked].
  apply list_elem_of_In in Hin.
  unfold selectWorld. rewrite (getWorldById_catalogue world Hin).
  by rewrite Hlocked.
Qed.

Lemma selectWorld_rejects_next_world_witness :
  canUnlockWorld (with_resources (<["heat" := 60]> (<["fuel" := 30]> initialResources))
                    (readyState 0)) 1 = true
  ∧ selectWorld 1 (with_resources (<["heat" := 60]> (<["fuel" := 30]> initialResources))
                     (readyState 0))
    = Some (false, with_resources (<["heat" := 60]> (<["fuel" := 30]> initialResources))
                     (readyState 0)).
Proof.
  split; [reflexivity|].
  set (st := with_resources _ _).
  exact (selectWorld_rejects_next_world st
           (default (mkNextWorld (mkWorldDef 0 "" "" "" [] [] [] 0 0 0 0 false) false [] [])
              (getNextUnlockableWorld st))
           eq_refl).
Defined.

(** getNextUnlockableWorld reports nothing exactly when every world of the
    catalogue is unlocked. *)
Lemma getNextUnlockableWorld_none (st : State) :
  getNextUnlockableWorld st = None ↔
  ∀ world, world ∈ worldDefinitions → wd_id world ∈ unlockedWorlds st.
Proof.
  unfold getNextUnlockableWorld. split.
  - destruct (List.find _ worldDefinitions) eqn:Hfind; [done|]. intros _ world Hin.
    apply list_elem_of_In in Hin.
    pose proof (find_none _ _ Hfind world Hin) as H. simpl in H.
    apply negb_false_iff in H. by apply includes_elem_of.
  - intros Hall. destruct (List.find _ worldDefinitions) as [world|] eqn:Hfind; [|done].
    apply find_some in Hfind as [Hin Hlocked].
    apply list_elem_of_In, Hall, includes_elem_of in Hin.
    rewrite Hin in Hlocked. discriminate.
Qed.

Lemma floor_at_least (z : Z) (x : Q) : inject_Z z <= Num.floor x ↔ inject_Z z <= x.
Proof.
  unfold Num.floor. split.
  - intros H. eapply Qle_trans; [exact H|apply Qfloor_le].
  - intros H. rewrite <- Zle_Qle. rewrite <- (Qfloor_Z z). by apply Qfloor_resp_le.
Qed.

Lemma or_else_eq (q d : Q) : Num.or_else (Some q) 0 == q.
Proof.
  unfold Num.or_else, Num.truthy. destruct (Qeq_bool q 0) eqn:H; simpl; [|reflexivity].
  apply Qeq_bool_iff in H. by rewrite H.
Qed.

(** One line of the progress display against the unlock test, for a
    resource the state holds. *)
Lemma percentage_full_iff (have required : Q) :
  0 < required →
  let done := Num.floor (Num.or_else (Some have) 0 / required * 100) in
  (if Num.ltb done 100 then done else 100) == 100 ↔ required <= have.
Proof.
  intros Hpos done.
  assert (inject_Z 100 <= done ↔ required <= have) as Hdone.
  { unfold done. rewrite floor_at_least, (or_else_eq have 0).
    change (inject_Z 100) with 100.
    assert (¬ required == 0) as Hnz
      by (intros H0; rewrite H0 in Hpos; by apply Qlt_irrefl in Hpos).
    split; intros H.
    - assert (1 <= have / required) as H1 by lra.
      apply (Qmult_le_compat_r _ _ required) in H1; [|by apply Qlt_le_weak].
      rewrite Qmult_1_l, (Qmult_comm (have / required)), Qmult_div_r in H1 by done.
      exact H1.
    - assert (1 <= have / required) as H1
        by (apply Qle_shift_div_l; [done|by rewrite Qmult_1_l]).
      lra. }
  destruct (Num.ltb done 100) eqn:Hlt.
  - apply ltb_true in Hlt. split.
    + intros Heq. rewrite Heq in Hlt. by apply Qlt_irrefl in Hlt.
    + intros H. apply Hdone in H. change (inject_Z 100) with 100 in H.
      exfalso. by apply (Qlt_not_le _ _ Hlt).
  - apply ltb_false in Hlt. split; [|reflexivity].
    intros _. by apply Hdone.
Qed.

(** The progress display agrees with the unlock test on the resources the
    state holds: canUnlockWorld accepts a world exactly when every line of
    getUnlockProgress stands at 100 percent. *)
Theorem unlock_progress_full_iff_unlockable (st : State) (worldId : Z) (world : WorldDef) :
  getWorldById worldId = Some world →
  (∀ r, r ∈ wd_unlockRequirements world → is_Some (resources st !! r.1)) →
  canUnlockWorld st worldId = true ↔
  ∀ p, p ∈ getUnlockProgress st worldId → pr_percentage p.2 == 100.
Proof.
  intros Hworld Hheld. unfold canUnlockWorld, getUnlockProgress. rewrite Hworld.
  apply getWorldById_id in Hworld as [_ Hcat].
  rewrite forallb_forall. split.
  - intros Hall p Hp. apply list_elem_of_fmap in Hp as [r [-> Hr]]. simpl.
    destruct (Hheld r Hr) as [have Hhave]. rewrite Hhave.
    apply percentage_full_iff; [by eapply catalogue_requirements_positive|].
    apply list_elem_of_In, Hall in Hr. unfold requirement_met in Hr.
    rewrite Hhave in Hr. apply negb_true_iff, ltb_false in Hr. exact Hr.
  - intros Hall r Hr. apply list_elem_of_In in Hr.
    destruct (Hheld r Hr) as [have Hhave]. unfold requirement_met. rewrite Hhave.
    apply negb_true_iff, ltb_false.
    apply (percentage_full_iff have r.2); [by eapply catalogue_requirements_positive|].
    rewrite <- Hhave.
    apply (Hall (r.1, mkProgress (Num.or_else (resources st !! r.1) 0) r.2 _)).
    apply list_elem_of_fmap. by exists r.
Qed.

Lemma unlock_progress_full_iff_unlockable_witness :
  canUnlockWorld (scenarioB 0) 1 = true ↔
  ∀ p, p ∈ getUnlockProgress (scenarioB 0) 1 → pr_percentage p.2 == 100.
Proof.
  apply (unlock_progress_full_iff_unlockable (scenarioB 0) 1
           (default (mkWorldDef 0 "" "" "" [] [] [] 0 0 0 0 false) (getWorldById 1)));
    [reflexivity|].
  intros r Hr. simpl in Hr.
  repeat (apply elem_of_cons in Hr as [->|Hr]; [by eexists|]). inversion Hr.
Defined.

Lemma getAvailableWorlds_elem (st : State) (world : WorldDef) :
  world ∈ getAvailableWorlds st ↔
  world ∈ worldDefinitions ∧ wd_id world ∈ unlockedWorlds st.
Proof.
  unfold getAvailableWorlds. rewrite list_elem_of_filter, includes_elem_of. tauto.
Qed.

(** selectWorld returns false exactly for the ids that are not among the
    available worlds (getAvailableWorlds), and then leaves the state
    untouched. *)
Theorem selectWorld_refuses_iff_unavailable (st st' : State) (worldId : Z) :
  selectWorld worldId st = Some (false, st') ↔
  st' = st ∧ ∀ world, world ∈ getAvailableWorlds st → wd_id world ≠ worldId.
Proof.
  unfold selectWorld. destruct (getWorldById worldId) as [world|] eqn:Hworld.
  - apply getWorldById_id in Hworld as [Hid Hcat].
    destruct (includes worldId (unlockedWorlds st)) eqn:Hinc; simpl.
    + split.
      * destruct (worldProgress st <? worldId)%Z; simpl; [|done].
        by destruct (deduct_all _ _).
      * intros [_ Hnone]. exfalso. apply (Hnone world); [|done].
        apply getAvailableWorlds_elem. split; [done|].
        rewrite Hid. by apply includes_elem_of.
    + split.
      * intros [= <-]. split; [done|]. intros w Hw Heq.
        apply getAvailableWorlds_elem in Hw as [_ Hw].
        rewrite Heq in Hw. apply includes_elem_of in Hw. congruence.
      * by intros [-> _].
  - split.
    + intros [= <-]. split; [done|]. intros w Hw Heq.
      apply getAvailableWorlds_elem in Hw as [Hw _].
      apply getWorldById_catalogue in Hw. rewrite Heq in Hw. congruence.
    + by intros [-> _].
Qed.

Lemma selectWorld_true_inv (st st1 : State) (worldId : Z) :
  selectWorld worldId st = Some (true, st1) →
  (∃ world, getWorldById worldId = Some world)
  ∧ unlockedWorlds st1 = unlockedWorlds st
  ∧ (worldId <= worldProgress st1)%Z.
Proof.
  unfold selectWorld. destruct (getWorldById worldId) as [world|]; [|done].
  destruct (includes worldId (unlockedWorlds st)); simpl; [|done].
  destruct (worldProgress st <? worldId)%Z eqn:Hlt; simpl.
  - destruct (deduct_all _ _); simpl; [|done]. intros [= <-]. simpl.
    split; [by eexists|]. split; [done|lia].
  - apply Z.ltb_ge in Hlt. intros [= <-]. simpl. split; [by eexists|]. done.
Qed.

Lemma getWorldById_in_range (worldId lower : Z) :
  is_Some (getWorldById worldId) → (0 <= lower <= worldId)%Z →
  is_Some (getWorldById lower).
Proof.
  unfold getWorldById. intros [world Hw] [H0 Hle].
  destruct (worldId <? 0)%Z eqn:Hneg; [done|].
  apply lookup_lt_Some in Hw.
  destruct (lower <? 0)%Z eqn:Hneg'; [apply Z.ltb_lt in Hneg'; lia|].
  apply lookup_lt_is_Some. lia.
Qed.

(** The unlock cost is charged by progress, not by world: once selectWorld
    has accepted a world, selecting any unlocked world with a lower or equal
    id only replaces currentWorld; no resource is deducted and worldsCreated
    does not move, even for a world that was never paid for. *)
Theorem selectWorld_lower_worlds_free (st st1 : State) (worldId lower : Z) :
  selectWorld worldId st = Some (true, st1) →
  (0 <= lower <= worldId)%Z →
  lower ∈ unlockedWorlds st →
  ∃ world,
    getWorldById lower = Some world
    ∧ selectWorld lower st1
      = Some (true, with_currentWorld (Some (asCurrentWorld world lower)) st1).
Proof.
  intros Hsel Hrange Hunlocked.
  apply selectWorld_true_inv in Hsel as (Hworld & Hsame & Hprogress).
  destruct (getWorldById_in_range worldId lower Hworld Hrange) as [world Hlower].
  exists world. split; [done|].
  unfold selectWorld. rewrite Hlower, Hsame.
  apply includes_elem_of in Hunlocked. rewrite Hunlocked. simpl.
  assert ((worldProgress st1 <? lower)%Z = false) as -> by (apply Z.ltb_ge; lia).
  reflexivity.
Qed.

Lemma selectWorld_lower_worlds_free_witness :
  ∃ st1 world,
    selectWorld 1 (scenarioB 0) = Some (true, st1)
    ∧ getWorldById 0 = Some world
    ∧ selectWorld 0 st1
      = Some (true, with_currentWorld (Some (asCurrentWorld world 0)) st1).
Proof.
  set (st1 := (default (false, scenarioB 0) (selectWorld 1 (scenarioB 0))).2).
  assert (selectWorld 1 (scenarioB 0) = Some (true, st1)) as Hsel
    by (vm_compute; reflexivity).
  assert (0 ∈ unlockedWorlds (scenarioB 0))%Z as Hin by (apply includes_elem_of; reflexivity).
  destruct (selectWorld_lower_worlds_free (scenarioB 0) st1 1 0 Hsel ltac:(lia) Hin)
    as (world & Hworld & Hagain).
  exists st1, world. split; [exact Hsel|]. split; [exact Hworld|exact Hagain].
Defined.

Lemma deduct_all_spec (cost : list (string * Q)) (res res' : gmap string Q) :
  NoDup cost.*1 →
  deduct_all cost res = Some res' →
  (∀ k a, (k, a) ∈ cost →
     ∃ have, res !! k = Some have ∧ res' !! k = Some (have - a))
  ∧ (∀ k, k ∉ cost.*1 → res' !! k = res !! k).
Proof.
  unfold deduct_all. revert res.
  induction cost as [|[k0 a0] cost IH]; intros res Hnd Hfold; simpl in *.
  - injection Hfold as <-. split; [|done]. intros k a H. inversion H.
  - apply NoDup_cons in Hnd as [Hk0 Hnd].
    unfold deduct in Hfold at 2. simpl in Hfold.
    destruct (res !! k0) as [have0|] eqn:Hhave0.
    + destruct (IH _ Hnd Hfold) as [Hin Hout]. split.
      * intros k a Hka. apply elem_of_cons in Hka as [[= -> ->]|Hka].
        -- exists have0. split; [done|]. rewrite (Hout k0 Hk0). by rewrite lookup_insert_eq.
        -- destruct (Hin k a Hka) as (have & Hhave & Hres').
           assert (k ≠ k0) as Hne.
           { intros ->. apply Hk0. apply list_elem_of_fmap. by exists (k0, a). }
           rewrite lookup_insert_ne in Hhave by done. by exists have.
      * intros k Hk. apply not_elem_of_cons in Hk as [Hne Hk].
        rewrite (Hout k Hk). by rewrite lookup_insert_ne.
    + exfalso. clear -Hfold.
      assert (∀ l, foldl (λ acc c, acc ≫= λ r : gmap string Q, deduct r c) None l = None)
        as Hnone by (induction l; [done|simpl; done]).
      simpl in Hfold. by rewrite Hnone in Hfold.
Qed.

Lemma catalogue_requirements_NoDup (world : WorldDef) :
  world ∈ worldDefinitions → NoDup (wd_unlockRequirements world).*1.
Proof.
  unfold worldDefinitions. intros H.
  repeat (apply elem_of_cons in H as [->|H];
          [simpl;
           repeat (apply NoDup_cons; split;
                   [intros Hx;
                    repeat (apply elem_of_cons in Hx as [Hx|Hx]; [discriminate Hx|]);
                    inversion Hx|]);
           apply NoDup_nil_2|]).
  inversion H.
Qed.

(** The first selection of a world (worldProgress below its id) charges
    exactly its unlock requirements, with no check that the amounts
    suffice: every required resource goes down by the required amount, even
    below zero, every other resource keeps its amount, worldProgress becomes
    the world's id and worldsCreated grows by one. *)
Theorem selectWorld_first_selection_charges (st st1 : State) (worldId : Z)
    (world : WorldDef) :
  getWorldById worldId = Some world →
  (worldProgress st < worldId)%Z →
  selectWorld worldId st = Some (true, st1) →
  worldProgress st1 = worldId
  ∧ worldsCreated st1 = (worldsCreated st + 1)%Z
  ∧ (∀ k a, (k, a) ∈ wd_unlockRequirements world →
       ∃ have, resources st !! k = Some have
               ∧ resources st1 !! k = Some (have - a))
  ∧ (∀ k, k ∉ (wd_unlockRequirements world).*1 →
       resources st1 !! k = resources st !! k).
Proof.
  intros Hworld Hlt. unfold selectWorld. rewrite Hworld.
  destruct (includes worldId (unlockedWorlds st)); simpl; [|done].
  apply Z.ltb_lt in Hlt. rewrite Hlt. simpl.
  destruct (deduct_all _ _) as [res|] eqn:Hres; simpl; [|done].
  intros [= <-]. simpl. split; [done|]. split; [done|].
  apply deduct_all_spec; [|done].
  apply catalogue_requirements_NoDup. by apply getWorldById_id in Hworld as [_ ?].
Qed.

Lemma selectWorld_first_selection_charges_witness :
  ∃ st1,
    selectWorld 1 (scenarioB 0) = Some (true, st1)
    ∧ worldProgress st1 = 1%Z
    ∧ worldsCreated st1 = 1%Z
    ∧ ∃ have, resources (scenarioB 0) !! "heat" = Some have
              ∧ resources st1 !! "heat" = Some (have - 50).
Proof.
  set (st1 := (default (false, scenarioB 0) (selectWorld 1 (scenarioB 0))).2).
  assert (selectWorld 1 (scenarioB 0) = Some (true, st1)) as Hsel
    by (vm_compute; reflexivity).
  destruct (selectWorld_first_selection_charges (scenarioB 0) st1 1
              (default (mkWorldDef 0 "" "" "" [] [] [] 0 0 0 0 false) (getWorldById 1))
              eq_refl ltac:(reflexivity) Hsel)
    as (Hprogress & Hcreated & Hcharged & _).
  exists st1. split; [exact Hsel|]. split; [exact Hprogress|]. split; [exact Hcreated|].
  apply (Hcharged "heat" 50). simpl. left.
Defined.

End Worlds.

Section MissingResources.
Import WorldSystem.
#[local] Open Scope Q_scope.

(** A requirement on a resource the state does not hold never blocks an
    unlock: when none of the resources a world requires is present in
    state.resources, canUnlockWorld accepts the world, while
    getUnlockProgress shows every requirement at 0 percent. *)
Theorem canUnlockWorld_missing_resources (st : State) (worldId : Z) (world : WorldDef) :
  getWorldById worldId = Some world →
  (∀ r, r ∈ wd_unlockRequirements world → resources st !! r.1 = None) →
  canUnlockWorld st worldId = true
  ∧ ∀ p, p ∈ getUnlockProgress st worldId → pr_percentage p.2 = 0.
Proof.
  intros Hworld Hmissing. unfold canUnlockWorld, getUnlockProgress. rewrite Hworld. split.
  - apply forallb_forall. intros r Hr. apply list_elem_of_In in Hr.
    unfold requirement_met. by rewrite (Hmissing r Hr).
  - intros p Hp. apply list_elem_of_fmap in Hp as [r [-> Hr]]. simpl.
    rewrite (Hmissing r Hr). simpl.
    apply getWorldById_id in Hworld as [_ Hcat].
    pose proof (catalogue_requirements_positive world r Hcat Hr) as Hpos.
    assert (0 / r.2 * 100 == 0) as Hzero by (unfold Qdiv; ring).
    unfold Num.floor. rewrite (Qfloor_comp _ _ Hzero). reflexivity.
Qed.

Lemma canUnlockWorld_missing_resources_witness :
  canUnlockWorld (with_resources ∅ (readyState 0)) 7 = true
  ∧ ∀ p, p ∈ getUnlockProgress (with_resources ∅ (readyState 0)) 7 →
         pr_percentage p.2 = 0.
Proof.
  apply (canUnlockWorld_missing_resources (with_resources ∅ (readyState 0)) 7
           (default (mkWorldDef 0 "" "" "" [] [] [] 0 0 0 0 false) (getWorldById 7)));
    [reflexivity|].
  intros r _. reflexivity.
Defined.

End MissingResources.

(** ** UpgradeSystem: unlock checks, cross-resource purchases, costs *)

Section UpgradeUnlocks.
Import UpgradeSystem.
#[local] Open Scope Q_scope.

Lemma unlockIf_lookup name cond (ups : gmap string Upgrade) (n : string) :
  unlockIf name cond ups !! n
  = if decide (n = name) then unlocked_when (λ u, cond u ups) <$> ups !! n else ups !! n.
Proof.
  unfold unlockIf, unlocked_when. destruct (decide (n = name)) as [->|Hne].
  - destruct (ups !! name) as [u|] eqn:Hu; [|by rewrite Hu].
    simpl. destruct (isLocked u && cond u ups).
    + by rewrite lookup_insert_eq.
    + by rewrite Hu.
  - destruct (ups !! name) as [u|]; [|done].
    destruct (isLocked u && cond u ups); [|done].
    by rewrite lookup_insert_ne.
Qed.

Lemma unlockIf_same_levels name cond (ups : gmap string Upgrade) :
  same_levels ups (unlockIf name cond ups).
Proof.
  intros n. rewrite unlockIf_lookup. destruct (decide (n = name)); [|done].
  destruct (ups !! n) as [u|]; [|done]. simpl. unfold unlocked_when.
  by destruct (isLocked u && cond u ups).
Qed.

Lemma levelReaches_same_levels (ups ups' : gmap string Upgrade) name need :
  same_levels ups ups' → levelReaches ups name need = levelReaches ups' name need.
Proof.
  intros H. unfold levelReaches. specialize (H name).
  destruct (ups !! name), (ups' !! name); simpl in H; try done. by injection H as ->.
Qed.

Lemma unlockBlocks_stable (res : gmap string Q) b u (ups ups' : gmap string Upgrade) :
  b ∈ unlockBlocks res → same_levels ups ups' → b.2 u ups = b.2 u ups'.
Proof.
  intros Hb Hsame. unfold unlockBlocks in Hb.
  repeat (apply elem_of_cons in Hb as [->|Hb];
          [simpl; by rewrite ?(levelReaches_same_levels ups ups')|]).
  inversion Hb.
Qed.

Lemma unlock_fold_lookup
    (bs : list (string * (Upgrade → gmap string Upgrade → bool)))
    (ups : gmap string Upgrade) :
  NoDup bs.*1 →
  (∀ b u ups1 ups2, b ∈ bs → same_levels ups1 ups2 → b.2 u ups1 = b.2 u ups2) →
  (∀ b, b ∈ bs →
     foldl (λ acc b, unlockIf b.1 b.2 acc) ups bs !! b.1
     = unlocked_when (λ u, b.2 u ups) <$> ups !! b.1)
  ∧ (∀ n, n ∉ bs.*1 → foldl (λ acc b, unlockIf b.1 b.2 acc) ups bs !! n = ups !! n).
Proof.
  revert ups. induction bs as [|b0 bs IH]; intros ups Hnd Hstable.
  - split; [intros b Hb; inversion Hb|done].
  - apply NoDup_cons in Hnd as [Hb0 Hnd]. simpl.
    destruct (IH (unlockIf b0.1 b0.2 ups) Hnd) as [IHin IHout].
    { intros b u ups1 ups2 Hb. apply Hstable. by right. }
    split.
    + intros b Hb. apply elem_of_cons in Hb as [->|Hb].
      * rewrite (IHout _ Hb0), unlockIf_lookup. by rewrite decide_True.
      * rewrite (IHin b Hb), unlockIf_lookup.
        assert (b.1 ≠ b0.1) as Hne.
        { intros Heq. apply Hb0. rewrite <- Heq. apply list_elem_of_fmap. by exists b. }
        rewrite decide_False by done.
        destruct (ups !! b.1) as [u|]; [|done]. simpl. unfold unlocked_when.
        rewrite <- (Hstable b u ups (unlockIf b0.1 b0.2 ups));
          [done|by right|apply unlockIf_same_levels].
    + intros n Hn. apply not_elem_of_cons in Hn as [Hne Hn].
      rewrite (IHout n Hn), unlockIf_lookup. by rewrite decide_False.
Qed.

Lemma checkUpgradeUnlocks_fold (st : State) :
  checkUpgradeUnlocks st
  = with_upgrades
      (foldl (λ acc b, unlockIf b.1 b.2 acc) (upgrades st) (unlockBlocks (resources st)))
      st.
Proof. reflexivity. Qed.

Lemma unlockBlocks_NoDup (res : gmap string Q) : NoDup (unlockBlocks res).*1.
Proof.
  simpl.
  repeat (apply NoDup_cons; split;
          [intros Hx; repeat (apply elem_of_cons in Hx as [Hx|Hx]; [discriminate Hx|]);
           inversion Hx|]).
  apply NoDup_nil_2.
Qed.

(** What the call does to every entry of the upgrade table. *)
Lemma checkUpgradeUnlocks_lookup (st : State) (n : string) :
  upgrades (checkUpgradeUnlocks st) !! n
  = match List.find (λ b, String.eqb b.1 n) (unlockBlocks (resources st)) with
    | Some b => unlocked_when (λ u, b.2 u (upgrades st)) <$> upgrades st !! n
    | None => upgrades st !! n
    end.
Proof.
  rewrite checkUpgradeUnlocks_fold. simpl upgrades.
  destruct (unlock_fold_lookup (unlockBlocks (resources st)) (upgrades st)
              (unlockBlocks_NoDup _)) as [Hin Hout].
  { intros b u ups1 ups2 Hb. by apply (unlockBlocks_stable (resources st)). }
  destruct (List.find _ _) as [b|] eqn:Hfind.
  - apply find_some in Hfind as [Hb Heq]. apply String.eqb_eq in Heq as <-.
    apply Hin. by apply list_elem_of_In.
  - apply Hout. intros Hn. apply list_elem_of_fmap in Hn as [b [-> Hb]].
    apply list_elem_of_In in Hb. pose proof (find_none _ _ Hfind b Hb) as H.
    simpl in H. by rewrite String.eqb_refl in H.
Qed.

Lemma checkUpgradeUnlocks_entry (st : State) (n : string) (up' : Upgrade) :
  upgrades (checkUpgradeUnlocks st) !! n = Some up' →
  ∃ up, upgrades st !! n = Some up
        ∧ level up' = level up ∧ maxLevel up' = maxLevel up
        ∧ baseCost up' = baseCost up.
Proof.
  rewrite checkUpgradeUnlocks_lookup.
  destruct (List.find _ _) as [b|]; [|by eexists].
  destruct (upgrades st !! n) as [u|]; [|done].
  cbn [fmap option_fmap option_map]. unfold unlocked_when.
  destruct (isLocked u && b.2 u (upgrades st)); intros [= <-]; by eexists.
Qed.

(** checkUpgradeUnlocks only raises unlocked flags: every entry of the
    upgrade table is left as it was or, if it was locked, gets its flag
    set; levels, costs, resources and the rest of the state stay as they
    are.  A second call changes nothing. *)
Theorem checkUpgradeUnlocks_only_raises_flags (st : State) :
  checkUpgradeUnlocks st = with_upgrades (upgrades (checkUpgradeUnlocks st)) st
  ∧ (∀ n, upgrades (checkUpgradeUnlocks st) !! n = upgrades st !! n
          ∨ ∃ u, upgrades st !! n = Some u ∧ isLocked u = true
                 ∧ upgrades (checkUpgradeUnlocks st) !! n = Some (set_unlocked u))
  ∧ checkUpgradeUnlocks (checkUpgradeUnlocks st) = checkUpgradeUnlocks st.
Proof.
  split; [reflexivity|]. split.
  - intros n. rewrite checkUpgradeUnlocks_lookup.
    destruct (List.find _ _) as [b|]; [|by left].
    destruct (upgrades st !! n) as [u|]; [|by left]. simpl. unfold unlocked_when.
    destruct (isLocked u && b.2 u (upgrades st)) eqn:Hfire; [|by left].
    right. exists u. apply andb_true_iff in Hfire as [Hlocked _]. done.
  - pose proof (checkUpgradeUnlocks_lookup st) as Hlook.
    assert (resources (checkUpgradeUnlocks st) = resources st) as Hres by reflexivity.
    remember (checkUpgradeUnlocks st) as st1 eqn:Hst1.
    assert (same_levels (upgrades st) (upgrades st1)) as Hsame.
    { intros n. rewrite Hlook.
      destruct (List.find _ _) as [b|]; [|done].
      destruct (upgrades st !! n) as [u|]; [|done].
      cbn [fmap option_fmap option_map]. unfold unlocked_when.
      by destruct (isLocked u && b.2 u (upgrades st)). }
    assert (upgrades (checkUpgradeUnlocks st1) = upgrades st1) as Hups.
    { apply map_eq. intros n. rewrite checkUpgradeUnlocks_lookup, Hres, Hlook.
      destruct (List.find _ _) as [b|] eqn:Hfind; [|done].
      destruct (upgrades st !! n) as [u|]; [|done].
      cbn [fmap option_fmap option_map]. f_equal. unfold unlocked_when.
      apply find_some in Hfind as [Hb _]. apply list_elem_of_In in Hb.
      destruct (isLocked u && b.2 u (upgrades st)) eqn:Hfire; [reflexivity|].
      rewrite <- (unlockBlocks_stable (resources st) b u _ _ Hb Hsame).
      by rewrite Hfire. }
    clear Hst1 Hlook Hsame.
    transitivity (with_upgrades (upgrades (checkUpgradeUnlocks st1)) st1); [reflexivity|].
    rewrite Hups. by destruct st1.
Qed.

Lemma levelReaches_levelOf (st : State) (name : string) (need : Q) :
  0 < need →
  levelReaches (upgrades st) name (Some need) = Num.geb (levelOf st name) need.
Proof.
  intros Hpos. unfold levelReaches, levelOf. destruct (upgrades st !! name) as [u|].
  - reflexivity.
  - symmetry. apply not_true_iff_false. intros H. apply geb_true in H.
    by apply (Qlt_not_le _ _ Hpos).
Qed.

Lemma amountReaches_amountOf (st : State) (name : string) (need : Q) :
  0 < need →
  amountReaches (resources st) name (Some need) = Num.geb (amountOf st name) need.
Proof.
  intros Hpos. unfold amountReaches, amountOf. destruct (resources st !! name) as [v|].
  - reflexivity.
  - simpl. symmetry. apply not_true_iff_false. intros H. apply geb_true in H.
    by apply (Qlt_not_le _ _ Hpos).
Qed.

Lemma isUnlocked_after (st : State) (name : string) (u : Upgrade) (fires : Upgrade → bool) :
  upgrades st !! name = Some u →
  upgrades (checkUpgradeUnlocks st) !! name = unlocked_when fires <$> upgrades st !! name →
  isUnlocked (checkUpgradeUnlocks st) name = isUnlocked st name || fires u.
Proof.
  intros Hu Hafter. unfold isUnlocked. rewrite Hafter, Hu. simpl.
  unfold unlocked_when, isLocked.
  destruct (default false (unlocked u)) eqn:Hflag; simpl; [by rewrite Hflag|].
  destruct (fires u); simpl; [done|by rewrite Hflag].
Qed.

(** With the gates the constructor gives the cross-resource upgrades, an
    upgrade is unlocked after checkUpgradeUnlocks exactly when it was
    unlocked before or its thresholds are reached: Thermal Accelerator at
    heatGenerator level 3 and 30 pressure, Fuel Synchronizer at
    fuelEfficiency level 5 and 20 energy, Pressure Valve at 15 stability
    and 50 pressure, Energy Matrix at heatGenerator level 7 and
    fuelEfficiency level 8.  The four decisions do not depend on each
    other. *)
Theorem checkUpgradeUnlocks_thresholds (st : State) :
  standardGates st →
  let after := checkUpgradeUnlocks st in
  isUnlocked after "thermalAccelerator"
  = isUnlocked st "thermalAccelerator"
    || Num.geb (levelOf st "heatGenerator") 3 && Num.geb (amountOf st "pressure") 30
  ∧ isUnlocked after "fuelSynchronizer"
    = isUnlocked st "fuelSynchronizer"
      || Num.geb (levelOf st "fuelEfficiency") 5 && Num.geb (amountOf st "energy") 20
  ∧ isUnlocked after "pressureValve"
    = isUnlocked st "pressureValve"
      || Num.geb (amountOf st "stability") 15 && Num.geb (amountOf st "pressure") 50
  ∧ isUnlocked after "energyMatrix"
    = isUnlocked st "energyMatrix"
      || Num.geb (levelOf st "heatGenerator") 7 && Num.geb (levelOf st "fuelEfficiency") 8.
Proof.
  intros Hgates after. unfold after.
  split; [|split; [|split]].
  - destruct (Hgates "thermalAccelerator" (mkUpgrade 0 5 25 (Some false)
                [("requiresHeat", 3); ("requiresPressure", 30)])) as (u & Hu & Hg);
      [unfold crossUpgrades; set_solver|reflexivity|].
    rewrite (isUnlocked_after st _ u _ Hu (checkUpgradeUnlocks_lookup st _)).
    f_equal. cbn [snd]. unfold requires. rewrite Hg. cbn.
    rewrite levelReaches_levelOf by done.
    by rewrite amountReaches_amountOf.
  - destruct (Hgates "fuelSynchronizer" (mkUpgrade 0 5 30 (Some false)
                [("requiresFuel", 5); ("requiresEnergy", 20)])) as (u & Hu & Hg);
      [unfold crossUpgrades; set_solver|reflexivity|].
    rewrite (isUnlocked_after st _ u _ Hu (checkUpgradeUnlocks_lookup st _)).
    f_equal. cbn [snd]. unfold requires. rewrite Hg. cbn.
    rewrite levelReaches_levelOf by done.
    by rewrite amountReaches_amountOf.
  - destruct (Hgates "pressureValve" (mkUpgrade 0 5 35 (Some false)
                [("requiresStability", 15); ("requiresPressure", 50)])) as (u & Hu & Hg);
      [unfold crossUpgrades; set_solver|reflexivity|].
    rewrite (isUnlocked_after st _ u _ Hu (checkUpgradeUnlocks_lookup st _)).
    f_equal. cbn [snd]. unfold requires. rewrite Hg. cbn.
    by rewrite !amountReaches_amountOf.
  - destruct (Hgates "energyMatrix" (mkUpgrade 0 5 40 (Some false)
                [("requiresHeat", 7); ("requiresFuel", 8)])) as (u & Hu & Hg);
      [unfold crossUpgrades; set_solver|reflexivity|].
    rewrite (isUnlocked_after st _ u _ Hu (checkUpgradeUnlocks_lookup st _)).
    f_equal. cbn [snd]. unfold requires. rewrite Hg. cbn.
    by rewrite !levelReaches_levelOf by done.
Qed.

Lemma standardGates_ready (st : State) :
  upgrades st = defaultUpgrades → standardGates st.
Proof. intros Hups name d _ Hd. exists d. by rewrite Hups. Qed.

Lemma checkUpgradeUnlocks_thresholds_witness :
  isUnlocked
    (checkUpgradeUnlocks
       (with_resources (<["stability" := 20]> (<["pressure" := 60]> initialResources))
          (readyState 0)))
    "pressureValve"
  = true.
Proof.
  set (st := with_resources _ _).
  destruct (checkUpgradeUnlocks_thresholds st (standardGates_ready st eq_refl))
    as (_ & _ & Hvalve & _).
  rewrite Hvalve. reflexivity.
Defined.

End UpgradeUnlocks.

Section CrossUpgradePurchases.
Import UpgradeSystem EventSystem CrossUpgrades.
#[local] Open Scope Q_scope.

(** As Game.js wires it, upgradeCrossResource decides and charges exactly
    like upgradeResource, but three of the four cross-resource upgrades
    cannot be bought without an exception: for fuelSynchronizer,
    pressureValve and energyMatrix the call has already deducted the cost
    and raised the level when applyCrossUpgradeEffects reads
    this.gameState.resources, which is undefined on the GameState instance;
    it ends in a TypeError instead of returning true.  For any other
    upgrade, and whenever the purchase is refused, it returns what
    upgradeResource returns. *)
Theorem upgradeCrossResource_instance (upgradeType resourceType : string) (st : State) :
  upgradeCrossResource GameStateInstance upgradeType resourceType st
  = if (upgradeResource upgradeType resourceType st).1 && hasCrossEffect upgradeType
    then Aborts (TypeError "this.gameState.resources is undefined")
           (upgradeResource upgradeType resourceType st).2
    else Returns (upgradeResource upgradeType resourceType st).1
           (upgradeResource upgradeType resourceType st).2.
Proof.
  unfold upgradeCrossResource, upgradeResource, hasCrossEffect.
  unfold mbind, M_bind, getState.
  destruct (upgrades st !! upgradeType) as [upgrade|] eqn:Hu; [|reflexivity].
  destruct (resources st !! resourceType) as [have|]; [|reflexivity].
  destruct (Num.geb have (getUpgradeCost st upgradeType)
            && Num.ltb (level upgrade) (maxLevel upgrade)); [|reflexivity].
  cbn [fst snd andb]. unfold modify, applyCrossUpgradeEffects, mbind, M_bind, getState.
  cbn [upgrades with_upgrades]. rewrite lookup_insert_eq.
  destruct (String.eqb upgradeType "thermalAccelerator") eqn:H1.
  { apply String.eqb_eq in H1 as ->. reflexivity. }
  destruct (String.eqb upgradeType "fuelSynchronizer") eqn:H2; [reflexivity|].
  destruct (String.eqb upgradeType "pressureValve") eqn:H3; [reflexivity|].
  destruct (String.eqb upgradeType "energyMatrix") eqn:H4; reflexivity.
Qed.

(** On a bare state object, which has no getState method, the call stops
    before it reads anything. *)
Lemma upgradeCrossResource_bare (upgradeType resourceType : string) (st : State) :
  upgradeCrossResource BareState upgradeType resourceType st
  = Aborts (TypeError "this.gameState.getState is not a function") st.
Proof. reflexivity. Qed.

End CrossUpgradePurchases.

Section UpgradeCosts.
Import UpgradeSystem.
#[local] Open Scope Q_scope.

Lemma cheap_fold_power (evs : list ActiveEvent) (c : Q) :
  foldl (λ c ev, if isCheapUpgrade ev then c * 0.5 else c) c evs
  == c * Qpower 0.5 (Z.of_nat (length (filter (λ ev, isCheapUpgrade ev = true) evs))).
Proof.
  revert c. induction evs as [|ev evs IH]; intros c.
  - simpl. ring.
  - simpl. rewrite IH. rewrite filter_cons.
    destruct (isCheapUpgrade ev) eqn:Hcheap.
    + rewrite decide_True by done. cbn [length].
      rewrite Nat2Z.inj_succ, <- Z.add_1_r, Qpower_plus by discriminate.
      simpl (Qpower 0.5 1). ring.
    + rewrite decide_False by discriminate. reflexivity.
Qed.

(** Every active cheapUpgrade or cheapUpgrades event halves the cost of
    every upgrade: with k such events the cost is
    floor(floor(B * 1.5^L) * r * 0.5^k), where r is the permanent cost
    multiplier.  The two kinds of event are not told apart. *)
Theorem getUpgradeCost_halved_per_event (st : State) (upgradeType : string) (u : Upgrade) :
  upgrades st !! upgradeType = Some u →
  getUpgradeCost st upgradeType
  = Num.floor (Num.floor_scaled_pow (baseCost u) 1.5 (level u)
               * upgradeCostReduction (permanentBonuses st)
               * Qpower 0.5 (Z.of_nat (cheapEvents st))).
Proof.
  intros Hu. unfold getUpgradeCost, cheapEvents. rewrite Hu.
  unfold Num.floor. f_equal. apply Qfloor_comp. apply cheap_fold_power.
Qed.

Lemma getUpgradeCost_halved_per_event_witness :
  getUpgradeCost calibrated "heatGenerator" = 5.
Proof.
  rewrite (getUpgradeCost_halved_per_event calibrated "heatGenerator"
             (mkUpgrade 0 10 10 None []) eq_refl).
  reflexivity.
Defined.

End UpgradeCosts.

Section CostGrowth.
Import UpgradeSystem.
#[local] Open Scope Q_scope.

Lemma floor_mono (x y : Q) : x <= y → Num.floor x <= Num.floor y.
Proof. intros H. unfold Num.floor. rewrite <- Zle_Qle. by apply Qfloor_resp_le. Qed.

Lemma Qpower_half_nonneg (n : nat) : 0 <= Qpower 0.5 (Z.of_nat n).
Proof. apply Qpower_pos. done. Qed.

(** Buying a level never makes the upgrade cheaper: after a successful
    upgradeResource the cost of the same upgrade is at least what it was
    before, for a non-negative base cost and cost multiplier, at whole and
    at fractional levels. *)
Theorem getUpgradeCost_never_drops (st st' : State) (upgradeType resourceType : string)
    (u : Upgrade) :
  upgrades st !! upgradeType = Some u →
  0 <= baseCost u →
  0 <= upgradeCostReduction (permanentBonuses st) →
  upgradeResource upgradeType resourceType st = (true, st') →
  getUpgradeCost st upgradeType <= getUpgradeCost st' upgradeType.
Proof.
  intros Hu Hbase Hred Hbuy.
  assert (upgrades st' !! upgradeType = Some (set_level (level u + 1) u)
          ∧ permanentBonuses st' = permanentBonuses st
          ∧ activeEvents st' = activeEvents st) as (Hu' & Hpb & Hev).
  { unfold upgradeResource in Hbuy. rewrite Hu in Hbuy.
    destruct (resources st !! resourceType) as [have|]; [|done].
    destruct (Num.geb have _ && _); [|done].
    injection Hbuy as <-. simpl. by rewrite lookup_insert_eq. }
  unfold getUpgradeCost. rewrite Hu, Hu', Hpb, Hev. cbn [level baseCost set_level].
  apply floor_mono. rewrite !cheap_fold_power.
  apply Qmult_le_compat_r; [|apply Qpower_half_nonneg].
  apply Qmult_le_compat_r; [|done].
  apply floor_scaled_pow_succ; [done|lra].
Qed.

Lemma getUpgradeCost_never_drops_witness :
  ∃ st',
    upgradeResource "heatGenerator" "heat" (scenarioB 0) = (true, st')
    ∧ getUpgradeCost (scenarioB 0) "heatGenerator" <= getUpgradeCost st' "heatGenerator".
Proof.
  set (st' := (upgradeResource "heatGenerator" "heat" (scenarioB 0)).2).
  assert (upgradeResource "heatGenerator" "heat" (scenarioB 0) = (true, st')) as Hbuy
    by (vm_compute; reflexivity).
  exists st'. split; [exact Hbuy|].
  apply (getUpgradeCost_never_drops (scenarioB 0) st' "heatGenerator" "heat"
           (default (mkUpgrade 0 0 0 None []) (upgrades (scenarioB 0) !! "heatGenerator")));
    [vm_compute; reflexivity|by vm_compute|by vm_compute|exact Hbuy].
Defined.

End CostGrowth.

(** ** GameState: the cap loop *)

Section CapLoop.
Import GameState.
#[local] Open Scope Q_scope.

Lemma enforce_cap_flag (res : gmap string Q) (b : bool) (c : string * option Q) :
  (∀ cv, c.2 = Some cv → 0 <= cv) →
  (enforce_cap (res, b) c).2 = b || outOfRange c.2 (res !! c.1).
Proof.
  intros Hcap. unfold enforce_cap, outOfRange. destruct c as [k cap]. simpl in *.
  destruct (res !! k) as [v|] eqn:Hv.
  - destruct cap as [cv|]; simpl.
    + destruct (Num.gtb v cv) eqn:Hgt; simpl.
      * rewrite lookup_insert_eq.
        assert (Num.ltb cv 0 = false) as -> by (apply ltb_false; by apply Hcap).
        simpl. by rewrite orb_true_r.
      * rewrite Hv. destruct (Num.ltb v 0); simpl; [by rewrite orb_true_r|by rewrite orb_false_r].
    + rewrite Hv. destruct (Num.ltb v 0); simpl; [by rewrite orb_true_r|by rewrite orb_false_r].
  - destruct cap; simpl; rewrite Hv; by rewrite orb_false_r.
Qed.

Lemma enforce_cap_in_range (res : gmap string Q) (b : bool) (c : string * option Q) :
  outOfRange c.2 (res !! c.1) = false → enforce_cap (res, b) c = (res, b).
Proof.
  unfold enforce_cap, outOfRange. destruct c as [k cap]. simpl.
  destruct (res !! k) as [v|] eqn:Hv.
  - intros H. apply orb_false_iff in H as [Hgt Hlt].
    destruct cap as [cv|]; simpl.
    + rewrite Hgt. simpl. by rewrite Hv, Hlt.
    + by rewrite Hv, Hlt.
  - intros _. destruct cap; simpl; by rewrite Hv.
Qed.

Lemma enforce_caps_in_range (cs : list (string * option Q)) (res : gmap string Q)
    (b : bool) :
  (∀ c, c ∈ cs → outOfRange c.2 (res !! c.1) = false) →
  foldl enforce_cap (res, b) cs = (res, b).
Proof.
  induction cs as [|c cs IH]; intros Hall; [done|]. simpl.
  rewrite enforce_cap_in_range by (apply Hall; by left).
  apply IH. intros c' Hc'. apply Hall. by right.
Qed.

Lemma enforce_caps_flag (cs : list (string * option Q)) (res : gmap string Q) (b : bool) :
  NoDup cs.*1 →
  (∀ c cv, c ∈ cs → c.2 = Some cv → 0 <= cv) →
  (foldl enforce_cap (res, b) cs).2
  = b || existsb (λ c, outOfRange c.2 (res !! c.1)) cs.
Proof.
  revert res b. induction cs as [|c cs IH]; intros res b Hnd Hcap.
  - simpl. by rewrite orb_false_r.
  - apply NoDup_cons in Hnd as [Hfresh Hnd]. simpl.
    destruct (enforce_cap (res, b) c) as [res1 b1] eqn:Hstep.
    rewrite IH; [|done|intros c' cv Hc'; apply Hcap; by right].
    pose proof (f_equal snd Hstep) as Hb1. pose proof (f_equal fst Hstep) as Hres1.
    cbn [fst snd] in Hb1, Hres1.
    assert (∀ c', c' ∈ cs → res1 !! c'.1 = res !! c'.1) as Hsame.
    { intros c' Hc'. rewrite <- Hres1.
      rewrite enforce_cap_lookup. rewrite decide_False; [done|].
      intros Heq. apply Hfresh. rewrite Heq. apply list_elem_of_fmap. by exists c'. }
    rewrite <- Hb1, enforce_cap_flag by (intros cv; apply Hcap; by left).
    rewrite <- orb_assoc. f_equal. f_equal.
    clear -Hsame. induction cs as [|c' cs IH]; [done|]. simpl.
    rewrite Hsame by (by left). f_equal. apply IH. intros c'' Hc''. apply Hsame. by right.
Qed.

Lemma clamp_in_range (k : string) (cap : option Q) (v : Q) :
  (∀ c, cap = Some c → 0 <= c) → outOfRange cap (Some (clamp cap v)) = false.
Proof.
  intros Hcap. destruct (clamp_bounds cap v Hcap) as [H0 Hc].
  unfold outOfRange. apply orb_false_iff. split.
  - destruct cap as [c|]; [|done]. apply gtb_false. by apply Hc.
  - by apply ltb_false.
Qed.

(** enforceResourceCaps reports true exactly when one of the five capped
    resources was above its cap or below zero, and leaves the state as it
    is otherwise.  Once it has run, the amounts are settled: a second call
    reports false and changes nothing. *)
Theorem enforceResourceCaps_settles (st : State) :
  (enforceResourceCaps st).1
  = existsb (λ c, outOfRange c.2 (resources st !! c.1)) (caps st)
  ∧ ((enforceResourceCaps st).1 = false → (enforceResourceCaps st).2 = st)
  ∧ enforceResourceCaps (enforceResourceCaps st).2 = (false, (enforceResourceCaps st).2).
Proof.
  assert (∀ s : State,
            existsb (λ c, outOfRange c.2 (resources s !! c.1)) (caps s) = false →
            enforceResourceCaps s = (false, s)) as Hquiet.
  { intros s Hnone. unfold enforceResourceCaps.
    rewrite enforce_caps_in_range.
    - simpl. by destruct s.
    - intros c Hc. apply not_true_iff_false. intros Hout.
      apply not_true_iff_false in Hnone. apply Hnone.
      apply existsb_exists. exists c. split; [by apply list_elem_of_In|done]. }
  assert ((enforceResourceCaps st).1
          = existsb (λ c, outOfRange c.2 (resources st !! c.1)) (caps st)) as Hflag.
  { unfold enforceResourceCaps. cbn [fst].
    rewrite enforce_caps_flag; [done|apply caps_NoDup|].
    intros [k cap] cv Hc Hcv. by eapply caps_nonneg. }
  split; [exact Hflag|]. split.
  - intros Hfalse. rewrite Hflag in Hfalse. by rewrite (Hquiet st Hfalse).
  - apply Hquiet. apply not_true_iff_false. intros Hsome.
    apply existsb_exists in Hsome as ([k cap] & Hc & Hout).
    apply list_elem_of_In in Hc. revert Hout. apply not_true_iff_false.
    assert (caps (enforceResourceCaps st).2 = caps st) as Hcaps by reflexivity.
    rewrite Hcaps in Hc.
    unfold enforceResourceCaps. cbn [fst snd resources with_resources].
    rewrite (enforce_caps_key (caps st) _ k cap (caps_NoDup st) Hc). cbn [fst].
    destruct (resources st !! k) as [v|]; [|done]. cbn [fmap option_fmap option_map].
    apply (clamp_in_range k). intros c. by apply (caps_nonneg st k).
Qed.

End CapLoop.

(** ** Events: sessions, duration, multipliers and the random draw *)

Section SessionEvents.
Import Session.
#[local] Open Scope Q_scope.

Lemma checkWorldUnlocks_from_shape (defs : list WorldDef) (st : State) :
  ∃ l, (WorldSystem.checkWorldUnlocks_from defs st).2 = with_unlockedWorlds l st.
Proof.
  induction defs as [|w defs IH]; simpl.
  - exists (unlockedWorlds st). by destruct st.
  - destruct (includes (wd_id w) (unlockedWorlds st)); [done|].
    destruct (WorldSystem.canUnlockWorld st (wd_id w)); [by eexists|done].
Qed.

Lemma addResources_shape (deltas : list (string * Q)) (st : State) :
  ∃ l r, outcome_state (GameState.addResources deltas st)
         = with_unlockedWorlds l (with_resources r st).
Proof.
  rewrite addResources_outcome. cbn zeta.
  destruct (GameState.add_deltas (resources st) deltas).2; cbn [outcome_state].
  - unfold WorldSystem.checkWorldUnlocks.
    match goal with
    | |- context [WorldSystem.checkWorldUnlocks_from ?d ?s] =>
        destruct (checkWorldUnlocks_from_shape d s) as [l ->]
    end.
    by eexists _, _.
  - exists (unlockedWorlds st), (GameState.add_deltas (resources st) deltas).1.
    by destruct st.
Qed.

Lemma entries_step_same (st st' : State) :
  upgrades st' = upgrades st → entries_step st st'.
Proof. intros Heq u up' Hu. rewrite Heq in Hu. exists up'. auto. Qed.

(** No action of a session writes the fields of the event system, except
    that updateActiveEvents filters the list of active events; and no
    action does more to an upgrade than raise its level by one. *)
Lemma perform_keeps_event_fields (a : Action) (st st' : State) :
  perform a st = Some st' →
  (activeEvents st' = activeEvents st
   ∨ activeEvents st'
     = filter (λ ev, (0 < ev_duration ev)%Z) (map EventSystem.tick (activeEvents st)))
  ∧ eventHistory st' = eventHistory st
  ∧ permanentBonuses st' = permanentBonuses st
  ∧ entries_step st st'.
Proof.
  intros Hp. destruct a; simpl in Hp.
  - unfold ResourceSystem.generateResource in Hp.
    destruct (currentWorld st) as [world|];
      [|injection Hp as <-; by split; [left|split; [|split; [|apply entries_step_same]]]].
    destruct (ResourceSystem.manualGain type world st) as [gain|]; [|done].
    cbn [mbind option_bind] in Hp.
    match type of Hp with
    | context [GameState.addResources ?d st] =>
        destruct (addResources_shape d st) as (l & r & Hshape);
        destruct (GameState.addResources d st) as [[] st1|]; [|done]
    end.
    cbn [outcome_state] in Hshape. subst st1. simpl in Hp. injection Hp as <-.
    by split; [left|split; [|split; [|apply entries_step_same]]].
  - injection Hp as <-.
    destruct (addResources_shape deltas st) as (l & r & ->).
    by split; [left|split; [|split; [|apply entries_step_same]]].
  - injection Hp as <-. unfold UpgradeSystem.upgradeResource.
    destruct (upgrades st !! upgradeType) as [upgrade|] eqn:Hu;
      [|by split; [left|split; [|split; [|apply entries_step_same]]]].
    destruct (resources st !! resourceType);
      [|by split; [left|split; [|split; [|apply entries_step_same]]]].
    destruct (_ && _);
      [|by split; [left|split; [|split; [|apply entries_step_same]]]].
    split; [by left|]. split; [done|]. split; [done|].
    intros u up'. cbn [snd upgrades with_upgrades].
    destruct (decide (upgradeType = u)) as [<-|Hne].
    + rewrite lookup_insert_eq. intros [= <-]. exists upgrade. by auto.
    + rewrite lookup_insert_ne by done. intros Hup. exists up'. auto.
  - unfold WorldSystem.selectWorld in Hp.
    destruct (WorldSystem.getWorldById worldId) as [world|];
      [|injection Hp as <-; by split; [left|split; [|split; [|apply entries_step_same]]]].
    destruct (negb (includes worldId (unlockedWorlds st)));
      [injection Hp as <-; by split; [left|split; [|split; [|apply entries_step_same]]]|].
    destruct (worldProgress st <? worldId)%Z.
    + destruct (WorldSystem.deduct_all _ _) as [res|]; [|done].
      simpl in Hp. injection Hp as <-.
      by split; [left|split; [|split; [|apply entries_step_same]]].
    + simpl in Hp. injection Hp as <-.
      by split; [left|split; [|split; [|apply entries_step_same]]].
  - injection Hp as <-. unfold WorldSystem.checkWorldUnlocks.
    destruct (checkWorldUnlocks_from_shape WorldSystem.worldDefinitions st) as [l ->].
    by split; [left|split; [|split; [|apply entries_step_same]]].
  - unfold Game.generateEnergy in Hp.
    destruct (resources st !! "heat");
      [|injection Hp as <-; by split; [left|split; [|split; [|apply entries_step_same]]]].
    destruct (resources st !! "fuel");
      [|injection Hp as <-; by split; [left|split; [|split; [|apply entries_step_same]]]].
    destruct (_ && _);
      [|injection Hp as <-; by split; [left|split; [|split; [|apply entries_step_same]]]].
    destruct (_ !! "energy"); [|done]. simpl in Hp. injection Hp as <-.
    unfold Game.updateUI, Game.checkAndNotifyAchievements.
    match goal with
    | |- context [AchievementSystem.checkAchievements ?n ?s] =>
        destruct (checkAchievements_state n s) as [l ->]
    end.
    split; [by left|]. split; [done|]. split; [done|].
    intros u up' Hup. apply checkUpgradeUnlocks_entry in Hup as (up & Hup & Hl & Hm & _).
    exists up. split; [exact Hup|]. auto.
  - injection Hp as <-.
    by split; [right|split; [|split; [|apply entries_step_same]]].
  - injection Hp as <-.
    destruct (selectEventChoice_instance now event choice st) as [what ->].
    by split; [left|split; [|split; [|apply entries_step_same]]].
  - injection Hp as <-.
    destruct (checkAchievements_state now st) as [l ->].
    by split; [left|split; [|split; [|apply entries_step_same]]].
Qed.

Lemma entries_step_whole (st st' : State) :
  entries_step st st' → levels_whole st → levels_whole st'.
Proof.
  intros Hstep Hwhole u up' Hu.
  destruct (Hstep u up' Hu) as (up & Hup & Hm & Hl).
  destruct (Hwhole u up Hup) as [Hwl Hwm]. rewrite Hm. split; [|exact Hwm].
  destruct Hl as [-> | ->]; [exact Hwl|by apply whole_succ].
Qed.

Lemma session_keeps_untouched (st st' : State) :
  rtc step st st' →
  untouchedByEvents st ∧ levels_whole st → untouchedByEvents st' ∧ levels_whole st'.
Proof.
  induction 1 as [|st st1 st2 [a Ha] _ IH]; [done|].
  intros [(Hev & Hhist & Hbonus) Hwhole]. apply IH.
  destruct (perform_keeps_event_fields a st st1 Ha) as (Hev' & Hhist' & Hbonus' & Hstep).
  split; [|by apply (entries_step_whole st)].
  repeat split; [|congruence|congruence].
  destruct Hev' as [->| ->]; [done|]. by rewrite Hev.
Qed.

(** Along a session that starts fresh, the event system never leaves a
    trace: every choice stops with a TypeError before it records anything,
    so no event is ever active, the event history stays empty and the
    permanent bonuses stay at 1.  Levels are whole numbers, upgrade costs
    are never discounted and manual gains never multiplied. *)
Theorem session_never_has_events (t0 : Q) (st : State) :
  reachable t0 st →
  untouchedByEvents st
  ∧ (∀ upgradeType u, upgrades st !! upgradeType = Some u →
       ∃ L : Z,
         level u == inject_Z L
         ∧ UpgradeSystem.getUpgradeCost st upgradeType
           = Num.floor (baseCost u * Qpower 1.5 L))
  ∧ (∀ resourceType baseAmount,
       ResourceSystem.applyEventMultipliers resourceType baseAmount st == baseAmount).
Proof.
  intros Hreach.
  assert (untouchedByEvents st ∧ levels_whole st) as [Hinv Hwhole].
  { apply (session_keeps_untouched (readyState t0) st Hreach). split; [by repeat split|].
    intros u up Hu. change (upgrades (readyState t0)) with defaultUpgrades in Hu.
    unfold defaultUpgrades in Hu. simpl in Hu.
    repeat (rewrite lookup_insert in Hu; case_decide;
            [injection Hu as <-; split;
             [exists 0%Z|first [by exists 10%Z|by exists 5%Z]]; reflexivity|]).
    rewrite lookup_empty in Hu. discriminate. }
  split; [done|]. destruct Hinv as (Hev & Hhist & Hbonus). split.
  - intros upgradeType u Hu. destruct (Hwhole _ _ Hu) as [[L HL] _].
    exists L. split; [exact HL|].
    apply (getUpgradeCost_unreduced_whole st upgradeType u L); [done| | |done].
    + by rewrite Hbonus.
    + rewrite Hev. intros ev Hin. inversion Hin.
  - intros resourceType baseAmount. unfold ResourceSystem.applyEventMultipliers.
    rewrite Hev. simpl. ring.
Qed.

Lemma session_never_has_events_witness :
  ∃ st, run overdraft (readyState 0) = Some st ∧ untouchedByEvents st.
Proof.
  set (st := default (readyState 0) (run overdraft (readyState 0))).
  assert (run overdraft (readyState 0) = Some st) as Hrun by (vm_compute; reflexivity).
  exists st. split; [exact Hrun|].
  exact (proj1 (session_never_has_events 0 st (run_reachable overdraft _ _ Hrun))).
Defined.

End SessionEvents.

Section EventTicks.
Import EventSystem.
#[local] Open Scope Q_scope.

Lemma tick_later (n : nat) (l : list ActiveEvent) :
  filter (λ ev, (0 < ev_duration ev)%Z)
    (map tick (map (later n) (filter (λ ev, (Z.of_nat n < ev_duration ev)%Z) l)))
  = map (later (S n)) (filter (λ ev, (Z.of_nat (S n) < ev_duration ev)%Z) l).
Proof.
  induction l as [|ev l IH]; [done|].
  rewrite !filter_cons.
  destruct (decide (Z.of_nat n < ev_duration ev)%Z) as [Hn|Hn].
  - cbn [map]. rewrite filter_cons. cbn [tick later ev_duration].
    destruct (decide (Z.of_nat (S n) < ev_duration ev)%Z) as [HS|HS].
    + rewrite decide_True by lia. cbn [map]. rewrite IH. f_equal.
      unfold tick, later. cbn. f_equal. lia.
    + rewrite decide_False by lia. exact IH.
  - rewrite decide_False by lia. exact IH.
Qed.

Lemma tick_later_1 (l : list ActiveEvent) :
  filter (λ ev, (0 < ev_duration ev)%Z) (map tick l)
  = map (later 1) (filter (λ ev, (Z.of_nat 1 < ev_duration ev)%Z) l).
Proof.
  induction l as [|ev l IH]; [done|].
  cbn [map]. rewrite !filter_cons. cbn [tick ev_duration].
  destruct (decide (Z.of_nat 1 < ev_duration ev)%Z) as [H1|H1].
  - rewrite decide_True by lia. cbn [map]. by rewrite IH.
  - rewrite decide_False by lia. exact IH.
Qed.

Lemma ticks_activeEvents (n : nat) (st : State) :
  ticks n st
  = with_activeEvents
      (Nat.iter n (λ l, filter (λ ev, (0 < ev_duration ev)%Z) (map tick l))
         (activeEvents st))
      st.
Proof.
  induction n as [|n IH].
  - by destruct st.
  - unfold ticks in *. rewrite !Nat.iter_succ, IH, updateActiveEvents_instance.
    reflexivity.
Qed.

(** After n calls of updateActiveEvents (n at least 1) the active events are
    exactly those that had more than n turns left, in their order, each
    with n turns fewer; nothing else in the state changes.  An event
    chosen with duration d is gone after d calls. *)
Theorem updateActiveEvents_n_times (n : nat) (st : State) :
  ticks (S n) st
  = with_activeEvents
      (map (later (S n))
         (filter (λ ev, (Z.of_nat (S n) < ev_duration ev)%Z) (activeEvents st)))
      st.
Proof.
  rewrite ticks_activeEvents. f_equal.
  induction n as [|n IH].
  - apply tick_later_1.
  - rewrite Nat.iter_succ, IH. apply tick_later.
Qed.

End EventTicks.

Section EventMultipliers.
Import ResourceSystem.
#[local] Open Scope Q_scope.

Lemma eventMultiplier_at_least (resourceType : string) (m : Q) (ev : ActiveEvent) :
  1 <= m → 1 <= eventMultiplier resourceType m ev.
Proof.
  intros Hm. unfold eventMultiplier.
  repeat match goal with
         | |- context [if ?b then _ else _] => destruct b
         end; lra.
Qed.

Lemma eventMultiplier_other (resourceType : string) (m : Q) (ev : ActiveEvent) :
  ev_effect ev ∉ boostEffects → eventMultiplier resourceType m ev = m.
Proof.
  intros Hnot. unfold eventMultiplier.
  destruct (String.eqb (ev_effect ev) "heatBoost") eqn:H1.
  { apply String.eqb_eq in H1. exfalso. apply Hnot. rewrite H1. apply list_elem_of_In; simpl; tauto. }
  destruct (String.eqb (ev_effect ev) "fuelBoost") eqn:H2.
  { apply String.eqb_eq in H2. exfalso. apply Hnot. rewrite H2. apply list_elem_of_In; simpl; tauto. }
  destruct (String.eqb (ev_effect ev) "allResourceBoost") eqn:H3.
  { apply String.eqb_eq in H3. exfalso. apply Hnot. rewrite H3. apply list_elem_of_In; simpl; tauto. }
  destruct (String.eqb (ev_effect ev) "overclock") eqn:H4.
  { apply String.eqb_eq in H4. exfalso. apply Hnot. rewrite H4. apply list_elem_of_In; simpl; tauto. }
  reflexivity.
Qed.

(** applyEventMultipliers never lowers a non-negative amount, and only four
    effects count: heatBoost (for heat), fuelBoost (for fuel),
    allResourceBoost and overclock.  Every other active event, among them
    the pressureBoost, solarHarvest and stabilityProtect choices, leaves
    the amount as it is. *)
Theorem applyEventMultipliers_boosts_only (st : State) (resourceType : string)
    (baseAmount : Q) :
  0 <= baseAmount →
  baseAmount <= applyEventMultipliers resourceType baseAmount st
  ∧ ((∀ ev, ev ∈ activeEvents st → ev_effect ev ∉ boostEffects) →
     applyEventMultipliers resourceType baseAmount st == baseAmount).
Proof.
  intros Hbase. unfold applyEventMultipliers. split.
  - assert (∀ evs m, 1 <= m → 1 <= foldl (eventMultiplier resourceType) m evs) as Hfold.
    { induction evs as [|ev evs IH]; intros m Hm; [done|].
      simpl. apply IH. by apply eventMultiplier_at_least. }
    specialize (Hfold (activeEvents st) 1 ltac:(lra)).
    set (m := foldl _ _ _) in *. nra.
  - intros Hother.
    assert (∀ evs m, (∀ ev, ev ∈ evs → ev_effect ev ∉ boostEffects) →
              foldl (eventMultiplier resourceType) m evs = m) as Hfold.
    { induction evs as [|ev evs IH]; intros m Hevs; [done|].
      simpl. rewrite eventMultiplier_other by (apply Hevs; left).
      apply IH. intros e He. apply Hevs. by right. }
    rewrite Hfold by done. ring.
Qed.

Lemma applyEventMultipliers_boosts_only_witness :
  applyEventMultipliers "pressure" 8 pressureBoosted == 8.
Proof.
  refine (proj2 (applyEventMultipliers_boosts_only pressureBoosted "pressure" 8 _) _).
  - discriminate.
  - intros ev Hev. apply list_elem_of_singleton in Hev as ->. simpl.
    unfold boostEffects. intros H.
    repeat (apply elem_of_cons in H as [H|H]; [discriminate H|]). inversion H.
Defined.

End EventMultipliers.

Section HighestResource.
Import EventSystem.
#[local] Open Scope Q_scope.

Lemma higher_spec (res : gmap string Q) (best : string * Q) (type : string) :
  res !! best.1 = Some best.2 →
  let best' := higher res best type in
  res !! best'.1 = Some best'.2
  ∧ best.2 <= best'.2
  ∧ (best' = best ∨ best'.1 = type)
  ∧ (∀ v, res !! type = Some v → v <= best'.2).
Proof.
  intros Hbest. unfold higher. destruct (res !! type) as [have|] eqn:Hhave.
  - destruct (Num.gtb have best.2) eqn:Hgt; simpl.
    + apply gtb_true in Hgt. repeat split; [done|lra|by right|].
      intros v [= <-]. lra.
    + apply gtb_false in Hgt. repeat split; [done|lra|by left|].
      intros v [= <-]. lra.
  - simpl. repeat split; [done|lra|by left|done].
Qed.

(** loseHighestResource, on a state object that holds the amounts itself,
    lowers exactly one resource: one of heat, fuel, pressure and energy whose
    amount is not exceeded by any of the others.  It loses
    floor(amount * percentage / 100), stops at zero, and no other amount
    changes. *)
Theorem loseHighestResource_lowers_a_maximum (percentage heat : Q) (st : State) :
  resources st !! "heat" = Some heat →
  ∃ k v,
    k ∈ comparedResources
    ∧ resources st !! k = Some v
    ∧ (∀ k' v', k' ∈ comparedResources → resources st !! k' = Some v' → v' <= v)
    ∧ loseHighestResource BareState percentage st
      = Returns tt
          (with_resources
             (<[k := let left := v - Num.floor (v * (percentage / 100)) in
                     if Num.ltb left 0 then 0 else left]> (resources st))
             st).
Proof.
  intros Hheat.
  assert (resources st !! ("heat", heat).1 = Some ("heat", heat).2) as H0 by exact Hheat.
  destruct (higher_spec (resources st) _ "fuel" H0) as (H1 & Hle1 & Hk1 & Hmax1).
  destruct (higher_spec (resources st) _ "pressure" H1) as (H2 & Hle2 & Hk2 & Hmax2).
  destruct (higher_spec (resources st) _ "energy" H2) as (H3 & Hle3 & Hk3 & Hmax3).
  remember (higher (resources st) ("heat", heat) "fuel") as b1 eqn:Hb1.
  remember (higher (resources st) b1 "pressure") as b2 eqn:Hb2.
  remember (higher (resources st) b2 "energy") as b3 eqn:Hb3.
  cbn [fst snd] in *.
  exists b3.1, b3.2. split; [|split; [exact H3|split]].
  - assert (b1.1 ∈ comparedResources) as Hin1.
    { destruct Hk1 as [Heq | Heq]; rewrite Heq; apply list_elem_of_In; simpl; tauto. }
    assert (b2.1 ∈ comparedResources) as Hin2.
    { destruct Hk2 as [Heq | Heq]; rewrite Heq; [done|].
      apply list_elem_of_In; simpl; tauto. }
    destruct Hk3 as [Heq | Heq]; rewrite Heq; [done|].
    apply list_elem_of_In; simpl; tauto.
  - intros k' v' Hk' Hv'. unfold comparedResources in Hk'.
    repeat (apply elem_of_cons in Hk' as [Heq | Hk']; [subst k'|]).
    + rewrite Hheat in Hv'. injection Hv' as <-. lra.
    + specialize (Hmax1 v' Hv'). lra.
    + specialize (Hmax2 v' Hv'). lra.
    + by apply Hmax3.
    + inversion Hk'.
  - unfold loseHighestResource, field, mbind, M_bind. rewrite Hheat.
    cbn [foldl]. rewrite <- Hb1, <- Hb2, <- Hb3. reflexivity.
Qed.

Lemma loseHighestResource_lowers_a_maximum_witness :
  ∃ k v,
    k ∈ comparedResources
    ∧ resources (scenarioB 0) !! k = Some v
    ∧ (∀ k' v', k' ∈ comparedResources → resources (scenarioB 0) !! k' = Some v' → v' <= v)
    ∧ loseHighestResource BareState 20 (scenarioB 0)
      = Returns tt
          (with_resources
             (<[k := let left := v - Num.floor (v * (20 / 100)) in
                     if Num.ltb left 0 then 0 else left]> (resources (scenarioB 0)))
             (scenarioB 0)).
Proof.
  assert (resources (scenarioB 0) !! "heat" = Some 50) as Hheat
    by (vm_compute; reflexivity).
  exact (loseHighestResource_lowers_a_maximum 20 50 (scenarioB 0) Hheat).
Defined.

End HighestResource.

Section EventChance.
Import EventSystem.
#[local] Open Scope Q_scope.

Variable rnd : nat → Q.
Hypothesis rnd_unit : ∀ i, 0 <= rnd i ∧ rnd i < 1.

Lemma floor_of_two (r : Q) :
  0 <= r → r < 1 → Qfloor (r * inject_Z 2) = 0%Z ∨ Qfloor (r * inject_Z 2) = 1%Z.
Proof.
  intros H0 H1.
  assert (0 <= Qfloor (r * inject_Z 2))%Z as Hlow.
  { rewrite <- (Qfloor_Z 0). apply Qfloor_resp_le. change (inject_Z 0) with 0.
    change (inject_Z 2) with 2. lra. }
  assert (Qfloor (r * inject_Z 2) < 2)%Z as Hhigh.
  { rewrite Zlt_Qlt. eapply Qle_lt_trans; [apply Qfloor_le|].
    change (inject_Z 2) with 2. lra. }
  lia.
Qed.

(** Every rarity has two events. *)
Lemma two_events_per_rarity (rarity : string) :
  rarity ∈ rarities →
  ∃ e1 e2,
    filter (λ event, ed_rarity event = rarity) (eventDefinitions.*2) = [e1; e2]
    ∧ e1 ∈ eventDefinitions.*2 ∧ e2 ∈ eventDefinitions.*2
    ∧ ed_rarity e1 = rarity ∧ ed_rarity e2 = rarity.
Proof.
  intros Hr. unfold rarities in Hr.
  repeat (apply elem_of_cons in Hr as [->|Hr];
          [eexists _, _; split; [vm_compute; reflexivity|];
           split; [apply list_elem_of_In; simpl; tauto|];
           split; [apply list_elem_of_In; simpl; tauto|];
           split; reflexivity|]).
  inversion Hr.
Qed.

(** A draw in [0, 1) therefore always selects an event. *)
Lemma triggerEvent_selects (rarity : string) (n : nat) :
  rarity ∈ rarities →
  ∃ event, triggerEvent rnd rarity n = (Some event, S n)
           ∧ event ∈ eventDefinitions.*2 ∧ ed_rarity event = rarity.
Proof.
  intros Hr. destruct (rnd_unit n) as [H0 H1].
  destruct (two_events_per_rarity rarity Hr) as (e1 & e2 & Hfilter & Hin1 & Hin2 & Hr1 & Hr2).
  unfold triggerEvent, ResourceSystem.bind, ResourceSystem.random, ResourceSystem.ret.
  rewrite Hfilter. change (Z.of_nat (length [e1; e2])) with 2%Z. cbn [fst snd].
  destruct (floor_of_two (rnd n) H0 H1) as [Hi|Hi]; rewrite Hi; cbn.
  - by exists e1.
  - by exists e2.
Qed.

Local Ltac qlra :=
  unfold Qdiv in *; change (/ 100) with (1 # 100) in *;
  change (/ 500) with (1 # 500) in *; lra.

(** checkForRandomEvent produces an event exactly when its first draw is
    below 0.3 + (stability - 25) / 100, that is below 0.05 + stability / 100:
    5 percent at no stability, 55 percent at 50.  The event belongs to the
    catalogue, and it is a negative one exactly when the second draw is
    below the larger of 0.05 and 0.15 - stability / 500. *)
Theorem checkForRandomEvent_chance (st : State) (stability : Q) (n : nat) :
  resources st !! "stability" = Some stability →
  let result := (checkForRandomEvent rnd st n).1 in
  (is_Some result ↔ rnd n < 0.05 + stability / 100)
  ∧ (∀ event, result = Some event →
       event ∈ eventDefinitions.*2
       ∧ (ed_rarity event = "negative" ↔
          rnd (S n) < 0.05 ∨ rnd (S n) < 0.15 - stability / 500)).
Proof.
  intros Hs result. subst result.
  unfold checkForRandomEvent, ResourceSystem.bind, ResourceSystem.random,
    ResourceSystem.ret.
  cbn [fst snd]. rewrite Hs.
  destruct (Num.ltb (rnd n) (0.3 + (stability - 25) / 100)) eqn:Hfire.
  - apply ltb_true in Hfire.
    assert (∀ rarity, rarity ∈ rarities →
              (rarity = "negative" ↔
               rnd (S n) < 0.05 ∨ rnd (S n) < 0.15 - stability / 500) →
              (is_Some (triggerEvent rnd rarity (S (S n))).1
               ↔ rnd n < 0.05 + stability / 100)
              ∧ (∀ event, (triggerEvent rnd rarity (S (S n))).1 = Some event →
                   event ∈ eventDefinitions.*2
                   ∧ (ed_rarity event = "negative" ↔
                      rnd (S n) < 0.05 ∨ rnd (S n) < 0.15 - stability / 500)))
      as Hcase.
    { intros rarity Hr Hneg.
      destruct (triggerEvent_selects rarity (S (S n)) Hr) as (event & -> & Hin & Hrar).
      cbn [fst]. split.
      - split; [intros _; qlra|by eexists].
      - intros e [= <-]. split; [done|]. by rewrite Hrar. }
    destruct (Num.ltb (0.15 - stability / 500) 0.05) eqn:Hfloor.
    + apply ltb_true in Hfloor.
      destruct (Num.ltb (rnd (S n)) 0.05) eqn:H1.
      { apply ltb_true in H1. apply Hcase; [apply list_elem_of_In; simpl; tauto|].
        split; [by left|done]. }
      apply ltb_false in H1.
      assert (∀ rarity, rarity ≠ "negative" →
                rarity = "negative" ↔
                rnd (S n) < 0.05 ∨ rnd (S n) < 0.15 - stability / 500) as Hno.
      { intros rarity Hne. split; [done|]. intros [H|H]; qlra. }
      destruct (Num.ltb (rnd (S n)) 0.60);
        [apply Hcase; [apply list_elem_of_In; simpl; tauto|by apply Hno]|].
      destruct (Num.ltb (rnd (S n)) 0.85);
        [apply Hcase; [apply list_elem_of_In; simpl; tauto|by apply Hno]|].
      destruct (Num.ltb (rnd (S n)) 0.95);
        apply Hcase; first [apply list_elem_of_In; simpl; tauto|by apply Hno].
    + apply ltb_false in Hfloor.
      destruct (Num.ltb (rnd (S n)) (0.15 - stability / 500)) eqn:H1.
      { apply ltb_true in H1. apply Hcase; [apply list_elem_of_In; simpl; tauto|].
        split; [by right|done]. }
      apply ltb_false in H1.
      assert (∀ rarity, rarity ≠ "negative" →
                rarity = "negative" ↔
                rnd (S n) < 0.05 ∨ rnd (S n) < 0.15 - stability / 500) as Hno.
      { intros rarity Hne. split; [done|]. intros [H|H]; qlra. }
      destruct (Num.ltb (rnd (S n)) 0.60);
        [apply Hcase; [apply list_elem_of_In; simpl; tauto|by apply Hno]|].
      destruct (Num.ltb (rnd (S n)) 0.85);
        [apply Hcase; [apply list_elem_of_In; simpl; tauto|by apply Hno]|].
      destruct (Num.ltb (rnd (S n)) 0.95);
        apply Hcase; first [apply list_elem_of_In; simpl; tauto|by apply Hno].
  - apply ltb_false in Hfire. cbn [fst]. split.
    + split; [intros [? [=]]|intros H; qlra].
    + intros event [=].
Qed.

End EventChance.

Lemma checkForRandomEvent_chance_witness :
  is_Some (EventSystem.checkForRandomEvent (λ _, 0.02%Q) (readyState 0) 0%nat).1.
Proof.
  refine (proj2 (proj1 (checkForRandomEvent_chance (λ _, 0.02%Q) _ (readyState 0)
                          0%Q 0%nat _)) _).
  - intros i. split; [by vm_compute|reflexivity].
  - reflexivity.
  - reflexivity.
Defined.

(** ** Achievements and tracking *)

Section HiddenAchievements.
Import AchievementSystem.
#[local] Open Scope Q_scope.

(** A hidden achievement passes the hidden test only with a requirement of
    type secret, and checkRequirement has no case for that type. *)
Lemma hidden_never_eligible (now : Q) (a : Achievement) (st : State) :
  a_hidden a = true → eligible now a st = false.
Proof.
  intros Hhidden. unfold eligible. rewrite Hhidden. simpl.
  destruct (a_requirement a); simpl; try reflexivity.
  by rewrite andb_false_r.
Qed.

(** checkAchievements never unlocks a hidden achievement, whatever the
    secret codes stored in the state: the requirement of a hidden
    achievement has to be of type secret to pass the hidden test, and
    checkRequirement answers false for that type. *)
Theorem checkAchievements_never_unlocks_hidden (now : Q) (st : State) :
  Forall (λ e : Z * Achievement, a_hidden e.2 = false) (checkAchievements now st).1.
Proof.
  unfold checkAchievements.
  destruct (check_loop now (ach_definitions st) [] st) as (added & -> & Hsound & _).
  simpl. apply Forall_forall. intros e He.
  destruct (Hsound e He) as (_ & _ & l & Helig).
  destruct (a_hidden e.2) eqn:Hhidden; [|done].
  by rewrite hidden_never_eligible in Helig.
Qed.

Lemma checkOne_NoDup (now : Q) (acc : list (Z * Achievement) * State)
    (entry : Z * Achievement) :
  NoDup (ach_unlocked acc.2) → NoDup (ach_unlocked (checkOne now acc entry).2).
Proof.
  destruct acc as [new st], entry as [id a]. cbn [snd]. intros Hnd.
  rewrite checkOne_eq.
  destruct (negb (includes id (ach_unlocked st)) && eligible now a st)
    eqn:Hpush; [|done].
  apply andb_true_iff in Hpush as [Hlocked _]. apply negb_true_iff in Hlocked.
  simpl. apply NoDup_app. split; [done|]. split.
  - intros x Hx Hin. apply list_elem_of_singleton in Hin as ->.
    apply includes_elem_of in Hx. congruence.
  - apply NoDup_singleton.
Qed.

(** checkAchievements never enters an id twice: an unlocked list without
    duplicates stays without duplicates, whatever the definitions table
    holds. *)
Theorem checkAchievements_keeps_unlocked_distinct (now : Q) (st : State) :
  NoDup (ach_unlocked st) → NoDup (ach_unlocked (checkAchievements now st).2).
Proof.
  intros Hnd. unfold checkAchievements.
  assert (NoDup (ach_unlocked ([] : list (Z * Achievement), st).2)) as Hacc by exact Hnd.
  clear Hnd. revert Hacc. generalize ([] : list (Z * Achievement), st) as acc.
  induction (ach_definitions st) as [|entry defs IH]; intros acc Hacc; cbn [foldl].
  - exact Hacc.
  - apply IH. by apply checkOne_NoDup.
Qed.

Lemma checkAchievements_keeps_unlocked_distinct_witness :
  NoDup (ach_unlocked (checkAchievements hunterClock hunterState).2).
Proof.
  apply checkAchievements_keeps_unlocked_distinct.
  apply (bool_decide_unpack _). vm_compute. reflexivity.
Defined.

End HiddenAchievements.

Section ActionTracking.
Import AchievementSystem.
#[local] Open Scope Q_scope.

Lemma lastN_length {A} (n : nat) (l : list A) :
  (n <= length l)%nat → length (lastN n l) = n.
Proof. intros H. unfold lastN. rewrite length_drop. lia. Qed.

Lemma lastN_last {A} (n : nat) (l : list A) (x : A) :
  (0 < n)%nat → last (lastN n (l ++ [x])) = Some x.
Proof.
  intros Hn. unfold lastN. rewrite length_app. simpl.
  rewrite drop_app_le by lia. by rewrite last_snoc.
Qed.

(** trackRecentAction keeps the list of a category bounded: after every
    call it holds at most 100 timestamps (a list that has grown beyond that
    is cut to its last 50), its last entry is the time of the call, and the
    lists of the other categories are untouched. *)
Theorem trackRecentAction_bounded (now : Q) (category : string) (st : State) :
  ∃ actions,
    recentActions (tracking (trackRecentAction now category st)) !! category
    = Some actions
    ∧ (length actions <= 100)%nat
    ∧ last actions = Some now
    ∧ ∀ other, other ≠ category →
        recentActions (tracking (trackRecentAction now category st)) !! other
        = recentActions (tracking st) !! other.
Proof.
  unfold trackRecentAction. cbn [tracking with_tracking recentActions with_recentActions].
  set (before := default [] (recentActions (tracking st) !! category)).
  eexists. split; [by rewrite lookup_insert_eq|]. split; [|split].
  - destruct (100 <? length (before ++ [now]))%nat eqn:Hlong.
    + apply Nat.ltb_lt in Hlong. rewrite lastN_length; lia.
    + apply Nat.ltb_ge in Hlong. exact Hlong.
  - destruct (100 <? length (before ++ [now]))%nat.
    + apply lastN_last. lia.
    + by rewrite last_snoc.
  - intros other Hne. by rewrite lookup_insert_ne.
Qed.

(** trackDiscovery records a method once: afterwards the method is in the
    list of its category, a list without duplicates stays without
    duplicates, and recording the same method again changes nothing. *)
Theorem trackDiscovery_records_once (category method : string) (st : State) :
  let st1 := trackDiscovery category method st in
  (∃ found, discoveries (tracking st1) !! category = Some found
            ∧ method ∈ found
            ∧ (NoDup (default [] (discoveries (tracking st) !! category)) →
               NoDup found))
  ∧ trackDiscovery category method st1 = st1.
Proof.
  intros st1. subst st1. unfold trackDiscovery.
  cbn [tracking with_tracking discoveries with_discoveries].
  set (before := default [] (discoveries (tracking st) !! category)).
  assert (∀ l, existsb (String.eqb method) l = true ↔ method ∈ l) as Hexists.
  { intros l. rewrite existsb_exists. split.
    - intros (x & Hx & Heq). apply String.eqb_eq in Heq as ->. by apply list_elem_of_In.
    - intros Hin. exists method. split; [by apply list_elem_of_In|apply String.eqb_refl]. }
  set (after := if existsb (String.eqb method) before then before
                else before ++ [method]).
  assert (method ∈ after) as Hin.
  { unfold after. destruct (existsb (String.eqb method) before) eqn:Hex.
    - by apply Hexists.
    - apply elem_of_app. right. by left. }
  split.
  - exists after. split; [by rewrite lookup_insert_eq|]. split; [done|].
    unfold after. destruct (existsb (String.eqb method) before) eqn:Hex; [done|].
    intros Hnd. apply NoDup_app. split; [done|]. split; [|apply NoDup_singleton].
    intros x Hx Hx'. apply list_elem_of_singleton in Hx' as ->.
    apply Hexists in Hx. congruence.
  - rewrite lookup_insert_eq. cbn [default]. unfold id. fold after.
    apply Hexists in Hin. rewrite Hin. rewrite insert_insert_eq. reflexivity.
Qed.

End ActionTracking.

Section Clicks.
Import AchievementSystem Game.
#[local] Open Scope Q_scope.

Lemma addResources_tracking (deltas : list (string * Q)) (st : State) :
  tracking (outcome_state (GameState.addResources deltas st)) = tracking st.
Proof. by destruct (addResources_shape deltas st) as (l & r & ->). Qed.

Lemma checkUpgradeUnlocks_tracking (st : State) :
  tracking (UpgradeSystem.checkUpgradeUnlocks st) = tracking st.
Proof. reflexivity. Qed.

(** One press of a generate button counts as two clicks when a world is
    set: ResourceSystem.generateResource counts the click while it tracks
    the manual generation, and Game.generateResource counts it again.
    Without a current world only the second count happens. *)
Theorem generateResource_counts_two_clicks (now : Q) (type : string) (st st' : State) :
  generateResource now type st = Some st' →
  clicks st' = (clicks st + match currentWorld st with Some _ => 2 | None => 1 end)%Z.
Proof.
  unfold generateResource, ResourceSystem.generateResource, clicks.
  destruct (currentWorld st) as [world|].
  - destruct (ResourceSystem.manualGain type world st) as [gain|]; [|done].
    cbn [mbind option_bind].
    match goal with
    | |- context [GameState.addResources ?d st] =>
        pose proof (addResources_tracking d st) as Htr;
        destruct (GameState.addResources d st) as [[] st1|]; [|done]
    end.
    cbn [outcome_state] in Htr.
    cbn [mbind option_bind snd]. intros Heq. apply (inj Some) in Heq. rewrite <- Heq.
    unfold updateUI. rewrite checkUpgradeUnlocks_tracking.
    unfold checkAndNotifyAchievements.
    match goal with
    | |- context [checkAchievements ?n ?s] =>
        destruct (checkAchievements_state n s) as [l ->]
    end.
    cbn [tracking with_ach_unlocked incrementClick with_tracking with_totalClicks
           totalClicks outcome_state].
    rewrite updateActiveEvents_instance.
    cbn [tracking with_activeEvents outcome_state with_tracking
           ResourceSystem.trackManual totalClicks].
    rewrite Htr. lia.
  - cbn [mbind option_bind snd]. intros Heq. apply (inj Some) in Heq. rewrite <- Heq.
    unfold updateUI. rewrite checkUpgradeUnlocks_tracking.
    unfold checkAndNotifyAchievements.
    match goal with
    | |- context [checkAchievements ?n ?s] =>
        destruct (checkAchievements_state n s) as [l ->]
    end.
    cbn [tracking with_ach_unlocked incrementClick with_tracking with_totalClicks
           totalClicks outcome_state].
    rewrite updateActiveEvents_instance.
    cbn [tracking with_activeEvents outcome_state]. lia.
Qed.

Lemma generateResource_counts_two_clicks_witness :
  ∃ st', generateResource 5 "heat" (readyState 0) = Some st' ∧ clicks st' = 2%Z.
Proof.
  set (st' := default (readyState 0) (generateResource 5 "heat" (readyState 0))).
  assert (generateResource 5 "heat" (readyState 0) = Some st') as Hgen
    by (vm_compute; reflexivity).
  exists st'. split; [exact Hgen|].
  exact (generateResource_counts_two_clicks 5 "heat" (readyState 0) st' Hgen).
Defined.

End Clicks.

(** ** Saves: validation scope, backups, repair *)

Section ValidationScope.
Import Save.
#[local] Open Scope Q_scope.

Lemma has_insert_other (d : gmap string value) (k p : string) (v : value) :
  k ≠ p → has (VObj (<[k := v]> d)) p = has (VObj d) p.
Proof. intros Hne. unfold has. by rewrite lookup_insert_ne. Qed.

Lemma get_insert_other (d : gmap string value) (k p : string) (v : value) :
  k ≠ p → get (VObj (<[k := v]> d)) p = get (VObj d) p.
Proof. intros Hne. unfold get. by rewrite lookup_insert_ne. Qed.

Lemma get_insert_same (d : gmap string value) (k : string) (v : value) :
  get (VObj (<[k := v]> d)) k = v.
Proof. unfold get. by rewrite lookup_insert_eq. Qed.

(** validateSaveData looks at four top-level properties and, inside
    resources, at the five basic amounts only.  Whatever a save holds under
    any other property, or as the amount of any other resource (water,
    oxygen, ... : a negative number, NaN, a string), does not change the
    verdict. *)
Theorem validateSaveData_scope (d : gmap string value) (k : string) (v : value) :
  (k ∉ validatedProperties →
   validateSaveData (VObj (<[k := v]> d)) = validateSaveData (VObj d))
  ∧ (∀ m, d !! "resources" = Some (VObj m) → k ∉ resourceTypes →
       validateSaveData (VObj (<["resources" := VObj (<[k := v]> m)]> d))
       = validateSaveData (VObj d)).
Proof.
  split.
  - intros Hk. unfold validatedProperties in Hk.
    assert (k ≠ "worldsCreated" ∧ k ≠ "resources" ∧ k ≠ "upgrades" ∧ k ≠ "worldHistory")
      as (H1 & H2 & H3 & H4).
    { repeat split; intros ->; apply Hk; apply list_elem_of_In; simpl; tauto. }
    unfold validateSaveData, requiredProperties.
    cbn [forallb].
    rewrite (has_insert_other d k "worldsCreated"), (has_insert_other d k "resources"),
      (has_insert_other d k "upgrades") by done.
    rewrite !(get_insert_other d k "worldsCreated"), !(get_insert_other d k "resources"),
      !(get_insert_other d k "upgrades"), !(get_insert_other d k "worldHistory") by done.
    reflexivity.
  - intros m Hres Hk.
    assert (get (VObj d) "resources" = VObj m) as Hget by (unfold get; by rewrite Hres).
    unfold validateSaveData, requiredProperties.
    cbn [forallb].
    rewrite (has_insert_other d "resources" "worldsCreated") by done.
    rewrite (has_insert_other d "resources" "upgrades") by done.
    rewrite (get_insert_other d "resources" "worldsCreated") by done.
    rewrite !(get_insert_other d "resources" "upgrades") by done.
    rewrite !(get_insert_other d "resources" "worldHistory") by done.
    rewrite get_insert_same, Hget.
    assert (has (VObj (<["resources" := VObj (<[k := v]> m)]> d)) "resources"
            = has (VObj d) "resources") as ->.
    { unfold has. rewrite lookup_insert_eq, Hres. reflexivity. }
    assert (existsb (badResource (VObj (<[k := v]> m))) resourceTypes
            = existsb (badResource (VObj m)) resourceTypes) as ->; [|reflexivity].
    unfold resourceTypes in *. cbn [existsb]. unfold badResource.
    rewrite !get_insert_other; [reflexivity|..];
      intros ->; apply Hk; apply list_elem_of_In; simpl; tauto.
Qed.

Lemma validateSaveData_scope_witness :
  validateSaveData negativeWater = true.
Proof.
  unfold negativeWater.
  assert (∃ m, fields constructorState !! "resources" = Some (VObj m)
               ∧ fields (get constructorState "resources") = m) as (m & Hm & ->).
  { eexists. split; reflexivity. }
  rewrite (proj2 (validateSaveData_scope (fields constructorState) "water" (num (-5)))
             m Hm).
  - reflexivity.
  - unfold resourceTypes. intros H.
    repeat (apply elem_of_cons in H as [H|H]; [discriminate H|]). inversion H.
Defined.

End ValidationScope.

Section Backups.
Import Save.
#[local] Open Scope Z_scope.

Lemma insertNewestFirst_perm (x : BackupMeta) (l : list BackupMeta) :
  insertNewestFirst x l ≡ₚ x :: l.
Proof.
  induction l as [|y l IH]; [done|]. simpl.
  destruct (bk_timestamp y <=? bk_timestamp x); [done|].
  rewrite IH. apply Permutation_swap.
Qed.

Lemma newestFirst_perm (l : list BackupMeta) : newestFirst l ≡ₚ l.
Proof.
  induction l as [|x l IH]; [done|]. unfold newestFirst in *. simpl.
  rewrite insertNewestFirst_perm. by rewrite IH.
Qed.

Lemma insertNewestFirst_sorted (x : BackupMeta) (l : list BackupMeta) :
  StronglySorted (λ a b, bk_timestamp b <= bk_timestamp a) l →
  StronglySorted (λ a b, bk_timestamp b <= bk_timestamp a) (insertNewestFirst x l).
Proof.
  induction 1 as [|y l Hsorted IH Hy]; simpl.
  - repeat constructor.
  - destruct (bk_timestamp y <=? bk_timestamp x) eqn:Hle.
    + apply Z.leb_le in Hle. constructor; [by constructor|].
      constructor; [done|]. eapply Forall_impl; [exact Hy|]. simpl. lia.
    + apply Z.leb_gt in Hle. constructor; [done|].
      rewrite insertNewestFirst_perm. constructor; [lia|done].
Qed.

Lemma newestFirst_sorted (l : list BackupMeta) :
  StronglySorted (λ a b, bk_timestamp b <= bk_timestamp a) (newestFirst l).
Proof.
  induction l as [|x l IH]; [constructor|].
  unfold newestFirst in *. simpl. by apply insertNewestFirst_sorted.
Qed.

(** The entry that sorting puts first has the greatest timestamp. *)
Lemma newestFirst_head (l : list BackupMeta) (b : BackupMeta) :
  head (newestFirst l) = Some b →
  b ∈ l ∧ ∀ b', b' ∈ l → bk_timestamp b' <= bk_timestamp b.
Proof.
  intros Hhead. pose proof (newestFirst_sorted l) as Hsorted.
  pose proof (newestFirst_perm l) as Hperm.
  destruct (newestFirst l) as [|b0 rest]; [done|]. injection Hhead as ->.
  split.
  - rewrite <- Hperm. left.
  - intros b' Hb'. rewrite <- Hperm in Hb'.
    apply elem_of_cons in Hb' as [->|Hb']; [lia|].
    apply StronglySorted_inv in Hsorted as [_ Hall].
    rewrite Forall_forall in Hall. by apply Hall.
Qed.

Lemma elem_of_drop_list {A} (n : nat) (l : list A) (x : A) : x ∈ drop n l → x ∈ l.
Proof. intros H. rewrite <- (take_drop n l). apply elem_of_app. by right. Qed.

Lemma elem_of_take_list {A} (n : nat) (l : list A) (x : A) : x ∈ take n l → x ∈ l.
Proof. intros H. rewrite <- (take_drop n l). apply elem_of_app. by left. Qed.

(** Sorted newest first, what lies beyond a position is not newer than
    what lies before it. *)
Lemma sorted_take_drop (n : nat) (l : list BackupMeta) (b d : BackupMeta) :
  StronglySorted (λ a b, bk_timestamp b <= bk_timestamp a) l →
  b ∈ take n l → d ∈ drop n l → bk_timestamp d <= bk_timestamp b.
Proof.
  intros Hsorted. revert n. induction Hsorted as [|y l Hsorted IH Hy]; intros n Hb Hd.
  - rewrite take_nil in Hb. inversion Hb.
  - destruct n as [|n]; [inversion Hb|]. simpl in Hb, Hd.
    apply elem_of_cons in Hb as [->|Hb].
    + rewrite Forall_forall in Hy. apply Hy. by eapply elem_of_drop_list.
    + by apply (IH n).
Qed.

Lemma delete_all_other (dropped : list BackupMeta) (items : gmap string Item) (k : string) :
  (∀ b, b ∈ dropped → bk_key b ≠ k) →
  foldl (λ items b, delete (bk_key b) items) items dropped !! k = items !! k.
Proof.
  revert items. induction dropped as [|b dropped IH]; intros items Hkeys; [done|].
  simpl. rewrite IH by (intros b' Hb'; apply Hkeys; by right).
  apply lookup_delete_ne. apply Hkeys. left.
Qed.

(** saveGame never leaves more than three backups in the index: when the
    backup it takes makes a fourth, the entries are sorted by timestamp and
    only the three newest are kept, so that no entry it drops is newer than
    one it keeps. *)
Theorem saveGame_keeps_three_backups (now : Z) (state : value) (store : Storage)
    (l : list BackupMeta) :
  getBackupList store = Some l →
  let all := match saveItem store with
             | Some _ => l ++ [mkBackup (backupKeyOf now) now]
             | None => l
             end in
  ∃ kept,
    getBackupList (saveGame now state store) = Some kept
    ∧ (length kept <= 3)%nat
    ∧ ((length all <= 3)%nat → kept = all)
    ∧ (∀ b, b ∈ kept → b ∈ all)
    ∧ (∀ b d, b ∈ kept → d ∈ all → d ∉ kept → bk_timestamp d <= bk_timestamp b).
Proof.
  intros Hlist all. unfold saveGame.
  set (store2 := mkStorage _ _ _).
  assert (getBackupList store2 = Some all) as Hall.
  { unfold store2, getBackupList, all, createBackup. cbn [backupIndex].
    destruct (saveItem store); [|exact Hlist].
    fold (getBackupList store). by rewrite Hlist. }
  unfold cleanupOldBackups. rewrite Hall.
  destruct (3 <? length all)%nat eqn:Hlong.
  - apply Nat.ltb_lt in Hlong. exists (take 3 (newestFirst all)).
    split; [reflexivity|]. split; [rewrite length_take; lia|].
    split; [lia|]. split.
    + intros b Hb. apply elem_of_take_list in Hb. by rewrite newestFirst_perm in Hb.
    + intros b d Hb Hd Hnot.
      apply (sorted_take_drop 3 (newestFirst all)); [apply newestFirst_sorted|done|].
      rewrite <- newestFirst_perm, <- (take_drop 3 (newestFirst all)) in Hd.
      apply elem_of_app in Hd as [Hd|Hd]; [done|exact Hd].
  - apply Nat.ltb_ge in Hlong. exists all.
    split; [exact Hall|]. split; [done|]. split; [done|]. split; [done|].
    intros b d _ Hd Hnot. done.
Qed.

Lemma saveGame_keeps_three_backups_witness :
  ∃ kept,
    getBackupList
      (saveGame 4 (Save.num 0)
         (mkStorage (Some (Json (Save.num 0)))
            (Some (IndexList [mkBackup "a" 1; mkBackup "b" 3; mkBackup "c" 2])) ∅))
    = Some kept
    ∧ (length kept <= 3)%nat.
Proof.
  destruct (saveGame_keeps_three_backups 4 (Save.num 0)
              (mkStorage (Some (Json (Save.num 0)))
                 (Some (IndexList [mkBackup "a" 1; mkBackup "b" 3; mkBackup "c" 2])) ∅)
              [mkBackup "a" 1; mkBackup "b" 3; mkBackup "c" 2] eq_refl)
    as (kept & Hkept & Hlen & _).
  exists kept. split; [exact Hkept|exact Hlen].
Defined.

(** restoreFromBackup looks at one backup only, an entry with the greatest
    timestamp: it succeeds exactly when that backup is stored, parses and
    validates, and then copies it into the save slot.  When the newest
    backup is unusable it gives up, whatever the older backups hold. *)
Theorem restoreFromBackup_newest_only (store : Storage) (l : list BackupMeta)
    (newest : BackupMeta) :
  getBackupList store = Some l →
  head (newestFirst l) = Some newest →
  newest ∈ l
  ∧ (∀ b, b ∈ l → bk_timestamp b <= bk_timestamp newest)
  ∧ restoreFromBackup store
    = match backupItems store !! bk_key newest with
      | Some (Json v) =>
          if validateSaveData v
          then (true, mkStorage (Some (Json v)) (backupIndex store) (backupItems store))
          else (false, store)
      | _ => (false, store)
      end.
Proof.
  intros Hlist Hhead.
  destruct (newestFirst_head l newest Hhead) as [Hin Hmax].
  split; [done|]. split; [done|].
  unfold restoreFromBackup. rewrite Hlist.
  destruct l as [|b bs]; [done|]. rewrite Hhead.
  by destruct (backupItems store !! bk_key newest) as [[|v]|].
Qed.

Lemma restoreFromBackup_newest_only_witness :
  restoreFromBackup
    (mkStorage None
       (Some (IndexList [mkBackup "old" 1; mkBackup "new" 2]))
       (<["old" := Json constructorState]> (<["new" := Unparsable]> ∅)))
  = (false,
     mkStorage None
       (Some (IndexList [mkBackup "old" 1; mkBackup "new" 2]))
       (<["old" := Json constructorState]> (<["new" := Unparsable]> ∅))).
Proof.
  exact (proj2 (proj2 (restoreFromBackup_newest_only
                         (mkStorage None
                            (Some (IndexList [mkBackup "old" 1; mkBackup "new" 2]))
                            (<["old" := Json constructorState]>
                               (<["new" := Unparsable]> ∅)))
                         [mkBackup "old" 1; mkBackup "new" 2] (mkBackup "new" 2)
                         eq_refl eq_refl))).
Defined.

Lemma newestFirst_newest (l : list BackupMeta) (x : BackupMeta) :
  (∀ b, b ∈ l → bk_timestamp b < bk_timestamp x) →
  newestFirst (l ++ [x]) = x :: newestFirst l.
Proof.
  intros Holder. unfold newestFirst. rewrite foldr_app. simpl.
  induction l as [|y l IH]; [done|]. simpl.
  rewrite IH by (intros b Hb; apply Holder; by right). simpl.
  assert (bk_timestamp y < bk_timestamp x) as Hy by (apply Holder; left).
  assert ((bk_timestamp x <=? bk_timestamp y) = false) as -> by (apply Z.leb_gt; lia).
  reflexivity.
Qed.

(** Saving can be undone: saveGame first stores the save it is about to
    replace as the backup of the current time, and restoreFromSpecificBackup
    with that time puts it back into the save slot, provided the replaced
    save validates, the time is later than every backup in the index and
    its key is not already in use. *)
Theorem restoreFromSpecificBackup_undoes_save (now later : Z) (state v : value)
    (store : Storage) (l : list BackupMeta) :
  saveItem store = Some (Json v) →
  validateSaveData v = true →
  getBackupList store = Some l →
  (∀ b, b ∈ l → bk_timestamp b < now ∧ bk_key b ≠ backupKeyOf now) →
  validDate now = true →
  let restored := restoreFromSpecificBackup later now (saveGame now state store) in
  restored.1 = true ∧ saveItem restored.2 = Some (Json v).
Proof.
  intros Hsave Hvalid Hlist Hold Hdate restored.
  assert (backupItems (saveGame now state store) !! backupKeyOf now = Some (Json v))
    as Hstored.
  { unfold saveGame, createBackup. rewrite Hsave, Hlist. cbn [backupIndex backupItems].
    unfold cleanupOldBackups, getBackupList. cbn [backupIndex backupItems saveItem].
    fold (backupKeyOf now).
    destruct (3 <? length (l ++ [mkBackup (backupKeyOf now) now]))%nat.
    - cbn [backupItems]. rewrite delete_all_other.
      + apply lookup_insert_eq.
      + intros b Hb.
        rewrite newestFirst_newest in Hb by (intros b' Hb'; by apply Hold).
        cbn [drop] in Hb. apply elem_of_drop_list in Hb.
        rewrite newestFirst_perm in Hb. by apply Hold.
    - apply lookup_insert_eq. }
  subst restored. unfold restoreFromSpecificBackup. fold (backupKeyOf now).
  rewrite Hstored, Hvalid. cbn [fst snd saveItem]. by rewrite Hdate.
Qed.

Lemma restoreFromSpecificBackup_undoes_save_witness :
  (restoreFromSpecificBackup 9 5
     (saveGame 5 (Save.num 0) (mkStorage (Some (Json constructorState)) None ∅))).1
  = true
  ∧ saveItem
      (restoreFromSpecificBackup 9 5
         (saveGame 5 (Save.num 0) (mkStorage (Some (Json constructorState)) None ∅))).2
    = Some (Json constructorState).
Proof.
  apply (restoreFromSpecificBackup_undoes_save 5 9 (Save.num 0) constructorState
           (mkStorage (Some (Json constructorState)) None ∅) []).
  - reflexivity.
  - reflexivity.
  - reflexivity.
  - intros b Hb. inversion Hb.
  - reflexivity.
Defined.

End Backups.

Section Fixing.
Import Save.
#[local] Open Scope Q_scope.

Lemma fixedHistory_again (now1 now2 : Z) (m m' : gmap string value) (h : value) :
  fixedHistory now1 m = Some h →
  m' !! "worldHistory" = Some h →
  m' !! "worldsCreated" = m !! "worldsCreated" →
  fixedHistory now2 m' = Some h.
Proof.
  unfold fixedHistory. intros Hfirst Hh Hwc. rewrite Hh, Hwc.
  change (default VUndef (Some h)) with h.
  set (history := default VUndef (m !! "worldHistory")) in *.
  set (wc := default VUndef (m !! "worldsCreated")) in *.
  destruct ((negb (truthy history) || isZero (get history "length"))
            && greaterThanZero wc) eqn:Hmigrate.
  - apply andb_true_iff in Hmigrate as [_ Hpositive]. rewrite Hpositive, andb_true_r.
    unfold placeholderHistory in *.
    destruct wc as [| | |[q| | |]| | |]; try discriminate.
    injection Hfirst as <-. cbn [truthy negb orb get isZero].
    rewrite length_map, length_seq.
    destruct (Z.to_nat (Qfloor q)) as [|n] eqn:Hn; [reflexivity|].
    rewrite String.eqb_refl. unfold num. cbn [isZero].
    assert (Qeq_bool (inject_Z (Z.of_nat (S n))) 0 = false) as ->; [|reflexivity].
    apply not_true_iff_false. intros Heq. apply Qeq_bool_iff in Heq.
    unfold Qeq in Heq. simpl in Heq. lia.
  - injection Hfirst as <-. destruct (truthy history) eqn:Htruthy.
    + rewrite Htruthy. cbn [negb orb] in *. by rewrite Hmigrate.
    + cbn [negb orb andb truthy] in *. by rewrite Hmigrate.
Qed.

Lemma fixUpgrade_entry_again (current : value) (dm : gmap string value) :
  let fixed := if truthy current then spread (VObj dm) current else VObj dm in
  (if truthy fixed then spread (VObj dm) fixed else VObj dm) = fixed.
Proof.
  intros fixed. subst fixed. destruct (truthy current).
  - unfold spread. cbn [truthy fields]. f_equal.
    by rewrite <- (assoc_L (∪)), (idemp_L (∪)).
  - cbn [truthy]. unfold spread. cbn [fields]. f_equal. apply (idemp_L (∪)).
Qed.

Lemma fixedUpgrades_again (m m' : gmap string value) :
  m' !! "upgrades" = Some (VObj (fixedUpgrades m)) → fixedUpgrades m' = fixedUpgrades m.
Proof.
  intros Hups. unfold fixedUpgrades at 1. rewrite Hups.
  change (fields (default VUndef (Some (VObj (fixedUpgrades m))))) with (fixedUpgrades m).
  apply map_eq. intros k. rewrite (fixUpgrade_fold_lookup _ _ _ defaultUpgradesV_NoDup).
  destruct (_ !! k) as [d|] eqn:Hd; [|done].
  unfold fixedUpgrades. rewrite (fixUpgrade_fold_lookup _ _ _ defaultUpgradesV_NoDup), Hd.
  destruct (defaultUpgradesV_objects k d Hd) as [dm ->].
  set (current := default VUndef (_ !! k)).
  change (default VUndef (Some ?x)) with x. f_equal.
  apply fixUpgrade_entry_again.
Qed.

Lemma fixedEvents_again (m m' : gmap string value) :
  m' !! "activeEvents" = Some (fixedEvents m) → fixedEvents m' = fixedEvents m.
Proof.
  intros Hev. unfold fixedEvents at 1. rewrite Hev.
  change (default VUndef (Some (fixedEvents m))) with (fixedEvents m).
  unfold fixedEvents. by destruct (truthy (default VUndef (m !! "activeEvents"))) eqn:Ht;
    [rewrite Ht|].
Qed.

Lemma fixedResources_again (m m' : gmap string value) :
  m' !! "resources" = Some (fixedResources m) → fixedResources m' = fixedResources m.
Proof.
  intros Hres. unfold fixedResources at 1. rewrite Hres.
  change (default VUndef (Some (fixedResources m))) with (fixedResources m).
  unfold fixedResources, spread. cbn [fields]. f_equal.
  by rewrite <- (assoc_L (∪)), (idemp_L (∪)).
Qed.

(** validateAndFixState is stable: run again on a state it has produced, at
    whatever later time, it returns that state unchanged.  (The state's
    upgrades property holds an object, as it does in every state the
    constructor or a load builds.) *)
Theorem validateAndFixState_idempotent (now1 now2 : Z) (m : gmap string value)
    (state1 : value) :
  isObject (get (VObj m) "upgrades") = true →
  validateAndFixState now1 (VObj m) = Some state1 →
  validateAndFixState now2 state1 = Some state1.
Proof.
  intros _. rewrite validateAndFixState_assigns.
  destruct (fixedHistory now1 m) as [h|] eqn:Hh; [|done].
  cbn [mbind option_bind]. intros [= <-].
  set (m' := <["resources" := fixedResources m]> _).
  assert (m' !! "resources" = Some (fixedResources m)) as Hres
    by apply lookup_insert_eq.
  assert (m' !! "activeEvents" = Some (fixedEvents m)) as Hev.
  { unfold m'. rewrite lookup_insert_ne by done. apply lookup_insert_eq. }
  assert (m' !! "upgrades" = Some (VObj (fixedUpgrades m))) as Hups.
  { unfold m'. rewrite !lookup_insert_ne by done. apply lookup_insert_eq. }
  assert (m' !! "worldHistory" = Some h) as Hhist.
  { unfold m'. rewrite !lookup_insert_ne by done. apply lookup_insert_eq. }
  assert (m' !! "worldsCreated" = m !! "worldsCreated") as Hwc.
  { unfold m'. by rewrite !lookup_insert_ne. }
  rewrite validateAndFixState_assigns.
  rewrite (fixedHistory_again now1 now2 m m' h Hh Hhist Hwc). cbn [mbind option_bind].
  rewrite (fixedResources_again m m' Hres), (fixedEvents_again m m' Hev),
    (fixedUpgrades_again m m' Hups).
  rewrite (insert_id m' "worldHistory") by done.
  rewrite (insert_id m' "upgrades") by done.
  rewrite (insert_id m' "activeEvents") by done.
  by rewrite (insert_id m' "resources").
Qed.

Lemma validateAndFixState_idempotent_witness :
  validateAndFixState 7 constructorState = Some constructorState.
Proof.
  apply (validateAndFixState_idempotent 0 7 (fields constructorLiteral) constructorState).
  - reflexivity.
  - reflexivity.
Defined.

(** validateAndFixState completes a state and overrides nothing in it:
    afterwards each of the six upgrades is an object that has every property
    of its default entry, the five basic resources exist, worldHistory and
    activeEvents are set; every upgrade property and resource amount the
    state already held keeps its value, and the properties other than
    worldHistory, upgrades, activeEvents and resources are not touched. *)
Theorem validateAndFixState_completes (now : Z) (m : gmap string value) (state1 : value) :
  isObject (get (VObj m) "upgrades") = true →
  validateAndFixState now (VObj m) = Some state1 →
  (∀ k d, (k, d) ∈ defaultUpgradesV →
     ∃ c, get (get state1 "upgrades") k = VObj c
          ∧ (∀ p, is_Some (fields d !! p) → is_Some (c !! p))
          ∧ (∀ c0 p x, fields (get (VObj m) "upgrades") !! k = Some (VObj c0) →
               c0 !! p = Some x → c !! p = Some x))
  ∧ (∀ r, r ∈ resourceTypes → has (get state1 "resources") r = true)
  ∧ (∀ r x, fields (get (VObj m) "resources") !! r = Some x →
       get (get state1 "resources") r = x)
  ∧ truthy (get state1 "worldHistory") = true
  ∧ truthy (get state1 "activeEvents") = true
  ∧ (∀ k, k ∉ fixedProperties → get state1 k = get (VObj m) k).
Proof.
  intros _. rewrite validateAndFixState_assigns.
  destruct (fixedHistory now m) as [h|] eqn:Hh; [|done].
  cbn [mbind option_bind]. intros [= <-].
  split; [|split; [|split; [|split; [|split]]]].
  - intros k d Hkd. unfold get at 2.
    rewrite !lookup_insert_ne, lookup_insert_eq by done.
    change (default VUndef (Some (VObj (fixedUpgrades m)))) with (VObj (fixedUpgrades m)).
    unfold get at 1, fixedUpgrades.
    rewrite (fixUpgrade_fold_lookup _ _ _ defaultUpgradesV_NoDup).
    rewrite (elem_of_list_to_map_1 (M := gmap string) _ k d defaultUpgradesV_NoDup Hkd).
    change (default VUndef (Some ?x)) with x.
    destruct (defaultUpgradesV_objects k d) as [dm ->].
    { by apply (elem_of_list_to_map_1 (M := gmap string)); [apply defaultUpgradesV_NoDup|]. }
    unfold get at 1.
    set (current := default VUndef (fields (default VUndef (m !! "upgrades")) !! k)).
    destruct (truthy current) eqn:Htruthy.
    + unfold spread. cbn [fields]. eexists. split; [reflexivity|]. split.
      * intros p [x Hx]. cbn [fields] in Hx. rewrite lookup_union, Hx.
        by destruct (fields current !! p).
      * intros c0 p x Hc0 Hp. subst current. unfold get in Hc0.
        rewrite Hc0. by apply lookup_union_Some_l.
    + exists dm. split; [reflexivity|]. split; [done|].
      intros c0 p x Hc0. subst current. unfold get in Hc0. by rewrite Hc0 in Htruthy.
  - intros r Hr. unfold get. rewrite lookup_insert_eq.
    change (default VUndef (Some (fixedResources m))) with (fixedResources m).
    unfold fixedResources, spread, has. apply bool_decide_eq_true.
    rewrite lookup_union.
    assert (is_Some (fields defaultResourcesV !! r)) as [x Hx].
    { unfold resourceTypes in Hr.
      repeat (apply elem_of_cons in Hr as [->|Hr]; [by eexists|]). inversion Hr. }
    rewrite Hx. destruct (fields (default VUndef (m !! "resources")) !! r); by eexists.
  - intros r x Hx. unfold get at 2. rewrite lookup_insert_eq.
    change (default VUndef (Some (fixedResources m))) with (fixedResources m).
    unfold fixedResources, spread, get.
    by rewrite (lookup_union_Some_l _ _ r x Hx).
  - unfold get. rewrite !lookup_insert_ne, lookup_insert_eq by done.
    change (default VUndef (Some h)) with h.
    unfold fixedHistory in Hh.
    destruct (_ && _).
    + by destruct (placeholderHistory_array _ _ _ Hh) as [l ->].
    + injection Hh as <-. by destruct (truthy (default VUndef (m !! "worldHistory"))) eqn:Ht.
  - unfold get. rewrite !lookup_insert_ne, lookup_insert_eq by done.
    change (default VUndef (Some (fixedEvents m))) with (fixedEvents m).
    unfold fixedEvents. by destruct (truthy (default VUndef (m !! "activeEvents"))) eqn:Ht.
  - intros k Hk. unfold fixedProperties in Hk. unfold get.
    rewrite !lookup_insert_ne; [done|..];
      intros <-; apply Hk; apply list_elem_of_In; simpl; tauto.
Qed.

Lemma validateAndFixState_completes_witness :
  ∃ state1,
    validateAndFixState 7
      (obj [("worldsCreated", num 0); ("resources", obj [("heat", num 12)]);
            ("upgrades", obj [("heatGenerator", obj [("level", num 4)])])])
    = Some state1
    ∧ get (get (get state1 "upgrades") "heatGenerator") "level" = num 4
    ∧ get (get state1 "resources") "heat" = num 12
    ∧ has (get state1 "resources") "stability" = true.
Proof.
  set (m := list_to_map
              [("worldsCreated", num 0); ("resources", obj [("heat", num 12)]);
               ("upgrades", obj [("heatGenerator", obj [("level", num 4)])])]
            : gmap string value).
  set (state1 := default VUndef (validateAndFixState 7 (VObj m))).
  assert (validateAndFixState 7 (VObj m) = Some state1) as Hfix by reflexivity.
  destruct (validateAndFixState_completes 7 m state1 eq_refl Hfix)
    as (Hups & Hhas & Hres & _).
  exists state1. split; [exact Hfix|]. split; [|split].
  - destruct (Hups "heatGenerator"
                (obj [("level", num 0); ("maxLevel", num 10); ("baseCost", num 10)]))
      as (c & Hc & _ & Hkeep); [left|].
    rewrite Hc. unfold get at 1.
    by rewrite (Hkeep (list_to_map [("level", num 4)]) "level" (num 4) eq_refl eq_refl).
  - by apply Hres.
  - apply Hhas. apply list_elem_of_In; simpl; tauto.
Defined.

End Fixing.
